(** * mini-discord: a channel-partitioned message store over Cassandra/Scylla

    A shallow embedding of the request validators ([validators.js]), the
    storage functions ([db.ts]) and the two HTTP handlers ([index.ts]),
    followed by the properties of the store that the specification states.

    Conventions.
    - JavaScript strings are [string]s over 8-bit code units; [length] is the
      number of code units, as [String.prototype.length]. [toUpperCase] and
      [toLowerCase] map the ASCII letters and leave every other code unit
      as it is: they are the language's on ASCII strings, which the tokens
      and patterns of the code are.
    - A property that is [undefined] is [None]; [JUndefined] inside a value.
    - [async] functions run to completion one after the other: a handler is a
      function from the database state to a result and a new state, and a
      thrown exception is the [Throw] result.
    - The store is one copy of each table: a statement reads what the
      statements before it wrote. The consistency level of a statement
      decides whether the cluster serves it, not which replica answers;
      what a replicated cluster shows to a read at a weak level is outside
      the model. *)

From Stdlib Require Import ZArith List String Ascii Bool Lia.
From Stdlib Require Import Sorting.Sorted Sorting.Permutation.
Import ListNotations.

Open Scope string_scope.
Open Scope Z_scope.

(** ** JavaScript primitives used by the validators *)

Module Js.

Definition code (c : ascii) : Z := Z.of_nat (nat_of_ascii c).

Definition map_chars (f : ascii -> ascii) : string -> string :=
  fix go (s : string) : string :=
    match s with
    | EmptyString => EmptyString
    | String c s' => String (f c) (go s')
    end.

Definition upper_char (c : ascii) : ascii :=
  if (97 <=? code c) && (code c <=? 122)
  then ascii_of_nat (nat_of_ascii c - 32) else c.

Definition lower_char (c : ascii) : ascii :=
  if (65 <=? code c) && (code c <=? 90)
  then ascii_of_nat (nat_of_ascii c + 32) else c.

(** [String.prototype.toUpperCase] and [toLowerCase] on the ASCII letters. *)
Definition toUpperCase : string -> string := map_chars upper_char.
Definition toLowerCase : string -> string := map_chars lower_char.

(** White space and line terminators removed by [trim] and skipped by
    [parseInt]: TAB, LF, VT, FF, CR, SPACE and NBSP. *)
Definition isWhiteSpace (c : ascii) : bool :=
  ((9 <=? code c) && (code c <=? 13)) || (code c =? 32) || (code c =? 160).

Fixpoint trimStart (s : string) : string :=
  match s with
  | EmptyString => EmptyString
  | String c s' => if isWhiteSpace c then trimStart s' else s
  end.

Fixpoint append_char (s : string) (c : ascii) : string :=
  match s with
  | EmptyString => String c EmptyString
  | String d s' => String d (append_char s' c)
  end.

Fixpoint reverse (s : string) : string :=
  match s with
  | EmptyString => EmptyString
  | String c s' => append_char (reverse s') c
  end.

Definition trimEnd (s : string) : string := reverse (trimStart (reverse s)).

(** Every character of the string satisfies [p]. *)
Fixpoint every (p : ascii -> bool) (s : string) : bool :=
  match s with
  | EmptyString => true
  | String c s' => p c && every p s'
  end.

(** [String.prototype.trim]. *)
Definition trim (s : string) : string := trimEnd (trimStart s).

(** [s.length] *)
Definition length (s : string) : Z := Z.of_nat (String.length s).

(** Truthiness of a string that may be [undefined]: only [undefined] and
    the empty string are falsy. *)
Definition truthy (s : option string) : bool :=
  match s with
  | None => false
  | Some EmptyString => false
  | Some _ => true
  end.

(** The string when it is truthy, as the branch of an [if (s)] sees it. *)
Definition given (s : option string) : option string :=
  if truthy s then s else None.

(** [a || b] on strings that may be [undefined]. *)
Definition or_else (a b : option string) : option string :=
  if truthy a then a else b.

(** [[0-9]] *)
Definition isDigit (c : ascii) : bool := (48 <=? code c) && (code c <=? 57).

(** Value of a digit in the given radix, if it is one. *)
Definition digit (radix : Z) (c : ascii) : option Z :=
  let n := code c in
  let v := if (48 <=? n) && (n <=? 57) then n - 48
           else if (97 <=? n) && (n <=? 122) then n - 87
           else if (65 <=? n) && (n <=? 90) then n - 55
           else radix in
  if v <? radix then Some v else None.

(** The longest prefix of digits, read in [radix]; [None] when the prefix
    is empty. [acc] carries the value read so far. *)
Fixpoint digits (radix : Z) (acc : option Z) (s : string) : option Z :=
  match s with
  | EmptyString => acc
  | String c s' =>
      match digit radix c with
      | Some v =>
          digits radix (Some (match acc with Some a => a * radix + v | None => v end)) s'
      | None => acc
      end
  end.

(** An optional sign in front of the digits. *)
Definition strip_sign (s : string) : Z * string :=
  match s with
  | String c s' =>
      if Ascii.eqb c "-" then (-1, s')
      else if Ascii.eqb c "+" then (1, s')
      else (1, s)
  | EmptyString => (1, s)
  end.

(** An optional [0x] or [0X] in front of the digits selects radix 16. *)
Definition strip_radix (s : string) : Z * string :=
  match s with
  | String c (String x s') =>
      if Ascii.eqb c "0" && (Ascii.eqb x "x" || Ascii.eqb x "X")
      then (16, s') else (10, s)
  | _ => (10, s)
  end.

(** [parseInt(s)] with no radix argument; [None] is [NaN]. Leading white
    space is skipped, then an optional sign, then an optional [0x]/[0X]
    prefix, then the longest prefix of digits is read; what follows the
    digits is ignored. *)
Definition parseInt (s : string) : option Z :=
  let '(sign, s) := strip_sign (trimStart s) in
  let '(radix, s) := strip_radix s in
  option_map (Z.mul sign) (digits radix None s).

(** The decimal digit of [m]. *)
Definition digit_char (m : Z) : ascii := ascii_of_nat (48 + Z.to_nat m).

(** The decimal digits of [n], most significant first, put before [acc];
    [fuel] bounds their number. *)
Fixpoint to_digits (fuel : nat) (n : Z) (acc : string) : string :=
  match fuel with
  | O => acc
  | S fuel' =>
      let acc' := String (digit_char (n mod 10)) acc in
      if n <? 10 then acc' else to_digits fuel' (n / 10) acc'
  end.

(** [String(n)] for an integer. *)
Definition toString (n : Z) : string :=
  if n <? 0
  then String "-" (to_digits (S (Z.to_nat (Z.log2 (- n)))) (- n) "")
  else to_digits (S (Z.to_nat (Z.log2 n))) n "".

End Js.

#[local] Set Warnings "-register-all".

(** JSON values, with [undefined] for a property that is missing: the
    request body as [express.json()] hands it over, and the responses. Of a
    number only whether it is zero matters here, so integers stand for
    them. *)
Inductive JsValue : Type :=
| JUndefined
| JNull
| JBool (b : bool)
| JNum (n : Z)
| JStr (s : string)
| JArr (items : list JsValue)
| JObj (fields : list (string * JsValue)).

(** Truthiness of a value ([!v] is its negation). *)
Definition truthy (v : JsValue) : bool :=
  match v with
  | JUndefined | JNull => false
  | JBool b => b
  | JNum n => negb (n =? 0)
  | JStr s => negb (String.eqb s "")
  | JArr _ | JObj _ => true
  end.

(** [typeof v === 'string'] *)
Definition is_string (v : JsValue) : bool :=
  match v with JStr _ => true | _ => false end.

(** [v.length] of a string value; only read after [is_string]. *)
Definition str_length (v : JsValue) : Z :=
  match v with JStr s => Js.length s | _ => 0 end.

(** Property lookup on an object: the first binding of the key. A key bound
    to [JUndefined] is dropped when the object is sent as JSON. *)
Fixpoint assoc (k : string) (fields : list (string * JsValue)) : JsValue :=
  match fields with
  | [] => JUndefined
  | (k', v) :: rest => if String.eqb k k' then v else assoc k rest
  end.

Definition get (k : string) (v : JsValue) : JsValue :=
  match v with
  | JObj fields => assoc k fields
  | _ => JUndefined
  end.

(** The object has the property, with a value that JSON keeps. *)
Definition has (k : string) (v : JsValue) : bool :=
  match get k v with JUndefined => false | _ => true end.

(** Exceptions a handler can meet. *)
Inductive Exn : Type :=
| TypeError (msg : string)
| Error (msg : string)
| StorageError.

(** ** Environment of the process *)

Record Env : Type := {
  DEFAULT_WRITE_CONSISTENCY : option string;
  DEFAULT_READ_CONSISTENCY : option string;
  USE_SOFT_ERRORS : option string
}.

(** ** The Cassandra side

    What the code imports from [cassandra-driver] and what the store does
    with a [timeuuid] clustering key. None of it is code of this repository,
    so it is an interface: the handlers are written against it. *)

Class Cassandra : Type := {
  (** [types.consistencies[key]]: property lookup on the driver's table of
      consistency levels; [None] when the table has no such property. *)
  consistencies : string -> option Z;
  (** [types.TimeUuid] *)
  TimeUuid : Type;
  (** [id.toString()] *)
  TimeUuid_toString : TimeUuid -> string;
  (** [types.TimeUuid.fromString(s)]; [None] when the driver throws. *)
  TimeUuid_fromString : string -> option TimeUuid;
  (** [id.getDate()], in milliseconds since the epoch. *)
  TimeUuid_getDate : TimeUuid -> Z;
  (** [date.toISOString()] *)
  Date_toISOString : Z -> string;
  (** The order of the store on [timeuuid] clustering keys, [true] when the
      first is strictly smaller. *)
  timeuuid_ltb : TimeUuid -> TimeUuid -> bool
}.

(** The order of the store is a strict total order. *)
Definition timeuuid_order `{Cassandra} : Prop :=
  (forall a, timeuuid_ltb a a = false) /\
  (forall a b c, timeuuid_ltb a b = true -> timeuuid_ltb b c = true ->
                 timeuuid_ltb a c = true) /\
  (forall a b, timeuuid_ltb a b = false -> timeuuid_ltb b a = false -> a = b).

(** The table [types.consistencies] of cassandra-driver: its own
    properties, which are spelled in camel case. The properties that every
    object inherits ([constructor], [toString], ...) are not listed. *)
Definition driver_consistencies : list (string * Z) :=
  [ ("any", 0); ("one", 1); ("two", 2); ("three", 3); ("quorum", 4);
    ("all", 5); ("localQuorum", 6); ("eachQuorum", 7); ("serial", 8);
    ("localSerial", 9); ("localOne", 10) ].

Fixpoint lookup (k : string) (table : list (string * Z)) : option Z :=
  match table with
  | [] => None
  | (k', v) :: rest => if String.eqb k k' then Some v else lookup k rest
  end.

(** ** validators.js *)

Definition ALLOWED_CONSISTENCIES : list string :=
  [ "ANY"; "ONE"; "TWO"; "THREE"; "QUORUM"; "ALL";
    "LOCAL_ONE"; "LOCAL_QUORUM" ].

(** [array.includes(s)] *)
Definition includes (l : list string) (s : string) : bool :=
  existsb (String.eqb s) l.

Record ConsistencyResult : Type := {
  value : option Z;
  warning : option string
}.

Section Validators.
Context `{Cassandra}.

Definition validateConsistency (env : Env) (consistency : option string)
  : ConsistencyResult :=
  let defaultConsistency :=
    match Js.or_else (DEFAULT_WRITE_CONSISTENCY env) (Some "ONE") with
    | Some d => d
    | None => "ONE"
    end in
  match consistency with
  | Some c =>
      if negb (Js.truthy consistency) then
        {| value := consistencies (Js.toLowerCase defaultConsistency);
           warning := None |}
      else if negb (includes ALLOWED_CONSISTENCIES (Js.toUpperCase c)) then
        {| value := consistencies (Js.toLowerCase defaultConsistency);
           warning := Some ("Invalid consistency level '" ++ c
                            ++ "', using default '" ++ defaultConsistency
                            ++ "'") |}
      else
        {| value := consistencies (Js.toLowerCase c); warning := None |}
  | None =>
      {| value := consistencies (Js.toLowerCase defaultConsistency);
         warning := None |}
  end.

End Validators.

(** The request body of [POST /api/messages]: the five properties the
    validator reads, [JUndefined] when the body has no such property. *)
Record PostBody : Type := {
  body_channel_id : JsValue;
  body_user_id : JsValue;
  body_content : JsValue;
  body_consistency : JsValue;
  body_client_msg_id : JsValue
}.

(** [data] of a successful validation of the body. *)
Record PostData : Type := {
  data_channel_id : string;
  data_user_id : string;
  data_content : string;
  data_consistency : option string;
  data_client_msg_id : option string
}.

(** What a validator returns: [{ valid: false, errors }] or
    [{ valid: true, errors: [], data }]. *)
Inductive Validation (A : Type) : Type :=
| Invalid (errors : list string)
| Valid (data : A).
Arguments Invalid {A} errors.
Arguments Valid {A} data.

(** A required string field: the two checks of the [if]/[else if] chain. *)
Definition check_required (name : string) (max : Z) (bound : string)
    (v : JsValue) : list string :=
  if negb (truthy v) || negb (is_string v) then
    [name ++ " is required and must be a string"]
  else if (str_length v <? 1) || (str_length v >? max) then
    [name ++ " must be between 1 and " ++ bound ++ " characters"]
  else [].

(** [v?.trim()]: [undefined] on [undefined] and [null], the trimmed string
    on a string, and a [TypeError] on any other value, which has no [trim]. *)
Definition optional_trim (name : string) (v : JsValue) : Exn + option string :=
  match v with
  | JUndefined | JNull => inr None
  | JStr s => inr (Some (Js.trim s))
  | _ => inl (TypeError (name ++ "?.trim is not a function"))
  end.

(** [v.trim()] of a field that passed [check_required]. *)
Definition string_of (v : JsValue) : string :=
  match v with JStr s => s | _ => "" end.

Definition validatePostMessage (body : PostBody) : Exn + Validation PostData :=
  let errors :=
    (check_required "channel_id" 100 "100" (body_channel_id body)
     ++ check_required "user_id" 100 "100" (body_user_id body)
     ++ check_required "content" 2000 "2000" (body_content body)
     ++ (if truthy (body_client_msg_id body)
            && (negb (is_string (body_client_msg_id body))
                || (str_length (body_client_msg_id body) <? 1)
                || (str_length (body_client_msg_id body) >? 100))
         then ["client_msg_id must be a string between 1 and 100 characters"]
         else []))%list in
  if (Z.of_nat (List.length errors) >? 0) then inr (Invalid errors)
  else
    match optional_trim "body.consistency" (body_consistency body) with
    | inl e => inl e
    | inr consistency =>
        match optional_trim "body.client_msg_id" (body_client_msg_id body) with
        | inl e => inl e
        | inr client_msg_id =>
            inr (Valid {| data_channel_id := Js.trim (string_of (body_channel_id body));
                          data_user_id := Js.trim (string_of (body_user_id body));
                          data_content := Js.trim (string_of (body_content body));
                          data_consistency := consistency;
                          data_client_msg_id := client_msg_id |})
        end
    end.

(** The query of [GET /api/channels/:channel_id/messages] as [types.ts]
    declares it: every parameter given at most once, its value a string.
    What Express hands over for a repeated or a bracketed key is
    [Raw.Query] below. *)
Record GetMessagesQuery : Type := {
  query_limit : option string;
  query_before : option string;
  query_after : option string;
  query_consistency : option string
}.

Record GetData : Type := {
  get_limit : Z;
  get_before : option string;
  get_after : option string;
  get_consistency : option string
}.

Definition is_hex (c : ascii) : bool :=
  let n := Js.code c in
  ((48 <=? n) && (n <=? 57)) || ((97 <=? n) && (n <=? 102))
  || ((65 <=? n) && (n <=? 70)).

Definition is_char (d : ascii) (c : ascii) : bool := Ascii.eqb c d.

(** [[1-5]] *)
Definition is_version (c : ascii) : bool :=
  (49 <=? Js.code c) && (Js.code c <=? 53).

(** [[89ab]] under the [i] flag *)
Definition is_variant (c : ascii) : bool :=
  existsb (Ascii.eqb c) ["8"; "9"; "a"; "b"; "A"; "B"]%char.

(** The character classes of
    [/^[0-9a-f]{8}-[0-9a-f]{4}-[1-5][0-9a-f]{3}-[89ab][0-9a-f]{3}-[0-9a-f]{12}$/i],
    one per position. *)
Definition uuidRegex : list (ascii -> bool) :=
  (repeat is_hex 8 ++ [is_char "-"] ++ repeat is_hex 4 ++ [is_char "-"]
   ++ [is_version] ++ repeat is_hex 3 ++ [is_char "-"]
   ++ [is_variant] ++ repeat is_hex 3 ++ [is_char "-"]
   ++ repeat is_hex 12)%list.

(** [regex.test(s)] for a regex that is a sequence of character classes
    anchored at both ends. *)
Fixpoint test (regex : list (ascii -> bool)) (s : string) : bool :=
  match regex, s with
  | [], EmptyString => true
  | p :: regex', String c s' => p c && test regex' s'
  | _, _ => false
  end.

(** [query.limit ? parseInt(query.limit) : 20]; [None] is [NaN]. *)
Definition limit_of (query : GetMessagesQuery) : option Z :=
  match Js.given (query_limit query) with
  | Some l => Js.parseInt l
  | None => Some 20
  end.

Definition validateGetMessages (query : GetMessagesQuery) : Validation GetData :=
  let limit := limit_of query in
  let errors :=
    ((match limit with
      | None => ["limit must be a number between 1 and 100"]
      | Some n => if (n <? 1) || (n >? 100)
                  then ["limit must be a number between 1 and 100"] else []
      end)
    ++ (if Js.truthy (query_before query) && Js.truthy (query_after query)
        then ["Cannot use both before and after parameters simultaneously"]
        else [])
    ++ (match Js.given (query_before query) with
        | Some b => if negb (test uuidRegex b)
                    then ["before parameter must be a valid UUID"] else []
        | None => []
        end)
    ++ (match Js.given (query_after query) with
        | Some a => if negb (test uuidRegex a)
                    then ["after parameter must be a valid UUID"] else []
        | None => []
        end))%list in
  if (Z.of_nat (List.length errors) >? 0) then Invalid errors
  else
    Valid {| get_limit := match limit with Some n => n | None => 0 end;
             get_before := query_before query;
             get_after := query_after query;
             get_consistency := query_consistency query |}.

(** ** Effects: a state and exception monad

    A computation takes the state, and returns a value or throws, with the
    state it leaves behind. *)

Inductive Outcome (A : Type) : Type :=
| Return (a : A)
| Throw (e : Exn).
Arguments Return {A} a.
Arguments Throw {A} e.

Definition M (S A : Type) : Type := S -> Outcome A * S.

Definition ret {S A} (a : A) : M S A := fun s => (Return a, s).

Definition throw {S A} (e : Exn) : M S A := fun s => (Throw e, s).

Definition bind {S A B} (m : M S A) (k : A -> M S B) : M S B :=
  fun s =>
    match m s with
    | (Return a, s') => k a s'
    | (Throw e, s') => (Throw e, s')
    end.

(** [try { m } catch (error) { h error }] *)
Definition catch {S A} (m : M S A) (h : Exn -> M S A) : M S A :=
  fun s =>
    match m s with
    | (Return a, s') => (Return a, s')
    | (Throw e, s') => h e s'
    end.

(** A pure step that may throw. *)
Definition lift {S A} (r : Exn + A) : M S A :=
  match r with
  | inl e => throw e
  | inr a => ret a
  end.

Notation "x <- m ;; k" := (bind m (fun x => k))
  (at level 61, m at next level, right associativity).
Notation "m ;;; k" := (bind m (fun _ => k))
  (at level 61, right associativity).

(** ** db.ts *)

Record HttpResponse : Type := {
  status : Z;
  body : JsValue
}.

Section Store.
Context `{Cassandra}.

(** A row of the table [messages], whose primary key is
    [((channel_id), message_id)] with clustering order [message_id DESC]. *)
Record Row : Type := {
  row_channel_id : string;
  row_message_id : TimeUuid;
  row_user_id : string;
  row_content : string;
  row_created_at : Z
}.

(** The restriction on [message_id] in the [WHERE] clause. *)
Inductive Bound : Type :=
| Unbounded
| Before (x : TimeUuid)
| After (x : TimeUuid).

(** The three statements of db.ts, with their parameters bound. *)
Inductive Statement : Type :=
| INSERT_messages (r : Row)
| INSERT_message_dedupe_IF_NOT_EXISTS (channel_id client_msg_id : string)
| SELECT_messages (channel_id : string) (bound : Bound) (limit : Z).

(** What [client.execute] resolves to: [rows], and for a conditional
    insert the column [[applied]] of the first row. *)
Record ResultSet : Type := {
  rows : list Row;
  applied : bool
}.

(** The database as the process sees it: whether the module variable
    [client] is set, whether the cluster serves a statement at a
    consistency level, the two tables, and the statements executed so
    far, oldest first. *)
Record Db : Type := {
  client : bool;
  serves : Statement -> option Z -> bool;
  messages : list Row;
  message_dedupe : list (string * string);
  executed : list (Statement * option Z)
}.

Definition timeuuid_eqb (a b : TimeUuid) : bool :=
  negb (timeuuid_ltb a b) && negb (timeuuid_ltb b a).

Definition same_key (a b : Row) : bool :=
  String.eqb (row_channel_id a) (row_channel_id b)
  && timeuuid_eqb (row_message_id a) (row_message_id b).

(** [INSERT] writes the row under its primary key. *)
Definition upsert (r : Row) (table : list Row) : list Row :=
  r :: filter (fun r' => negb (same_key r r')) table.

(** Rows of one partition are kept by descending [message_id]. *)
Fixpoint insert_desc (r : Row) (l : list Row) : list Row :=
  match l with
  | [] => [r]
  | x :: l' =>
      if timeuuid_ltb (row_message_id x) (row_message_id r)
      then r :: l
      else x :: insert_desc r l'
  end.

Definition clustering_order (l : list Row) : list Row :=
  fold_right insert_desc [] l.

Definition in_channel (channel_id : string) (r : Row) : bool :=
  String.eqb (row_channel_id r) channel_id.

(** [WHERE channel_id = ?], in clustering order. *)
Definition partition (channel_id : string) (table : list Row) : list Row :=
  clustering_order (filter (in_channel channel_id) table).

Definition in_bound (b : Bound) (r : Row) : bool :=
  match b with
  | Unbounded => true
  | Before x => timeuuid_ltb (row_message_id r) x
  | After x => timeuuid_ltb x (row_message_id r)
  end.

(** [SELECT ... WHERE channel_id = ? [AND message_id < ? | > ?] LIMIT ?] *)
Definition select (channel_id : string) (b : Bound) (limit : Z)
    (table : list Row) : list Row :=
  firstn (Z.to_nat limit) (filter (in_bound b) (partition channel_id table)).

Definition has_dedupe (channel_id client_msg_id : string)
    (table : list (string * string)) : bool :=
  existsb (fun k => String.eqb (fst k) channel_id
                    && String.eqb (snd k) client_msg_id) table.

Definition log (stmt : Statement) (consistency : option Z) (db : Db) : Db :=
  {| client := client db; serves := serves db; messages := messages db;
     message_dedupe := message_dedupe db;
     executed := (executed db ++ [(stmt, consistency)])%list |}.

(** [client.execute(query, params, { consistency, prepare: true })]: the
    statement reaches the cluster, which fails it when it cannot serve it
    at this level, and rejects a [LIMIT] that is not positive. *)
Definition execute (stmt : Statement) (consistency : option Z)
  : M Db ResultSet :=
  fun db =>
    let db := log stmt consistency db in
    if negb (serves db stmt consistency) then (Throw StorageError, db)
    else
      match stmt with
      | INSERT_messages r =>
          (Return {| rows := []; applied := true |},
           {| client := client db; serves := serves db;
              messages := upsert r (messages db);
              message_dedupe := message_dedupe db;
              executed := executed db |})
      | INSERT_message_dedupe_IF_NOT_EXISTS c k =>
          if has_dedupe c k (message_dedupe db)
          then (Return {| rows := []; applied := false |}, db)
          else (Return {| rows := []; applied := true |},
                {| client := client db; serves := serves db;
                   messages := messages db;
                   message_dedupe := (c, k) :: message_dedupe db;
                   executed := executed db |})
      | SELECT_messages c b limit =>
          if limit <=? 0 then (Throw StorageError, db)
          else (Return {| rows := select c b limit (messages db);
                          applied := true |}, db)
      end.

Definition toTimestamp (messageId : TimeUuid) : Z :=
  TimeUuid_getDate messageId.

Definition getClient : M Db unit :=
  fun db =>
    if client db then (Return tt, db)
    else (Throw (Error "Database not initialized"), db).

Definition insertMessage (channelId : string) (messageId : TimeUuid)
    (userId content : string) (createdAt : Z) (consistency : option Z)
  : M Db unit :=
  getClient ;;;
  execute (INSERT_messages {| row_channel_id := channelId;
                              row_message_id := messageId;
                              row_user_id := userId;
                              row_content := content;
                              row_created_at := createdAt |})
          consistency ;;;
  ret tt.

Definition checkDedupe (channelId clientMsgId : string)
    (consistency : option Z) : M Db bool :=
  getClient ;;;
  result <- execute (INSERT_message_dedupe_IF_NOT_EXISTS channelId clientMsgId)
                    consistency ;;
  ret (applied result).

(** [types.TimeUuid.fromString(s)] as a step of a computation. *)
Definition fromString (s : string) : M Db TimeUuid :=
  match TimeUuid_fromString s with
  | Some x => ret x
  | None => throw (Error "Invalid string representation of TimeUuid")
  end.

Definition getMessages (channelId : string) (limit : Z)
    (before after : option string) (consistency : option Z)
  : M Db (list Row) :=
  (* the default value of the parameter, taken when it is undefined *)
  let consistency :=
    match consistency with
    | None => consistencies "one"
    | Some _ => consistency
    end in
  getClient ;;;
  stmt <- match Js.given before, Js.given after with
          | Some b, _ =>
              x <- fromString b ;;
              ret (SELECT_messages channelId (Before x) limit)
          | None, Some a =>
              x <- fromString a ;;
              ret (SELECT_messages channelId (After x) limit)
          | None, None =>
              ret (SELECT_messages channelId Unbounded limit)
          end ;;
  result <- execute stmt consistency ;;
  ret (rows result).

(** ** index.ts *)

(** [process.env.USE_SOFT_ERRORS === 'true'] *)
Definition soft_errors (env : Env) : bool :=
  match USE_SOFT_ERRORS env with
  | Some v => String.eqb v "true"
  | None => false
  end.

Definition errorResponse (code message : string) (details : JsValue)
  : JsValue :=
  JObj [ ("ok", JBool false);
         ("error", JObj [ ("code", JStr code); ("message", JStr message);
                          ("details", details) ]) ].

(** [res.status(USE_SOFT_ERRORS ? 200 : code).json(error)] *)
Definition fail (env : Env) (code : Z) (error : JsValue) : HttpResponse :=
  {| status := if soft_errors env then 200 else code; body := error |}.

(** [res.json(response)] *)
Definition json (response : JsValue) : HttpResponse :=
  {| status := 200; body := response |}.

(** [if (consistencyResult.warning) response.warning = ...] *)
Definition with_warning (response : list (string * JsValue))
    (consistencyResult : ConsistencyResult) : JsValue :=
  match warning consistencyResult with
  | Some w =>
      if Js.truthy (Some w)
      then JObj (response ++ [("warning", JStr w)])%list
      else JObj response
  | None => JObj response
  end.

(** [app.post('/api/messages', ...)]. [nowId] is the identifier that
    [types.TimeUuid.now()] hands out when the handler asks for one. *)
Definition post_messages (env : Env) (nowId : TimeUuid) (req_body : PostBody)
  : M Db HttpResponse :=
  catch
    (validation <- lift (validatePostMessage req_body) ;;
     match validation with
     | Invalid errors =>
         ret (fail env 400
                (errorResponse "BAD_REQUEST" "Invalid input"
                   (JObj [("errors", JArr (map JStr errors))])))
     | Valid data =>
         let consistencyResult :=
           validateConsistency env (data_consistency data) in
         let writeConsistency := value consistencyResult in
         let accept : M Db HttpResponse :=
           let messageId := nowId in
           let createdAt := toTimestamp messageId in
           insertMessage (data_channel_id data) messageId
             (data_user_id data) (data_content data) createdAt
             writeConsistency ;;;
           ret (json (with_warning
                        [ ("ok", JBool true);
                          ("message_id", JStr (TimeUuid_toString messageId)) ]
                        consistencyResult)) in
         match Js.given (data_client_msg_id data) with
         | Some client_msg_id =>
             isUnique <- checkDedupe (data_channel_id data) client_msg_id
                           writeConsistency ;;
             if negb isUnique
             then ret (json (JObj [ ("ok", JBool true);
                                    ("deduped", JBool true) ]))
             else accept
         | None => accept
         end
     end)
    (fun error =>
       ret (fail env 500
              (errorResponse "INTERNAL" "Failed to post message" JUndefined))).

(** One item of the listing, as the handler renders a row. *)
Definition item (row : Row) : JsValue :=
  JObj [ ("channel_id", JStr (row_channel_id row));
         ("message_id", JStr (TimeUuid_toString (row_message_id row)));
         ("user_id", JStr (row_user_id row));
         ("content", JStr (row_content row));
         ("created_at", JStr (Date_toISOString (row_created_at row))) ].

(** [items.length > 0 ? items[items.length - 1].message_id : null] *)
Definition next_before (items : list JsValue) : JsValue :=
  if (Z.of_nat (List.length items) >? 0)
  then get "message_id" (nth (List.length items - 1) items JUndefined)
  else JNull.

(** [app.get('/api/channels/:channel_id/messages', ...)] *)
Definition get_channel_messages (env : Env) (channelId : string)
    (query : GetMessagesQuery) : M Db HttpResponse :=
  catch
    (if negb (Js.truthy (Some channelId)) || (Js.length channelId <? 1)
        || (Js.length channelId >? 100)
     then ret (fail env 400
                 (errorResponse "BAD_REQUEST" "Invalid channel_id" JUndefined))
     else
       match validateGetMessages query with
       | Invalid errors =>
           ret (fail env 400
                  (errorResponse "BAD_REQUEST" "Invalid query parameters"
                     (JObj [("errors", JArr (map JStr errors))])))
       | Valid data =>
           let consistencyResult :=
             validateConsistency env
               (Js.or_else (get_consistency data)
                           (DEFAULT_READ_CONSISTENCY env)) in
           let readConsistency := value consistencyResult in
           rows <- getMessages channelId (get_limit data) (get_before data)
                     (get_after data) readConsistency ;;
           let items := map item rows in
           let nextBefore := next_before items in
           ret (json (with_warning
                        [ ("ok", JBool true);
                          ("items", JArr items);
                          ("page", JObj [("next_before", nextBefore)]) ]
                        consistencyResult))
       end)
    (fun error =>
       ret (fail env 500
              (errorResponse "INTERNAL" "Failed to get messages" JUndefined))).

(** ** A client that pages through a channel

    The loop of the pagination tests, without their bound on the number of
    pages: the client asks for the first page without a cursor, then
    passes the [next_before] of each response as the [before] of the next
    request, and stops at the response whose [next_before] is [null]. It
    returns the [items] of every response, in the order they were fetched.
    It gives up, with [None], on a response that is not a listing and when
    [fuel] requests were not enough. *)
Fixpoint paginate (fuel : nat) (env : Env) (channelId : string)
    (limit : option string) (before : option string) (db : Db)
  : option (list (list JsValue)) * Db :=
  match fuel with
  | O => (None, db)
  | S fuel' =>
      match get_channel_messages env channelId
              {| query_limit := limit; query_before := before;
                 query_after := None; query_consistency := None |} db with
      | (Return response, db') =>
          match get "items" (body response),
                get "next_before" (get "page" (body response)) with
          | JArr items, JNull => (Some [items], db')
          | JArr items, JStr cursor =>
              match paginate fuel' env channelId limit (Some cursor) db' with
              | (Some pages, db'') => (Some (items :: pages), db'')
              | (None, db'') => (None, db'')
              end
          | _, _ => (None, db')
          end
      | (Throw _, db') => (None, db')
      end
  end.

End Store.

(** ** db.ts and index.ts: start-up and the other routes *)

(** The variables of the environment that [initializeDatabase] reads. *)
Record ScyllaEnv : Type := {
  SCYLLA_CONTACT_POINTS : option string;
  SCYLLA_DATACENTER : option string;
  SCYLLA_KEYSPACE : option string
}.

(** [s.split(sep)] for a separator of one character: the pieces between
    the separators, empty pieces included. *)
Fixpoint split (sep : ascii) (s : string) : list string :=
  match s with
  | EmptyString => [EmptyString]
  | String c s' =>
      if Ascii.eqb c sep then EmptyString :: split sep s'
      else match split sep s' with
           | piece :: pieces => String c piece :: pieces
           | [] => [String c EmptyString]
           end
  end.

(** [v || d] for a variable of the environment and a default. *)
Definition or_default (v : option string) (d : string) : string :=
  match Js.or_else v (Some d) with
  | Some s => s
  | None => d
  end.

(** The argument of [new Client(...)]. *)
Record ClientOptions : Type := {
  contactPoints : list string;
  localDataCenter : string;
  options_keyspace : string
}.

(** What [initializeDatabase] returns and the module variable [dbInfo] of
    index.ts holds. *)
Record DbInfo : Type := {
  dc : string;
  keyspace : string
}.

Definition client_options (env : ScyllaEnv) : ClientOptions :=
  {| contactPoints :=
       split "," (or_default (SCYLLA_CONTACT_POINTS env) "127.0.0.1");
     localDataCenter := or_default (SCYLLA_DATACENTER env) "datacenter1";
     options_keyspace := or_default (SCYLLA_KEYSPACE env) "chat" |}.

Section Lifecycle.
Context `{Cassandra}.

(** [initializeDatabase]: the module variable [client] is assigned, then
    the client connects; [connect] tells whether the cluster can be reached
    with these options, and a failure is thrown on. *)
Definition initializeDatabase (env : ScyllaEnv)
    (connect : ClientOptions -> bool) : M Db DbInfo :=
  fun db =>
    let options := client_options env in
    let db := {| client := true; serves := serves db;
                 messages := messages db;
                 message_dedupe := message_dedupe db;
                 executed := executed db |} in
    if connect options
    then (Return {| dc := localDataCenter options;
                    keyspace := options_keyspace options |}, db)
    else (Throw StorageError, db).

(** [prepareStatements] only writes to the console. *)
Definition prepareStatements : M Db unit := ret tt.

(** [start], up to [app.listen]: the value assigned to [dbInfo], or [None]
    when the process exits with status 1. *)
Definition start (env : ScyllaEnv) (connect : ClientOptions -> bool)
    (db : Db) : option DbInfo * Db :=
  match (dbInfo <- initializeDatabase env connect ;;
         prepareStatements ;;;
         ret dbInfo) db with
  | (Return dbInfo, db') => (Some dbInfo, db')
  | (Throw _, db') => (None, db')
  end.

(** [app.get('/health', ...)]; [dbInfo] is [None] until [start] has
    assigned it. *)
Definition health (dbInfo : option DbInfo) : HttpResponse :=
  match dbInfo with
  | None =>
      {| status := 503;
         body := errorResponse "SERVICE_UNAVAILABLE"
                   "Database not initialized" JUndefined |}
  | Some info =>
      json (JObj [ ("ok", JBool true); ("dc", JStr (dc info));
                   ("keyspace", JStr (keyspace info)) ])
  end.

(** The 404 handler and the global error handler. *)
Definition not_found (env : Env) : HttpResponse :=
  fail env 404 (errorResponse "NOT_FOUND" "Endpoint not found" JUndefined).

Definition unhandled_error (env : Env) : HttpResponse :=
  fail env 500 (errorResponse "INTERNAL" "Internal server error" JUndefined).

End Lifecycle.

(** ** validators.js, db.ts and index.ts on the query that Express hands over

    [req.query] is made by the query parser of Express: the value of a key
    that is given once is a string, that of a repeated key ([?a=1&a=2]) an
    array, and that of a bracketed key ([?a[b]=1]) an object.
    [GetMessagesQuery] above is the query of the documented interface,
    whose values are strings. [Raw] is the same code on any value: where
    the code needs a string, an array or an object is converted as the
    language converts it, or the call throws; on a query of strings the
    two agree ([raw_query]). *)

Inductive QueryValue : Type :=
| QString (s : string)
| QArray (items : list QueryValue)
| QObject (fields : list (string * QueryValue)).

Module Raw.

Record Query : Type := {
  query_limit : option QueryValue;
  query_before : option QueryValue;
  query_after : option QueryValue;
  query_consistency : option QueryValue
}.

Record Data : Type := {
  get_limit : Z;
  get_before : option QueryValue;
  get_after : option QueryValue;
  get_consistency : option QueryValue
}.

(** Truthiness: only [undefined] and the empty string are falsy; arrays
    and objects are truthy. *)
Definition truthy (v : option QueryValue) : bool :=
  match v with
  | None => false
  | Some (QString s) => Js.truthy (Some s)
  | Some _ => true
  end.

Definition given (v : option QueryValue) : option QueryValue :=
  if truthy v then v else None.

Definition has_own (k : string) (fields : list (string * QueryValue)) : bool :=
  existsb (fun kv => String.eqb (fst kv) k) fields.

(** The conversion to a string that [parseInt] and [RegExp.prototype.test]
    apply to their argument: an array is its elements joined by commas;
    an object is [[object Object]], unless it has a property [toString]
    of its own, which is then not a function, and the conversion throws. *)
Fixpoint ToString (v : QueryValue) : Exn + string :=
  match v with
  | QString s => inr s
  | QArray items =>
      let fix elements (items : list QueryValue) : Exn + list string :=
        match items with
        | [] => inr []
        | item :: items' =>
            match ToString item with
            | inl e => inl e
            | inr s =>
                match elements items' with
                | inl e => inl e
                | inr pieces => inr (s :: pieces)
                end
            end
        end in
      match elements items with
      | inl e => inl e
      | inr pieces => inr (String.concat "," pieces)
      end
  | QObject fields =>
      if has_own "toString" fields
      then inl (TypeError "Cannot convert object to primitive value")
      else inr "[object Object]"
  end.

(** [query.limit ? parseInt(query.limit) : 20] *)
Definition limit_of (query : Query) : Exn + option Z :=
  match given (query_limit query) with
  | Some l =>
      match ToString l with
      | inl e => inl e
      | inr s => inr (Js.parseInt s)
      end
  | None => inr (Some 20)
  end.

(** [if (cursor && !uuidRegex.test(cursor)) errors.push(message)] *)
Definition check_cursor (cursor : option QueryValue) (message : string)
  : Exn + list string :=
  match given cursor with
  | Some c =>
      match ToString c with
      | inl e => inl e
      | inr s => inr (if negb (test uuidRegex s) then [message] else [])
      end
  | None => inr []
  end.

Definition validateGetMessages (query : Query) : Exn + Validation Data :=
  match limit_of query with
  | inl e => inl e
  | inr limit =>
      match check_cursor (query_before query)
              "before parameter must be a valid UUID" with
      | inl e => inl e
      | inr before_errors =>
          match check_cursor (query_after query)
                  "after parameter must be a valid UUID" with
          | inl e => inl e
          | inr after_errors =>
              let errors :=
                ((match limit with
                  | None => ["limit must be a number between 1 and 100"]
                  | Some n =>
                      if (n <? 1) || (n >? 100)
                      then ["limit must be a number between 1 and 100"]
                      else []
                  end)
                 ++ (if truthy (query_before query)
                        && truthy (query_after query)
                     then ["Cannot use both before and after parameters simultaneously"]
                     else [])
                 ++ before_errors ++ after_errors)%list in
              inr (if (Z.of_nat (List.length errors) >? 0)
                   then Invalid errors
                   else
                     Valid {| get_limit := match limit with
                                           | Some n => n
                                           | None => 0
                                           end;
                              get_before := query_before query;
                              get_after := query_after query;
                              get_consistency := query_consistency query |})
          end
      end
  end.

(** [consistency || process.env.DEFAULT_READ_CONSISTENCY] *)
Definition or_else (a : option QueryValue) (b : option string)
  : option QueryValue :=
  if truthy a then a else option_map QString b.

Section Handlers.
Context `{Cassandra}.

(** [validateConsistency] on what the listing passes to it: on a string
    and on [undefined] it is [validateConsistency] above; on an array or an
    object, which are truthy, [consistency.toUpperCase()] throws. *)
Definition validateConsistency (env : Env) (consistency : option QueryValue)
  : Exn + ConsistencyResult :=
  match consistency with
  | None => inr (validateConsistency env None)
  | Some (QString s) => inr (validateConsistency env (Some s))
  | Some _ => inl (TypeError "consistency.toUpperCase is not a function")
  end.

(** [types.TimeUuid.fromString(v)]: the driver throws on a value that is
    not a string, and reads a string as [fromString] above does. *)
Definition fromString (v : QueryValue) : M Db TimeUuid :=
  match v with
  | QString s => fromString s
  | _ => throw (Error "Invalid string representation of Uuid")
  end.

Definition getMessages (channelId : string) (limit : Z)
    (before after : option QueryValue) (consistency : option Z)
  : M Db (list Row) :=
  let consistency :=
    match consistency with
    | None => consistencies "one"
    | Some _ => consistency
    end in
  getClient ;;;
  stmt <- match given before, given after with
          | Some b, _ =>
              x <- fromString b ;;
              ret (SELECT_messages channelId (Before x) limit)
          | None, Some a =>
              x <- fromString a ;;
              ret (SELECT_messages channelId (After x) limit)
          | None, None =>
              ret (SELECT_messages channelId Unbounded limit)
          end ;;
  result <- execute stmt consistency ;;
  ret (rows result).

(** [app.get('/api/channels/:channel_id/messages', ...)] *)
Definition get_channel_messages (env : Env) (channelId : string)
    (query : Query) : M Db HttpResponse :=
  catch
    (if negb (Js.truthy (Some channelId)) || (Js.length channelId <? 1)
        || (Js.length channelId >? 100)
     then ret (fail env 400
                 (errorResponse "BAD_REQUEST" "Invalid channel_id" JUndefined))
     else
       validation <- lift (validateGetMessages query) ;;
       match validation with
       | Invalid errors =>
           ret (fail env 400
                  (errorResponse "BAD_REQUEST" "Invalid query parameters"
                     (JObj [("errors", JArr (map JStr errors))])))
       | Valid data =>
           consistencyResult <-
             lift (validateConsistency env
                     (or_else (get_consistency data)
                              (DEFAULT_READ_CONSISTENCY env))) ;;
           let readConsistency := value consistencyResult in
           rows <- getMessages channelId (get_limit data) (get_before data)
                     (get_after data) readConsistency ;;
           let items := map item rows in
           let nextBefore := next_before items in
           ret (json (with_warning
                        [ ("ok", JBool true);
                          ("items", JArr items);
                          ("page", JObj [("next_before", nextBefore)]) ]
                        consistencyResult))
       end)
    (fun error =>
       ret (fail env 500
              (errorResponse "INTERNAL" "Failed to get messages" JUndefined))).

End Handlers.

End Raw.

(** A query of the documented interface, as Express hands it over. *)
Definition raw_query (query : GetMessagesQuery) : Raw.Query :=
  {| Raw.query_limit := option_map QString (query_limit query);
     Raw.query_before := option_map QString (query_before query);
     Raw.query_after := option_map QString (query_after query);
     Raw.query_consistency := option_map QString (query_consistency query) |}.

(** ** An instance to run the handlers on

    The table of consistency levels is the driver's. The identifiers are the
    version 1 UUIDs whose clock sequence and node are zero and whose
    timestamp fits the first group: [n] stands for the identifier with
    timestamp [n], in units of 100 ns since 1582-10-15. The store orders
    [timeuuid] values by timestamp first, which on these is the order of
    [n]. [fromString] reads the first group of a string of 36 characters
    and does not look at the rest: it is the driver's on the identifiers
    above, on which the properties use it. *)

Module Reference.

Definition hex_digit (n : Z) : ascii :=
  nth (Z.to_nat n) (list_ascii_of_string "0123456789abcdef") "0"%char.

(** [n] in hexadecimal, on [width] digits. *)
Fixpoint hex (width : nat) (n : Z) : string :=
  match width with
  | O => ""
  | S w => Js.append_char (hex w (n / 16)) (hex_digit (n mod 16))
  end.

Fixpoint decimal (width : nat) (n : Z) : string :=
  match width with
  | O => ""
  | S w => Js.append_char (decimal w (n / 10)) (hex_digit (n mod 10))
  end.

Definition toString (n : Z) : string :=
  hex 8 n ++ "-0000-1000-8000-000000000000".

Definition fromString (s : string) : option Z :=
  if (String.length s =? 36)%nat
  then Js.digits 16 None (substring 0 8 s)
  else None.

(** Milliseconds between 1582-10-15 and 1970-01-01. *)
Definition gregorian_offset : Z := 12219292800000.

Definition getDate (n : Z) : Z := n / 10000 - gregorian_offset.

(** The civil date of a day number counted from 1970-01-01. *)
Definition civil (days : Z) : Z * Z * Z :=
  let z := days + 719468 in
  let era := z / 146097 in
  let doe := z - era * 146097 in
  let yoe := (doe - doe / 1460 + doe / 36524 - doe / 146096) / 365 in
  let doy := doe - (365 * yoe + yoe / 4 - yoe / 100) in
  let mp := (5 * doy + 2) / 153 in
  let d := doy - (153 * mp + 2) / 5 + 1 in
  let m := if mp <? 10 then mp + 3 else mp - 9 in
  let y := yoe + era * 400 + (if m <=? 2 then 1 else 0) in
  (y, m, d).

(** [YYYY-MM-DDTHH:mm:ss.sssZ], for the years 0 to 9999. *)
Definition toISOString (ms : Z) : string :=
  let '(y, m, d) := civil (ms / 86400000) in
  let t := ms mod 86400000 in
  decimal 4 y ++ "-" ++ decimal 2 m ++ "-" ++ decimal 2 d ++ "T"
  ++ decimal 2 (t / 3600000) ++ ":" ++ decimal 2 (t / 60000 mod 60) ++ ":"
  ++ decimal 2 (t / 1000 mod 60) ++ "." ++ decimal 3 (t mod 1000) ++ "Z".

#[export] Instance cassandra : Cassandra := {|
  consistencies := fun key => lookup key driver_consistencies;
  TimeUuid := Z;
  TimeUuid_toString := toString;
  TimeUuid_fromString := fromString;
  TimeUuid_getDate := getDate;
  Date_toISOString := toISOString;
  timeuuid_ltb := Z.ltb
|}.

Definition env : Env :=
  {| DEFAULT_WRITE_CONSISTENCY := Some "QUORUM";
     DEFAULT_READ_CONSISTENCY := Some "ONE";
     USE_SOFT_ERRORS := None |}.

Definition message (channel_id : string) (n : Z) (content : string) : Row :=
  {| row_channel_id := channel_id; row_message_id := n;
     row_user_id := "u1"; row_content := content;
     row_created_at := getDate n |}.

(** A connected store whose cluster serves every statement. *)
Definition store (table : list Row) (dedupe : list (string * string)) : Db :=
  {| client := true; serves := fun _ _ => true; messages := table;
     message_dedupe := dedupe; executed := [] |}.

(** Five messages of channel [c2] and one of channel [c1], as stored. *)
Definition table : list Row :=
  [ message "c2" 30 "third"; message "c2" 10 "first";
    message "c1" 25 "other"; message "c2" 50 "fifth";
    message "c2" 20 "second"; message "c2" 40 "fourth" ].

Definition post (channel_id content : string) (consistency client_msg_id : JsValue)
  : PostBody :=
  {| body_channel_id := JStr channel_id; body_user_id := JStr "u1";
     body_content := JStr content; body_consistency := consistency;
     body_client_msg_id := client_msg_id |}.

Definition listing (limit before after consistency : option string)
  : GetMessagesQuery :=
  {| query_limit := limit; query_before := before; query_after := after;
     query_consistency := consistency |}.

(** A store before [initializeDatabase] has run. *)
Definition unconnected : Db :=
  {| client := false; serves := fun _ _ => true; messages := table;
     message_dedupe := []; executed := [] |}.

(** A connected store whose cluster serves the conditional insert of a
    key but fails every insert of a message. *)
Definition store_refusing_messages : Db :=
  {| client := true;
     serves := fun stmt _ => match stmt with
                             | INSERT_messages _ => false
                             | _ => true
                             end;
     messages := table; message_dedupe := []; executed := [] |}.

Definition soft_env : Env :=
  {| DEFAULT_WRITE_CONSISTENCY := None; DEFAULT_READ_CONSISTENCY := None;
     USE_SOFT_ERRORS := Some "true" |}.

(** No variable of the connection is set. *)
Definition scylla_env : ScyllaEnv :=
  {| SCYLLA_CONTACT_POINTS := None; SCYLLA_DATACENTER := None;
     SCYLLA_KEYSPACE := None |}.

(** The data that the validator makes of [post channel_id content
    undefined client_msg_id] when nothing is to be trimmed. *)
Definition data (channel_id content : string) (client_msg_id : option string)
  : PostData :=
  {| data_channel_id := channel_id; data_user_id := "u1";
     data_content := content; data_consistency := None;
     data_client_msg_id := client_msg_id |}.

(** [n] spaces. *)
Definition blanks (n : nat) : string :=
  string_of_list_ascii (repeat " "%char n).

End Reference.

(** * Vocabulary of the properties *)

Section Vocabulary.
Context `{Cassandra}.

(** The write default of the process: [DEFAULT_WRITE_CONSISTENCY || 'ONE']. *)
Definition default_write (env : Env) : string :=
  match Js.or_else (DEFAULT_WRITE_CONSISTENCY env) (Some "ONE") with
  | Some d => d
  | None => "ONE"
  end.

(** A token is recognized when its upper-case form is one of the eight. *)
Definition recognized (c : string) : bool :=
  includes ALLOWED_CONSISTENCIES (Js.toUpperCase c).

(** The three shapes of a response of [post_messages]. *)
Inductive post_shape (env : Env) (nowId : TimeUuid) : HttpResponse -> Prop :=
| shape_error (code : Z) (e : JsValue) :
    post_shape env nowId
      (fail env code (JObj [("ok", JBool false); ("error", e)]))
| shape_deduped :
    post_shape env nowId
      (json (JObj [("ok", JBool true); ("deduped", JBool true)]))
| shape_accepted (r : ConsistencyResult) :
    post_shape env nowId
      (json (with_warning
               [ ("ok", JBool true);
                 ("message_id", JStr (TimeUuid_toString nowId)) ] r)).

(** The store is connected and the cluster serves every statement. *)
Definition available (db : Db) : Prop :=
  client db = true /\ forall stmt level, serves db stmt level = true.

(** The response to an accepted message, and the row it stores. *)
Definition accepted_response (env : Env) (nowId : TimeUuid) (data : PostData)
  : HttpResponse :=
  {| status := 200;
     body := with_warning
               [ ("ok", JBool true);
                 ("message_id", JStr (TimeUuid_toString nowId)) ]
               (validateConsistency env (data_consistency data)) |}.

Definition stored_row (nowId : TimeUuid) (data : PostData) : Row :=
  {| row_channel_id := data_channel_id data;
     row_message_id := nowId;
     row_user_id := data_user_id data;
     row_content := data_content data;
     row_created_at := toTimestamp nowId |}.

(** The client key of the request, if it has one, was not seen before. *)
Definition fresh_key (data : PostData) (db : Db) : Prop :=
  forall k, Js.given (data_client_msg_id data) = Some k ->
            has_dedupe (data_channel_id data) k (message_dedupe db) = false.

(** A field of the body that is a string or is missing. *)
Definition field (o : option string) : JsValue :=
  match o with
  | Some s => JStr s
  | None => JUndefined
  end.

(** The reasons for which the validator turns a listing down. *)
Definition limit_out_of_range (query : GetMessagesQuery) : Prop :=
  match limit_of query with
  | None => True
  | Some n => n < 1 \/ 100 < n
  end.

Definition both_cursors (query : GetMessagesQuery) : Prop :=
  Js.truthy (query_before query) = true
  /\ Js.truthy (query_after query) = true.

Definition malformed (cursor : option string) : Prop :=
  exists s, Js.given cursor = Some s /\ test uuidRegex s = false.

Definition rejected (query : GetMessagesQuery) : Prop :=
  limit_out_of_range query \/ both_cursors query
  \/ malformed (query_before query) \/ malformed (query_after query).

(** [a] comes before [b] in the clustering order: its identifier is the
    greater one. *)
Definition newer (a b : Row) : Prop :=
  timeuuid_ltb (row_message_id b) (row_message_id a) = true.

(** Strictly descending [message_id]. *)
Definition descending (l : list Row) : Prop := StronglySorted newer l.

(** The primary key of [messages]: no two rows share channel and
    identifier. *)
Definition primary_key (table : list Row) : Prop :=
  NoDup (map (fun r => (row_channel_id r, row_message_id r)) table).

(** An identifier that prints as the validator wants it and that the
    driver reads back, as the identifiers of version 1 that the driver
    hands out do. *)
Definition wellformed (x : TimeUuid) : Prop :=
  TimeUuid_fromString (TimeUuid_toString x) = Some x
  /\ test uuidRegex (TimeUuid_toString x) = true.

(** The [before] of a request and the bound it stands for: none at first,
    then the identifier printed in the previous [next_before]. *)
Inductive cursor_of : option string -> Bound -> Prop :=
| cursor_first : cursor_of None Unbounded
| cursor_next (x : TimeUuid) :
    wellformed x -> cursor_of (Some (TimeUuid_toString x)) (Before x).

(** The read with [after = x] in the words of the specification: of the
    entries above [x], the [limit] nearest to [x], taken in ascending order
    and rendered newest first. *)
Definition spec_read_after (channel_id : string) (limit : Z) (x : TimeUuid)
    (table : list Row) : list Row :=
  rev (firstn (Z.to_nat limit)
         (filter (in_bound (After x)) (rev (partition channel_id table)))).

End Vocabulary.

(** * Vocabulary of the further properties *)

Section Vocabulary2.
Context `{Cassandra}.

(** The errors that [validatePostMessage] collects. *)
Definition post_errors (body : PostBody) : list string :=
  (check_required "channel_id" 100 "100" (body_channel_id body)
   ++ check_required "user_id" 100 "100" (body_user_id body)
   ++ check_required "content" 2000 "2000" (body_content body)
   ++ (if truthy (body_client_msg_id body)
          && (negb (is_string (body_client_msg_id body))
              || (str_length (body_client_msg_id body) <? 1)
              || (str_length (body_client_msg_id body) >? 100))
       then ["client_msg_id must be a string between 1 and 100 characters"]
       else []))%list.

(** The response to a body that the validator turns down. *)
Definition bad_request (env : Env) (errors : list string) : HttpResponse :=
  fail env 400
    (errorResponse "BAD_REQUEST" "Invalid input"
       (JObj [("errors", JArr (map JStr errors))])).

(** The responses of the two handlers when something was thrown. *)
Definition post_failed (env : Env) : HttpResponse :=
  fail env 500 (errorResponse "INTERNAL" "Failed to post message" JUndefined).

Definition get_failed (env : Env) : HttpResponse :=
  fail env 500 (errorResponse "INTERNAL" "Failed to get messages" JUndefined).

Definition deduplicated : HttpResponse :=
  json (JObj [("ok", JBool true); ("deduped", JBool true)]).

(** A required field is missing: absent, falsy or not a string. *)
Definition missing (v : JsValue) : Prop :=
  truthy v = false \/ is_string v = false.

(** A string field is longer than [max]. *)
Definition too_long (max : Z) (v : JsValue) : Prop :=
  exists s, v = JStr s /\ max < Js.length s.

(** A value on which [?.trim()] throws: neither [undefined] nor [null],
    and not a string. *)
Definition untrimmable (v : JsValue) : Prop :=
  v <> JUndefined /\ v <> JNull /\ is_string v = false.

(** The responses of the listing: to a channel of the wrong length, to a
    query that the validator turns down, and a page of rows. *)
Definition bad_channel (env : Env) : HttpResponse :=
  fail env 400 (errorResponse "BAD_REQUEST" "Invalid channel_id" JUndefined).

Definition bad_query (env : Env) (errors : list string) : HttpResponse :=
  fail env 400
    (errorResponse "BAD_REQUEST" "Invalid query parameters"
       (JObj [("errors", JArr (map JStr errors))])).

Definition listing (rows : list Row) (consistencyResult : ConsistencyResult)
  : HttpResponse :=
  json (with_warning
          [ ("ok", JBool true);
            ("items", JArr (map item rows));
            ("page", JObj [("next_before", next_before (map item rows))]) ]
          consistencyResult).

(** The level at which a listing reads. *)
Definition read_level (env : Env) (data : GetData) : ConsistencyResult :=
  validateConsistency env
    (Js.or_else (get_consistency data) (DEFAULT_READ_CONSISTENCY env)).

(** The bound that the cursors of a listing stand for; none when the
    driver does not read the cursor. *)
Definition bound_of (before after : option string) : option Bound :=
  match Js.given before, Js.given after with
  | Some b, _ => option_map Before (TimeUuid_fromString b)
  | None, Some a => option_map After (TimeUuid_fromString a)
  | None, None => Some Unbounded
  end.

(** A statement that writes. *)
Definition is_insert (stmt : Statement) : bool :=
  match stmt with
  | SELECT_messages _ _ _ => false
  | _ => true
  end.

(** A request to one of the two endpoints, and the state after a
    sequence of requests handled one after the other. *)
Inductive Request : Type :=
| POST_messages (nowId : TimeUuid) (body : PostBody)
| GET_messages (channelId : string) (query : GetMessagesQuery).

Definition handle (env : Env) (request : Request) : M Db HttpResponse :=
  match request with
  | POST_messages nowId body => post_messages env nowId body
  | GET_messages channelId query => get_channel_messages env channelId query
  end.

Fixpoint serve (env : Env) (requests : list Request) (db : Db) : Db :=
  match requests with
  | [] => db
  | request :: requests' => serve env requests' (snd (handle env request db))
  end.

(** The channel that a statement names. *)
Definition statement_channel (stmt : Statement) : string :=
  match stmt with
  | INSERT_messages r => row_channel_id r
  | INSERT_message_dedupe_IF_NOT_EXISTS channel_id _ => channel_id
  | SELECT_messages channel_id _ _ => channel_id
  end.

(** ** The limit in the words of the specification

    The specification asks that [limit] be an integer in [1,100]. A
    string is an integer when it is an optional sign followed by decimal
    digits and nothing else; [integer_of] is its value. *)
Definition integer_of (s : string) : option Z :=
  let '(sign, d) := Js.strip_sign s in
  if negb (String.eqb d "") && Js.every Js.isDigit d
  then option_map (Z.mul sign) (Js.digits 10 None d)
  else None.

(** A limit is supplied and is not an integer in [1,100]. *)
Definition limit_not_integer_in_range (query : GetMessagesQuery) : Prop :=
  exists l, Js.given (query_limit query) = Some l
            /\ ~ (exists n, integer_of l = Some n /\ 1 <= n <= 100).

(** The ValidationErrors of the list operation, as the specification
    names them. *)
Definition spec_validation_error (query : GetMessagesQuery) : Prop :=
  limit_not_integer_in_range query \/ both_cursors query
  \/ malformed (query_before query) \/ malformed (query_after query).

(** ** The bounds of a message in the words of the specification *)

(** A field is a string whose length, as sent, is between 1 and [max]. *)
Definition within_bounds (max : Z) (v : JsValue) : Prop :=
  exists s, v = JStr s /\ 1 <= Js.length s <= max.

(** A body breaks the bounds when a required field is not within its
    bound, or a client key is given and is not within its bound. *)
Definition out_of_bounds (body : PostBody) : Prop :=
  ~ within_bounds 100 (body_channel_id body)
  \/ ~ within_bounds 100 (body_user_id body)
  \/ ~ within_bounds 2000 (body_content body)
  \/ (truthy (body_client_msg_id body) = true
      /\ ~ within_bounds 100 (body_client_msg_id body)).

(** ** The listing on the query that Express hands over *)

Definition raw_data (data : GetData) : Raw.Data :=
  {| Raw.get_limit := get_limit data;
     Raw.get_before := option_map QString (get_before data);
     Raw.get_after := option_map QString (get_after data);
     Raw.get_consistency := option_map QString (get_consistency data) |}.

(** The level at which a listing reads, when the token of the request is
    a string or is absent; an exception otherwise. *)
Definition raw_read_level (env : Env) (data : Raw.Data)
  : Exn + ConsistencyResult :=
  Raw.validateConsistency env
    (Raw.or_else (Raw.get_consistency data) (DEFAULT_READ_CONSISTENCY env)).

(** The bound that the cursors of a listing stand for; none when the
    cursor in force is not a string or the driver does not read it. *)
Definition raw_bound_of (before after : option QueryValue) : option Bound :=
  match Raw.given before, Raw.given after with
  | Some (QString b), _ => option_map Before (TimeUuid_fromString b)
  | Some _, _ => None
  | None, Some (QString a) => option_map After (TimeUuid_fromString a)
  | None, Some _ => None
  | None, None => Some Unbounded
  end.

End Vocabulary2.

(** * A sequence of requests on the reference instance *)

Module Scenario.

(** A listing of channel [c2], then a message for it. *)
Definition requests : list (Request (H := Reference.cassandra)) :=
  [ GET_messages (H := Reference.cassandra) "c2"
      (Reference.listing None None None None);
    POST_messages (H := Reference.cassandra) 70
      (Reference.post "c2" "hi" JUndefined (JStr "k2")) ].

End Scenario.

(** * Properties *)

(** ** Strings *)

Module JsFacts.

Lemma trimStart_blank (s : string) :
  Js.every Js.isWhiteSpace s = true -> Js.trimStart s = "".
Proof.
  induction s as [|c s IH]; cbn; [reflexivity|].
  intros E. apply andb_true_iff in E as [Ec Es].
  rewrite Ec. exact (IH Es).
Qed.

Lemma trim_blank (s : string) :
  Js.every Js.isWhiteSpace s = true -> Js.trim s = "".
Proof.
  intros E. unfold Js.trim. rewrite (trimStart_blank s E). reflexivity.
Qed.

Lemma length_pos_truthy (s : string) :
  1 <= Js.length s -> truthy (JStr s) = true.
Proof.
  destruct s; cbn; [unfold Js.length; cbn; lia | reflexivity].
Qed.

Lemma digit_char_spec (m : Z) :
  0 <= m < 10 ->
  Js.isDigit (Js.digit_char m) = true
  /\ Js.digit 10 (Js.digit_char m) = Some m.
Proof.
  intros B.
  assert (D : m = 0 \/ m = 1 \/ m = 2 \/ m = 3 \/ m = 4 \/ m = 5 \/ m = 6
              \/ m = 7 \/ m = 8 \/ m = 9) by lia.
  repeat (destruct D as [->|D]); [..|subst m]; split; reflexivity.
Qed.

(** A digit is not white space, nor a sign, nor the mark of radix 16. *)
Lemma isDigit_plain (c : ascii) :
  Js.isDigit c = true ->
  Js.isWhiteSpace c = false /\ Ascii.eqb c "-" = false
  /\ Ascii.eqb c "+" = false /\ Ascii.eqb c "x" = false
  /\ Ascii.eqb c "X" = false.
Proof.
  destruct c as [[] [] [] [] [] [] [] []]; intros D; vm_compute in D;
    try discriminate D; repeat split; reflexivity.
Qed.

Lemma to_digits_cons (fuel : nat) (n : Z) (c : ascii) (rest : string) :
  exists c' rest', Js.to_digits fuel n (String c rest) = String c' rest'.
Proof.
  revert n c rest. induction fuel as [|fuel IH]; intros n c rest; cbn.
  - eauto.
  - destruct (n <? 10); [eauto | apply IH].
Qed.

Lemma to_digits_every (fuel : nat) (n : Z) (acc : string) :
  Js.every Js.isDigit acc = true ->
  Js.every Js.isDigit (Js.to_digits fuel n acc) = true.
Proof.
  revert n acc. induction fuel as [|fuel IH]; intros n acc A; cbn;
    [exact A|].
  assert (E : Js.every Js.isDigit (String (Js.digit_char (n mod 10)) acc)
              = true).
  { cbn [Js.every].
    rewrite (proj1 (digit_char_spec (n mod 10)
                      (Z.mod_pos_bound n 10 eq_refl))). exact A. }
  destruct (n <? 10); [exact E | exact (IH _ _ E)].
Qed.

(** Reading the digits written for [n] yields [n]. *)
Lemma digits_to_digits (fuel : nat) (n : Z) (acc : string) :
  0 <= n < 10 ^ Z.of_nat (S fuel) ->
  Js.digits 10 None (Js.to_digits (S fuel) n acc)
  = Js.digits 10 (Some n) acc.
Proof.
  revert n acc. induction fuel as [|fuel IH]; intros n acc B;
    cbn [Js.to_digits].
  - destruct (Z.ltb_spec n 10) as [L|L].
    + cbn [Js.digits].
      rewrite (proj2 (digit_char_spec (n mod 10)
                        (Z.mod_pos_bound n 10 eq_refl))).
      rewrite Z.mod_small by lia. reflexivity.
    + change (10 ^ Z.of_nat 1) with 10 in B. lia.
  - destruct (Z.ltb_spec n 10) as [L|L].
    + cbn [Js.digits].
      rewrite (proj2 (digit_char_spec (n mod 10)
                        (Z.mod_pos_bound n 10 eq_refl))).
      rewrite Z.mod_small by lia. reflexivity.
    + change (if n / 10 <? 10
              then String (Js.digit_char (n / 10 mod 10))
                     (String (Js.digit_char (n mod 10)) acc)
              else Js.to_digits fuel (n / 10 / 10)
                     (String (Js.digit_char (n / 10 mod 10))
                        (String (Js.digit_char (n mod 10)) acc)))
        with (Js.to_digits (S fuel) (n / 10)
                (String (Js.digit_char (n mod 10)) acc)).
      rewrite IH.
      * cbn [Js.digits].
        rewrite (proj2 (digit_char_spec (n mod 10)
                          (Z.mod_pos_bound n 10 eq_refl))).
        replace (n / 10 * 10 + n mod 10) with n
          by (pose proof (Z.div_mod n 10); lia).
        reflexivity.
      * split; [apply Z.div_pos; lia|].
        apply Z.div_lt_upper_bound; [lia|].
        replace (Z.of_nat (S (S fuel))) with (Z.succ (Z.of_nat (S fuel)))
          in B by lia.
        rewrite Z.pow_succ_r in B by lia. lia.
Qed.

Lemma digits_bound (n : Z) :
  0 <= n -> 0 <= n < 10 ^ Z.of_nat (S (Z.to_nat (Z.log2 n))).
Proof.
  intros P. split; [exact P|].
  replace (Z.of_nat (S (Z.to_nat (Z.log2 n)))) with (Z.succ (Z.log2 n))
    by (pose proof (Z.log2_nonneg n); lia).
  destruct (Z.eq_dec n 0) as [->|N]; [reflexivity|].
  apply Z.lt_le_trans with (2 ^ Z.succ (Z.log2 n)).
  - apply Z.log2_spec. lia.
  - apply Z.pow_le_mono_l. lia.
Qed.

(** On a string of digits, [parseInt] reads them all in radix 10. *)
Lemma strip_digits (c : ascii) (rest : string) :
  Js.every Js.isDigit (String c rest) = true ->
  Js.trimStart (String c rest) = String c rest
  /\ Js.strip_sign (String c rest) = (1, String c rest)
  /\ Js.strip_radix (String c rest) = (10, String c rest).
Proof.
  cbn [Js.every]. intros E. apply andb_true_iff in E as [Ec Er].
  destruct (isDigit_plain c Ec) as (W & M & P & _).
  unfold Js.strip_sign, Js.strip_radix. cbn [Js.trimStart].
  rewrite W, M, P. repeat split.
  destruct rest as [|x rest]; [reflexivity|].
  cbn [Js.every] in Er. apply andb_true_iff in Er as [Ex _].
  destruct (isDigit_plain x Ex) as (_ & _ & _ & X1 & X2).
  rewrite X1, X2, andb_false_r. reflexivity.
Qed.

(** An integer written in decimal is read back by [parseInt]. *)
Lemma parseInt_toString (n : Z) : Js.parseInt (Js.toString n) = Some n.
Proof.
  unfold Js.toString. destruct (Z.ltb_spec n 0) as [N|N].
  - set (k := Z.to_nat (Z.log2 (- n))).
    assert (E : exists c rest, Js.to_digits (S k) (- n) "" = String c rest).
    { cbn [Js.to_digits]. destruct (- n <? 10); [eauto|].
      apply to_digits_cons. }
    destruct E as (c & rest & E).
    pose proof (to_digits_every (S k) (- n) "" eq_refl) as D.
    pose proof (digits_to_digits k (- n) "" (digits_bound (- n) ltac:(lia)))
      as R.
    rewrite E in D, R |- *.
    destruct (strip_digits c rest D) as (_ & _ & S2).
    unfold Js.parseInt.
    change (Js.trimStart (String "-" (String c rest)))
      with (String "-" (String c rest)).
    change (Js.strip_sign (String "-" (String c rest)))
      with (-1, String c rest).
    cbv beta iota. rewrite S2, R. cbn [Js.digits option_map]. f_equal. lia.
  - set (k := Z.to_nat (Z.log2 n)).
    assert (E : exists c rest, Js.to_digits (S k) n "" = String c rest).
    { cbn [Js.to_digits]. destruct (n <? 10); [eauto|].
      apply to_digits_cons. }
    destruct E as (c & rest & E).
    pose proof (to_digits_every (S k) n "" eq_refl) as D.
    pose proof (digits_to_digits k n "" (digits_bound n N)) as R.
    rewrite E in D, R |- *.
    destruct (strip_digits c rest D) as (S0 & S1 & S2).
    unfold Js.parseInt. rewrite S0, S1, S2, R.
    cbn [Js.digits option_map]. f_equal. lia.
Qed.

(** [parseInt] reads a prefix: what follows the digits is not looked at. *)
Example parseInt_prefix :
  Js.parseInt "5.5" = Some 5 /\ Js.parseInt " 10abc" = Some 10
  /\ Js.parseInt "0x1f" = Some 31 /\ Js.parseInt "abc" = None
  /\ Js.parseInt "" = None.
Proof. repeat split. Qed.

Lemma parseInt_truthy (limit : string) (L : Z) :
  Js.parseInt limit = Some L -> Js.truthy (Some limit) = true.
Proof.
  destruct limit; [|reflexivity]. intros E. vm_compute in E. discriminate.
Qed.

Lemma lower_upper_char (c : ascii) :
  Js.lower_char (Js.upper_char c) = Js.lower_char c.
Proof.
  destruct c as [[] [] [] [] [] [] [] []]; reflexivity.
Qed.

(** Lower case after upper case is lower case. *)
Lemma toLowerCase_toUpperCase (s : string) :
  Js.toLowerCase (Js.toUpperCase s) = Js.toLowerCase s.
Proof.
  induction s as [|c s IH]; [reflexivity|].
  change (String (Js.lower_char (Js.upper_char c))
            (Js.toLowerCase (Js.toUpperCase s))
          = String (Js.lower_char c) (Js.toLowerCase s)).
  rewrite lower_upper_char, IH. reflexivity.
Qed.

End JsFacts.

(** ** Lists *)

Module ListFacts.

Lemma filter_none {A} (f : A -> bool) (l : list A) :
  Forall (fun x => f x = false) l -> filter f l = [].
Proof.
  induction 1 as [|x l E F IH]; cbn; [reflexivity|]. rewrite E. exact IH.
Qed.

Lemma filter_all {A} (f : A -> bool) (l : list A) :
  Forall (fun x => f x = true) l -> filter f l = l.
Proof.
  induction 1 as [|x l E F IH]; cbn; [reflexivity|]. rewrite E, IH.
  reflexivity.
Qed.

Lemma In_firstn {A} (n : nat) (l : list A) (x : A) :
  In x (firstn n l) -> In x l.
Proof.
  intros I. rewrite <- (firstn_skipn n l). apply in_or_app. left. exact I.
Qed.

Lemma NoDup_map_in {A B} (f : A -> B) (l : list A) :
  (forall x y, In x l -> In y l -> f x = f y -> x = y) ->
  NoDup l -> NoDup (map f l).
Proof.
  intros Inj N. induction N as [|a l Na N IH]; cbn; constructor.
  - intros I. apply in_map_iff in I as (y & E & Iy). apply Na.
    rewrite (Inj a y (or_introl eq_refl) (or_intror Iy) (eq_sym E)). exact Iy.
  - apply IH. intros x y Ix Iy. apply Inj; right; assumption.
Qed.

(** A list that is not empty ends with an element. *)
Lemma last_split {A} (l : list A) :
  l <> [] -> exists l' x, l = (l' ++ [x])%list.
Proof.
  intros N. destruct (exists_last N) as (l' & x & E). exists l', x. exact E.
Qed.

Lemma NoDup_app_disjoint {A} (l1 l2 : list A) :
  NoDup (l1 ++ l2) -> forall x, In x l1 -> In x l2 -> False.
Proof.
  induction l1 as [|a l1 IH]; cbn; intros N x I1 I2; [exact I1|].
  apply NoDup_cons_iff in N as [Na N]. destruct I1 as [<-|I1].
  - apply Na, in_or_app. right. exact I2.
  - exact (IH N x I1 I2).
Qed.

(** No two lists share a member when their concatenation has no
    duplicate. *)
Lemma NoDup_concat_disjoint {A} (ls : list (list A)) :
  NoDup (List.concat ls) ->
  ForallOrdPairs (fun p q => forall x, In x p -> In x q -> False) ls.
Proof.
  induction ls as [|p ls IH]; cbn; intros N; [constructor|].
  constructor.
  - apply Forall_forall. intros q Iq x Ip Ix.
    apply (NoDup_app_disjoint _ _ N x Ip).
    apply in_concat. exists q. split; assumption.
  - apply IH. exact (NoDup_app_remove_l _ _ N).
Qed.

End ListFacts.

Section Properties.
Context `{Cassandra}.

(** ** The Consistency Resolver *)

Lemma recognized_truthy (c : string) :
  recognized c = true -> Js.truthy (Some c) = true.
Proof. destruct c; [discriminate | reflexivity]. Qed.

(** A recognized token is looked up under its lower-case form, and there
    is no warning. *)
Lemma validateConsistency_recognized (env : Env) (c : string) :
  recognized c = true ->
  validateConsistency env (Some c)
  = {| value := consistencies (Js.toLowerCase c); warning := None |}.
Proof.
  intros R. unfold validateConsistency.
  rewrite (recognized_truthy c R). fold (recognized c). rewrite R.
  reflexivity.
Qed.

(** A token that is given and not recognized is replaced by the write
    default, whoever asks. *)
Lemma validateConsistency_unrecognized (env : Env) (c : string) :
  Js.truthy (Some c) = true -> recognized c = false ->
  validateConsistency env (Some c)
  = {| value := consistencies (Js.toLowerCase (default_write env));
       warning := Some ("Invalid consistency level '" ++ c
                        ++ "', using default '" ++ default_write env
                        ++ "'") |}.
Proof.
  intros T R. unfold validateConsistency.
  rewrite T. fold (recognized c). rewrite R. reflexivity.
Qed.

Lemma validateConsistency_absent (env : Env) (o : option string) :
  Js.truthy o = false ->
  validateConsistency env o
  = {| value := consistencies (Js.toLowerCase (default_write env));
       warning := None |}.
Proof.
  intros T. unfold validateConsistency.
  destruct o as [c|]; [rewrite T|]; reflexivity.
Qed.

(** What a listing resolves. A token that is given and not recognized
    yields the write default: the read default is only an operand of [||],
    and the token is truthy. *)
Lemma list_token_unrecognized (env : Env) (c : string) :
  Js.truthy (Some c) = true -> recognized c = false ->
  validateConsistency env (Js.or_else (Some c) (DEFAULT_READ_CONSISTENCY env))
  = {| value := consistencies (Js.toLowerCase (default_write env));
       warning := Some ("Invalid consistency level '" ++ c
                        ++ "', using default '" ++ default_write env
                        ++ "'") |}.
Proof.
  intros T R. unfold Js.or_else. rewrite T.
  apply validateConsistency_unrecognized; assumption.
Qed.

(** Without a token, a read default that is recognized is resolved. *)
Lemma list_token_absent (env : Env) (o : option string) (r : string) :
  Js.truthy o = false -> DEFAULT_READ_CONSISTENCY env = Some r ->
  recognized r = true ->
  validateConsistency env (Js.or_else o (DEFAULT_READ_CONSISTENCY env))
  = {| value := consistencies (Js.toLowerCase r); warning := None |}.
Proof.
  intros T D R. unfold Js.or_else. rewrite T, D.
  apply validateConsistency_recognized, R.
Qed.

(** Without a token and without a read default, the write default is. *)
Lemma list_token_absent_no_default (env : Env) (o : option string) :
  Js.truthy o = false -> Js.truthy (DEFAULT_READ_CONSISTENCY env) = false ->
  validateConsistency env (Js.or_else o (DEFAULT_READ_CONSISTENCY env))
  = {| value := consistencies (Js.toLowerCase (default_write env));
       warning := None |}.
Proof.
  intros T D. unfold Js.or_else. rewrite T.
  apply validateConsistency_absent, D.
Qed.

(** ** Responses *)

Lemma has_with_warning (k : string) (fields : list (string * JsValue))
    (r : ConsistencyResult) :
  has k (with_warning fields r)
  = match assoc k (fields
                   ++ match Js.given (warning r) with
                      | Some w => [("warning", JStr w)]
                      | None => []
                      end)%list with
    | JUndefined => false
    | _ => true
    end.
Proof.
  unfold with_warning, has, get, Js.given.
  destruct (warning r) as [w|]; [destruct (Js.truthy (Some w))|];
    rewrite ?app_nil_r; reflexivity.
Qed.

(** The handler always answers, in one of the three shapes. *)
Lemma post_messages_shape env nowId req db :
  exists resp db',
    post_messages env nowId req db = (Return resp, db')
    /\ post_shape env nowId resp.
Proof.
  unfold post_messages, catch, bind, lift, errorResponse.
  destruct (validatePostMessage req) as [e | [errors | data]];
    cbn -[validateConsistency];
    try (eexists _, _; split; [reflexivity | constructor]).
  destruct (Js.given (data_client_msg_id data)) as [k|].
  - destruct (checkDedupe _ _ _ db) as [[[|]|e] db1]; cbn;
      try (eexists _, _; split; [reflexivity | constructor]).
    destruct (insertMessage _ _ _ _ _ _ db1) as [[[]|e] db2]; cbn;
      eexists _, _; split; try reflexivity; constructor.
  - destruct (insertMessage _ _ _ _ _ _ db) as [[[]|e] db2]; cbn;
      eexists _, _; split; try reflexivity; constructor.
Qed.

(** ** The storage functions, step by step *)

Lemma checkDedupe_duplicate channelId clientMsgId level db db' :
  checkDedupe channelId clientMsgId level db = (Return false, db') ->
  db' = log (INSERT_message_dedupe_IF_NOT_EXISTS channelId clientMsgId)
            level db.
Proof.
  unfold checkDedupe, bind, getClient, execute, ret.
  destruct (client db); [|discriminate]. cbn -[has_dedupe].
  destruct (serves db (INSERT_message_dedupe_IF_NOT_EXISTS channelId
                         clientMsgId) level);
    cbn -[has_dedupe]; [|discriminate].
  destruct (has_dedupe channelId clientMsgId (message_dedupe db));
    cbn; intros E; inversion E. reflexivity.
Qed.

Lemma checkDedupe_first channelId clientMsgId level db :
  available db ->
  has_dedupe channelId clientMsgId (message_dedupe db) = false ->
  exists db',
    checkDedupe channelId clientMsgId level db = (Return true, db')
    /\ available db' /\ messages db' = messages db.
Proof.
  intros [C S] N. unfold checkDedupe, bind, getClient, execute, ret.
  rewrite C. cbn -[has_dedupe]. rewrite S, N. cbn.
  eexists; split; [reflexivity|]. split; [split; [exact C | exact S]|].
  reflexivity.
Qed.

Lemma insertMessage_available channelId messageId userId content createdAt
    level db :
  available db ->
  exists db',
    insertMessage channelId messageId userId content createdAt level db
    = (Return tt, db')
    /\ messages db'
       = upsert {| row_channel_id := channelId; row_message_id := messageId;
                   row_user_id := userId; row_content := content;
                   row_created_at := createdAt |} (messages db).
Proof.
  intros [C S]. unfold insertMessage, bind, getClient, execute, ret.
  rewrite C. cbn. rewrite S. cbn. eexists; split; reflexivity.
Qed.

(** ** AppendMessage *)

(** C3. When the request carries a client key and [checkDedupe] answers
    [false] for it, the handler answers [{ ok: true, deduped: true }] and
    stops: the only statement executed is the conditional insert, and both
    tables are as they were. *)
Theorem post_messages_deduplicated env nowId req data client_msg_id db db' :
  validatePostMessage req = inr (Valid data) ->
  Js.given (data_client_msg_id data) = Some client_msg_id ->
  checkDedupe (data_channel_id data) client_msg_id
    (value (validateConsistency env (data_consistency data))) db
  = (Return false, db') ->
  post_messages env nowId req db
  = (Return (json (JObj [("ok", JBool true); ("deduped", JBool true)])), db')
  /\ messages db' = messages db
  /\ message_dedupe db' = message_dedupe db
  /\ executed db'
     = (executed db
        ++ [(INSERT_message_dedupe_IF_NOT_EXISTS (data_channel_id data)
               client_msg_id,
             value (validateConsistency env (data_consistency data)))])%list.
Proof.
  intros V G D. split.
  - unfold post_messages, catch, bind, lift. rewrite V.
    cbn -[validateConsistency]. rewrite G, D. reflexivity.
  - apply checkDedupe_duplicate in D. subst db'. cbn. auto.
Qed.

(** C10. A response that says [deduped] carries no warning, and a response
    that carries a warning carries a [message_id]: the warning is attached
    to accepted messages only. The handler always answers. *)
Theorem post_messages_warning_only_when_accepted env nowId req db :
  exists resp db',
    post_messages env nowId req db = (Return resp, db')
    /\ (has "deduped" (body resp) = true -> has "warning" (body resp) = false)
    /\ (has "warning" (body resp) = true
        -> has "message_id" (body resp) = true
           /\ has "deduped" (body resp) = false).
Proof.
  destruct (post_messages_shape env nowId req db) as (resp & db' & E & S).
  exists resp, db'. split; [exact E|].
  destruct S as [code e| |r]; cbn [body fail json];
    rewrite ?has_with_warning; try (cbn; split; [congruence|]; intros X;
                                    try discriminate X; split; reflexivity).
  destruct (Js.given (warning r)); cbn; split; try congruence;
    intros _; split; reflexivity.
Qed.

(** An accepted request: the message is stored under the identifier handed
    out, with the timestamp of the identifier, and the response names it. *)
Lemma post_messages_stores env nowId req data db :
  validatePostMessage req = inr (Valid data) ->
  available db -> fresh_key data db ->
  exists db',
    post_messages env nowId req db
    = (Return (accepted_response env nowId data), db')
    /\ messages db' = upsert (stored_row nowId data) (messages db).
Proof.
  intros V A N.
  unfold post_messages, catch, bind, lift. rewrite V.
  cbn -[validateConsistency].
  set (cr := validateConsistency env (data_consistency data)).
  destruct (Js.given (data_client_msg_id data)) as [k|] eqn:G.
  - destruct (checkDedupe_first (data_channel_id data) k (value cr) db A
                (N k G)) as (db1 & E1 & A1 & M1).
    rewrite E1. cbn -[with_warning].
    destruct (insertMessage_available (data_channel_id data) nowId
                (data_user_id data) (data_content data) (toTimestamp nowId)
                (value cr) db1 A1) as (db2 & E2 & M2).
    rewrite E2. exists db2. rewrite M2, M1. split; reflexivity.
  - destruct (insertMessage_available (data_channel_id data) nowId
                (data_user_id data) (data_content data) (toTimestamp nowId)
                (value cr) db A) as (db2 & E2 & M2).
    rewrite E2. exists db2. rewrite M2. split; reflexivity.
Qed.

(** C5, as the code has it. An accepted request (valid body, store
    available, client key absent or not seen before) is answered with
    status 200 and [{ ok: true, message_id }], plus the warning of the
    resolver when there is one. The response has no [created_at]: the
    timestamp of the identifier goes into the stored row only. *)
Theorem post_messages_accepted env nowId req data db :
  validatePostMessage req = inr (Valid data) ->
  available db -> fresh_key data db ->
  exists db',
    post_messages env nowId req db
    = (Return (accepted_response env nowId data), db')
    /\ status (accepted_response env nowId data) = 200
    /\ get "ok" (body (accepted_response env nowId data)) = JBool true
    /\ get "message_id" (body (accepted_response env nowId data))
       = JStr (TimeUuid_toString nowId)
    /\ get "warning" (body (accepted_response env nowId data))
       = field (Js.given (warning (validateConsistency env
                                     (data_consistency data))))
    /\ has "created_at" (body (accepted_response env nowId data)) = false
    /\ has "deduped" (body (accepted_response env nowId data)) = false
    /\ messages db' = upsert (stored_row nowId data) (messages db)
    /\ row_created_at (stored_row nowId data) = TimeUuid_getDate nowId.
Proof.
  intros V A N.
  destruct (post_messages_stores env nowId req data db V A N)
    as (db' & E & M).
  exists db'. split; [exact E|]. split; [reflexivity|].
  unfold accepted_response, body. rewrite !has_with_warning.
  unfold with_warning, Js.given.
  destruct (warning (validateConsistency env (data_consistency data)))
    as [w|]; [destruct (Js.truthy (Some w))|]; cbn; auto 10.
Qed.

(** ** validatePostMessage *)

Lemma check_required_ok name max bound s :
  1 <= Js.length s <= max -> check_required name max bound (JStr s) = [].
Proof.
  intros L. unfold check_required.
  rewrite (JsFacts.length_pos_truthy s (proj1 L)). cbn.
  destruct (Z.ltb_spec (Js.length s) 1); [lia|].
  destruct (Z.gtb_spec (Js.length s) max); [lia|]. reflexivity.
Qed.

(** A body whose strings have lengths within the bounds is valid
    whatever white space they hold, the data handed on are the trimmed
    strings, and content made of white space only is handed on as the
    empty string. The handler stores what it is handed: on an available
    store the row of the message has the trimmed content. *)
Lemma validatePostMessage_accepts
    (channel_id user_id content : string)
    (consistency client_msg_id : option string) :
  1 <= Js.length channel_id <= 100 ->
  1 <= Js.length user_id <= 100 ->
  1 <= Js.length content <= 2000 ->
  (forall k, client_msg_id = Some k -> 1 <= Js.length k <= 100) ->
  let req :=
    {| body_channel_id := JStr channel_id; body_user_id := JStr user_id;
       body_content := JStr content; body_consistency := field consistency;
       body_client_msg_id := field client_msg_id |} in
  let data :=
    {| data_channel_id := Js.trim channel_id;
       data_user_id := Js.trim user_id;
       data_content := Js.trim content;
       data_consistency := option_map Js.trim consistency;
       data_client_msg_id := option_map Js.trim client_msg_id |} in
  validatePostMessage req = inr (Valid data)
  /\ (Js.every Js.isWhiteSpace content = true -> Js.trim content = "")
  /\ (forall env nowId db,
        available db -> fresh_key data db ->
        exists resp db',
          post_messages env nowId req db = (Return resp, db')
          /\ In {| row_channel_id := Js.trim channel_id;
                   row_message_id := nowId;
                   row_user_id := Js.trim user_id;
                   row_content := Js.trim content;
                   row_created_at := toTimestamp nowId |} (messages db')).
Proof.
  intros Lc Lu Lm Lk req data.
  assert (V : validatePostMessage req = inr (Valid data)).
  { unfold validatePostMessage, req.
    cbn [body_channel_id body_user_id body_content body_consistency
         body_client_msg_id].
    rewrite (check_required_ok "channel_id" 100 "100" channel_id Lc).
    rewrite (check_required_ok "user_id" 100 "100" user_id Lu).
    rewrite (check_required_ok "content" 2000 "2000" content Lm).
    assert (E : (truthy (field client_msg_id)
                 && (negb (is_string (field client_msg_id))
                     || (str_length (field client_msg_id) <? 1)
                     || (str_length (field client_msg_id) >? 100))) = false).
    { destruct client_msg_id as [k|]; [|reflexivity].
      specialize (Lk k eq_refl). cbn [field is_string str_length negb orb].
      destruct (Z.ltb_spec (Js.length k) 1); [lia|].
      destruct (Z.gtb_spec (Js.length k) 100); [lia|].
      apply andb_false_r. }
    rewrite E. cbn [app List.length Z.of_nat Z.gtb Z.compare].
    destruct consistency, client_msg_id; reflexivity. }
  split; [exact V|]. split; [apply JsFacts.trim_blank|].
  intros env nowId db A N.
  destruct (post_messages_stores env nowId req data db V A N)
    as (db' & E & M).
  exists (accepted_response env nowId data), db'. split; [exact E|].
  rewrite M. left. reflexivity.
Qed.

(** ** ListMessages: validation *)

Lemma errors_left {A} (l1 l2 : list A) :
  l1 <> [] -> (Z.of_nat (List.length (l1 ++ l2)) >? 0) = true.
Proof.
  destruct l1; [congruence|]. intros _. cbn [app List.length].
  apply Z.gtb_lt. lia.
Qed.

Lemma errors_right {A} (l1 l2 : list A) :
  (Z.of_nat (List.length l2) >? 0) = true ->
  (Z.of_nat (List.length (l1 ++ l2)) >? 0) = true.
Proof.
  rewrite length_app. intros E. apply Z.gtb_lt in E.
  apply Z.gtb_lt. lia.
Qed.

Lemma rejected_invalid (query : GetMessagesQuery) :
  rejected query -> exists errors, validateGetMessages query = Invalid errors.
Proof.
  intros R. unfold validateGetMessages.
  match goal with
  | |- exists _, (if ?c then _ else _) = _ => assert (E : c = true)
  end.
  { destruct R as [R | [R | [R | R]]].
    - apply errors_left. unfold limit_out_of_range in R.
      destruct (limit_of query) as [n|]; [|discriminate].
      destruct (Z.ltb_spec n 1); [discriminate|].
      destruct (Z.gtb_spec n 100); [discriminate|]. lia.
    - apply errors_right, errors_left. destruct R as [-> ->]. discriminate.
    - do 2 apply errors_right. apply errors_left.
      destruct R as (s & -> & ->). discriminate.
    - do 3 apply errors_right. destruct R as (s & -> & ->). reflexivity. }
  rewrite E. eexists. reflexivity.
Qed.

(** The validator turns a listing down for these reasons only. *)
Lemma invalid_rejected (query : GetMessagesQuery) (errors : list string) :
  validateGetMessages query = Invalid errors -> rejected query.
Proof.
  unfold validateGetMessages, rejected, limit_out_of_range, both_cursors,
    malformed.
  destruct (limit_of query) as [n|]; [|intros _; left; exact I].
  destruct (Z.ltb_spec n 1); [intros _; left; lia|].
  destruct (Z.gtb_spec n 100); [intros _; left; lia|].
  destruct (Js.truthy (query_before query) && Js.truthy (query_after query))
    eqn:B.
  { intros _. right. left. apply andb_true_iff. exact B. }
  destruct (Js.given (query_before query)) as [b|];
    [destruct (test uuidRegex b) eqn:Rb|].
  2:{ intros _. right. right. left. exists b. split; [reflexivity | exact Rb]. }
  all: destruct (Js.given (query_after query)) as [a|];
    [destruct (test uuidRegex a) eqn:Ra|]; try discriminate.
  all: intros _; right; right; right; exists a;
    split; [reflexivity | exact Ra].
Qed.

Lemma limit_of_toString (n : Z) (before after consistency : option string) :
  limit_of {| query_limit := Some (Js.toString n); query_before := before;
              query_after := after; query_consistency := consistency |}
  = Some n.
Proof.
  unfold limit_of, Js.given. cbn [query_limit].
  rewrite (JsFacts.parseInt_truthy _ _ (JsFacts.parseInt_toString n)).
  apply JsFacts.parseInt_toString.
Qed.


Section Order.
Hypothesis order : timeuuid_order.

Lemma ltb_irrefl a : timeuuid_ltb a a = false.
Proof. exact (proj1 order a). Qed.

Lemma ltb_trans a b c :
  timeuuid_ltb a b = true -> timeuuid_ltb b c = true ->
  timeuuid_ltb a c = true.
Proof. exact (proj1 (proj2 order) a b c). Qed.

Lemma ltb_connected a b :
  timeuuid_ltb a b = false -> timeuuid_ltb b a = false -> a = b.
Proof. exact (proj2 (proj2 order) a b). Qed.

Lemma ltb_asym a b : timeuuid_ltb a b = true -> timeuuid_ltb b a = false.
Proof.
  intros L. destruct (timeuuid_ltb b a) eqn:G; [|reflexivity].
  rewrite <- (ltb_irrefl a). symmetry. exact (ltb_trans a b a L G).
Qed.

Lemma insert_desc_perm r l : Permutation (insert_desc r l) (r :: l).
Proof.
  induction l as [|x l IH]; cbn; [reflexivity|].
  destruct (timeuuid_ltb (row_message_id x) (row_message_id r));
    [reflexivity|].
  rewrite IH. apply perm_swap.
Qed.

Lemma clustering_order_perm l : Permutation (clustering_order l) l.
Proof.
  induction l as [|r l IH]; cbn; [reflexivity|].
  fold (clustering_order l). rewrite insert_desc_perm.
  apply perm_skip, IH.
Qed.

Lemma insert_desc_descending r l :
  descending l ->
  Forall (fun x => row_message_id x <> row_message_id r) l ->
  descending (insert_desc r l).
Proof.
  unfold descending. induction 1 as [|x l S IH F]; intros D; cbn.
  - repeat constructor.
  - apply Forall_cons_iff in D as [Dx D].
    destruct (timeuuid_ltb (row_message_id x) (row_message_id r)) eqn:L.
    + constructor; [constructor; assumption|].
      constructor; [exact L|].
      eapply Forall_impl; [|exact F]. intros y N. unfold newer in *.
      exact (ltb_trans _ _ _ N L).
    + constructor; [exact (IH D)|].
      eapply Permutation_Forall;
        [symmetry; apply insert_desc_perm|].
      constructor; [|exact F].
      unfold newer. destruct (timeuuid_ltb (row_message_id r)
                                (row_message_id x)) eqn:G; [reflexivity|].
      exfalso. exact (Dx (ltb_connected _ _ L G)).
Qed.

Lemma clustering_order_descending l :
  NoDup (map row_message_id l) -> descending (clustering_order l).
Proof.
  induction l as [|r l IH]; cbn; intros N.
  - constructor.
  - apply NoDup_cons_iff in N as [Nr Nl]. fold (clustering_order l).
    apply insert_desc_descending; [exact (IH Nl)|].
    eapply Permutation_Forall; [symmetry; apply clustering_order_perm|].
    apply Forall_forall. intros x Ix E. apply Nr. rewrite <- E.
    apply in_map. exact Ix.
Qed.

Lemma primary_key_channel channel_id table :
  primary_key table ->
  NoDup (map row_message_id (filter (in_channel channel_id) table)).
Proof.
  unfold primary_key. induction table as [|r t IH]; cbn; intros N;
    [constructor|].
  apply NoDup_cons_iff in N as [Nr Nt].
  destruct (in_channel channel_id r) eqn:C; [|exact (IH Nt)].
  cbn. constructor; [|exact (IH Nt)].
  intros I. apply in_map_iff in I as (x & E & Ix).
  apply filter_In in Ix as [Ix Cx].
  apply Nr. apply in_map_iff. exists x. split; [|exact Ix].
  unfold in_channel in *. apply String.eqb_eq in C, Cx. congruence.
Qed.

Lemma partition_perm channel_id table :
  Permutation (partition channel_id table)
              (filter (in_channel channel_id) table).
Proof. apply clustering_order_perm. Qed.

Lemma partition_descending channel_id table :
  primary_key table -> descending (partition channel_id table).
Proof.
  intros K. apply clustering_order_descending, primary_key_channel, K.
Qed.

(** Writing a row keeps the primary key. *)
Lemma upsert_primary_key r table :
  primary_key table -> primary_key (upsert r table).
Proof.
  unfold primary_key, upsert. intros N. cbn [map]. constructor.
  - intros I. apply in_map_iff in I as (x & E & Ix).
    apply filter_In in Ix as [_ Sx]. injection E as Ec Em.
    unfold same_key, timeuuid_eqb in Sx.
    rewrite Ec, Em, String.eqb_refl, ltb_irrefl in Sx. discriminate Sx.
  - induction table as [|x t IH]; cbn; [constructor|].
    apply NoDup_cons_iff in N as [Nx Nt].
    destruct (negb (same_key r x)); [|exact (IH Nt)].
    cbn [map]. constructor; [|exact (IH Nt)].
    intros I. apply Nx. apply in_map_iff in I as (y & E & Iy).
    apply filter_In in Iy as [Iy _]. apply in_map_iff. exists y.
    split; assumption.
Qed.

(** In a descending list, what precedes a row is newer and what follows it
    is older. *)
Lemma descending_middle pre r rest :
  descending (pre ++ r :: rest) ->
  Forall (fun y => newer y r) pre /\ Forall (fun y => newer r y) rest.
Proof.
  unfold descending. induction pre as [|p pre IH]; cbn; intros S.
  - apply StronglySorted_inv in S as [_ F]. split; [constructor | exact F].
  - apply StronglySorted_inv in S as [S F]. destruct (IH S) as [A B].
    split; [|exact B]. constructor; [|exact A].
    apply Forall_app in F as [_ F]. apply Forall_cons_iff in F as [F _].
    exact F.
Qed.

Lemma descending_app_inv l1 l2 :
  descending (l1 ++ l2) ->
  descending l1 /\ descending l2
  /\ forall x y, In x l1 -> In y l2 -> newer x y.
Proof.
  unfold descending. induction l1 as [|a l1 IH]; cbn; intros S.
  - split; [constructor|]. split; [exact S|]. intros x y [].
  - apply StronglySorted_inv in S as [S F]. destruct (IH S) as (S1 & S2 & C).
    apply Forall_app in F as [F1 F2].
    split; [constructor; assumption|]. split; [exact S2|].
    intros x y [<-|Ix] Iy; [|exact (C x y Ix Iy)].
    exact (proj1 (Forall_forall _ _) F2 y Iy).
Qed.

Lemma descending_filter f l : descending l -> descending (filter f l).
Proof.
  unfold descending. induction 1 as [|a l S IH F]; cbn; [constructor|].
  destruct (f a); [|exact IH]. constructor; [exact IH|].
  apply Forall_forall. intros y Iy. apply filter_In in Iy as [Iy _].
  exact (proj1 (Forall_forall _ _) F y Iy).
Qed.

Lemma descending_NoDup l : descending l -> NoDup (map row_message_id l).
Proof.
  unfold descending. induction 1 as [|a l S IH F]; cbn; constructor;
    [|exact IH].
  intros I. apply in_map_iff in I as (y & E & Iy).
  pose proof (proj1 (Forall_forall _ _) F y Iy) as N. unfold newer in N.
  rewrite E, ltb_irrefl in N. discriminate.
Qed.

(** The rows strictly older than a row of a descending listing are the rows
    that follow it. *)
Lemma filter_before pre r rest :
  descending (pre ++ r :: rest) ->
  filter (in_bound (Before (row_message_id r))) (pre ++ r :: rest) = rest.
Proof.
  intros D. destruct (descending_middle pre r rest D) as [A B].
  rewrite filter_app. cbn [filter in_bound]. rewrite ltb_irrefl.
  rewrite (ListFacts.filter_none _ pre), (ListFacts.filter_all _ rest);
    [reflexivity|..].
  - eapply Forall_impl; [|exact B]. intros y N. exact N.
  - eapply Forall_impl; [|exact A]. intros y N. cbn. apply ltb_asym.
    exact N.
Qed.

Lemma descending_firstn n l : descending l -> descending (firstn n l).
Proof.
  intros D. rewrite <- (firstn_skipn n l) in D.
  exact (proj1 (descending_app_inv _ _ D)).
Qed.

(** ** The Repository read with [after] *)

Lemma getMessages_after_runs channelId limit after x level db :
  available db -> 1 <= limit ->
  Js.truthy (Some after) = true -> TimeUuid_fromString after = Some x ->
  exists db',
    getMessages channelId limit None (Some after) level db
    = (Return (select channelId (After x) limit (messages db)), db')
    /\ messages db' = messages db.
Proof.
  intros [C S] L T F. unfold getMessages, bind, getClient, fromString, ret.
  rewrite C. unfold Js.given. rewrite T. cbn [Js.truthy]. rewrite F.
  unfold execute. cbn -[select]. rewrite S. cbn -[select].
  destruct (Z.leb_spec limit 0); [lia|].
  eexists. split; reflexivity.
Qed.

(** C4, as the code has it. The read with [after = x] returns the head of
    the descending listing of the entries above [x]: at most [limit] rows
    of the channel, each above [x], in descending order, and every entry
    above [x] that is left out is older than every row returned. They are
    the newest entries above [x], not the nearest to it. *)
Theorem getMessages_after_newest channelId limit after x level db :
  primary_key (messages db) -> available db -> 1 <= limit ->
  Js.truthy (Some after) = true -> TimeUuid_fromString after = Some x ->
  exists rows db',
    getMessages channelId limit None (Some after) level db
    = (Return rows, db')
    /\ rows = firstn (Z.to_nat limit)
                (filter (in_bound (After x))
                   (partition channelId (messages db)))
    /\ Z.of_nat (List.length rows) <= limit
    /\ Forall (fun r => row_channel_id r = channelId
                        /\ timeuuid_ltb x (row_message_id r) = true) rows
    /\ descending rows
    /\ forall r r',
         In r (messages db) -> row_channel_id r = channelId ->
         timeuuid_ltb x (row_message_id r) = true ->
         ~ In r rows -> In r' rows ->
         timeuuid_ltb (row_message_id r) (row_message_id r') = true.
Proof.
  intros K A L T F.
  destruct (getMessages_after_runs channelId limit after x level db A L T F)
    as (db' & E & _).
  exists (select channelId (After x) limit (messages db)), db'.
  split; [exact E|]. split; [reflexivity|]. unfold select.
  set (above :=
         filter (in_bound (After x)) (partition channelId (messages db))).
  assert (D : descending above)
    by apply descending_filter, partition_descending, K.
  split; [|split; [|split]].
  - rewrite length_firstn. lia.
  - apply Forall_forall. intros r I. apply ListFacts.In_firstn in I.
    apply filter_In in I as [I B]. split; [|exact B].
    apply (Permutation_in _ (partition_perm channelId (messages db))) in I.
    apply filter_In in I as [_ I]. apply String.eqb_eq. exact I.
  - apply descending_firstn, D.
  - intros r r' Ir Cr Br Nr Ir'.
    assert (Ia : In r above).
    { apply filter_In. split; [|exact Br].
      apply (Permutation_in _ (Permutation_sym
                                 (partition_perm channelId (messages db)))).
      apply filter_In. split; [exact Ir|]. apply String.eqb_eq. exact Cr. }
    rewrite <- (firstn_skipn (Z.to_nat limit) above) in Ia, D.
    apply in_app_or in Ia as [Ia|Ia]; [contradiction|].
    exact (proj2 (proj2 (descending_app_inv _ _ D)) r' r Ir' Ia).
Qed.

(** ** ListMessages, page by page *)

Lemma regex_truthy s : test uuidRegex s = true -> Js.truthy (Some s) = true.
Proof.
  destruct s; [|reflexivity]. intros E. vm_compute in E. discriminate.
Qed.

Lemma validateGetMessages_page limit L before bound :
  Js.parseInt limit = Some L -> 1 <= L <= 100 -> cursor_of before bound ->
  validateGetMessages
    {| query_limit := Some limit; query_before := before;
       query_after := None; query_consistency := None |}
  = Valid {| get_limit := L; get_before := before; get_after := None;
             get_consistency := None |}.
Proof.
  intros P R C. unfold validateGetMessages.
  match goal with
  | |- context [limit_of ?q] =>
      assert (E : limit_of q = Some L)
        by (unfold limit_of, Js.given; cbn [query_limit];
            rewrite (JsFacts.parseInt_truthy limit L P); exact P)
  end.
  rewrite E. cbn [query_limit query_before query_after query_consistency].
  destruct (Z.ltb_spec L 1); [lia|]. destruct (Z.gtb_spec L 100); [lia|].
  destruct C as [|x [_ W]].
  - reflexivity.
  - unfold Js.given. rewrite (regex_truthy _ W), W. reflexivity.
Qed.

Lemma execute_select channelId bound L level db :
  available db -> 1 <= L ->
  execute (SELECT_messages channelId bound L) level db
  = (Return {| rows := select channelId bound L (messages db);
               applied := true |},
     log (SELECT_messages channelId bound L) level db).
Proof.
  intros [C S] R. unfold execute. cbn -[select]. rewrite S. cbn -[select].
  destruct (Z.leb_spec L 0); [lia | reflexivity].
Qed.

Lemma getMessages_page channelId L before bound level db :
  available db -> 1 <= L -> cursor_of before bound ->
  exists db',
    getMessages channelId L before None level db
    = (Return (select channelId bound L (messages db)), db')
    /\ available db' /\ messages db' = messages db.
Proof.
  intros A R B. pose proof A as [C S].
  unfold getMessages, bind, getClient, ret. rewrite C.
  destruct B as [|x [F W]].
  - cbn [Js.given Js.truthy]. eexists.
    rewrite (execute_select _ _ _ _ _ A R).
    split; [reflexivity|]. split; [split; assumption | reflexivity].
  - unfold Js.given. rewrite (regex_truthy _ W). unfold fromString.
    rewrite F. unfold ret. cbv beta iota. eexists.
    rewrite (execute_select _ _ _ _ _ A R).
    split; [reflexivity|]. split; [split; assumption | reflexivity].
Qed.

Lemma get_channel_messages_page env channelId limit L before bound db :
  available db -> 1 <= Js.length channelId <= 100 ->
  Js.parseInt limit = Some L -> 1 <= L <= 100 -> cursor_of before bound ->
  exists fields db',
    get_channel_messages env channelId
      {| query_limit := Some limit; query_before := before;
         query_after := None; query_consistency := None |} db
    = (Return (json (JObj fields)), db')
    /\ get "items" (JObj fields)
       = JArr (map item (select channelId bound L (messages db)))
    /\ get "page" (JObj fields)
       = JObj [("next_before",
                next_before (map item (select channelId bound L (messages db))))]
    /\ available db' /\ messages db' = messages db.
Proof.
  intros A Lc P R B. unfold get_channel_messages, catch, bind.
  assert (T : Js.truthy (Some channelId) = true).
  { destruct channelId; [|reflexivity]. unfold Js.length in Lc. cbn in Lc. lia. }
  rewrite T. destruct (Z.ltb_spec (Js.length channelId) 1); [lia|].
  destruct (Z.gtb_spec (Js.length channelId) 100); [lia|].
  cbn [negb orb]. rewrite (validateGetMessages_page limit L before bound P R B).
  cbn [get_limit get_before get_after get_consistency].
  set (cr := validateConsistency env _).
  destruct (getMessages_page channelId L before bound (value cr) db A
              (proj1 R) B) as (db' & E & A' & M).
  rewrite E. unfold ret, with_warning.
  destruct (warning cr) as [w|]; [destruct (Js.truthy (Some w))|];
    eexists _, db'; (split; [reflexivity|]); auto.
Qed.

Lemma next_before_last page r :
  next_before (map item (page ++ [r]))
  = JStr (TimeUuid_toString (row_message_id r)).
Proof.
  unfold next_before. rewrite map_app, length_app. cbn [map List.length].
  destruct (Z.gtb_spec (Z.of_nat (List.length (map item page) + 1)) 0);
    [|lia].
  replace (List.length (map item page) + 1 - 1)%nat
    with (List.length (map item page)) by lia.
  rewrite nth_middle. reflexivity.
Qed.

Lemma get_single k v : get k (JObj [(k, v)]) = v.
Proof. cbn. rewrite String.eqb_refl. reflexivity. Qed.

Lemma firstn_nonempty {A} (n : nat) (l : list A) :
  (0 < n)%nat -> l <> [] -> firstn n l <> [].
Proof. destruct n, l; cbn; try lia; congruence. Qed.

(** The client, started in the middle of the listing: when the cursor
    stands after [pre], the pages to come make up [rest]. *)
Lemma paginate_from env channelId limit L table :
  primary_key table -> 1 <= Js.length channelId <= 100 ->
  Js.parseInt limit = Some L -> 1 <= L <= 100 ->
  Forall (fun r => wellformed (row_message_id r))
         (filter (in_channel channelId) table) ->
  forall fuel pre rest before bound db,
    available db -> messages db = table ->
    partition channelId table = (pre ++ rest)%list ->
    cursor_of before bound ->
    filter (in_bound bound) (pre ++ rest) = rest ->
    (List.length rest < fuel)%nat ->
    exists pages db',
      paginate fuel env channelId (Some limit) before db = (Some pages, db')
      /\ List.concat pages = map item rest
      /\ messages db' = table.
Proof.
  intros K Lc P R W.
  induction fuel as [|fuel IH]; intros pre rest before bound db A M E B F Lf;
    [lia|].
  destruct (get_channel_messages_page env channelId limit L before bound db
              A Lc P R B) as (fields & db1 & G & Gi & Gp & A1 & M1).
  cbn [paginate]. rewrite G. cbn [body json]. rewrite Gi, Gp, get_single.
  unfold select. rewrite M, E, F.
  destruct rest as [|r0 rest0] eqn:Er.
  - rewrite firstn_nil. exists [[]], db1. split; [reflexivity|]. split; [reflexivity|]. congruence.
  - rewrite <- Er in *.
    assert (Np : firstn (Z.to_nat L) rest <> [])
      by (apply firstn_nonempty; [lia | congruence]).
    destruct (ListFacts.last_split _ Np) as (page & r & Ep).
    rewrite Ep, next_before_last.
    assert (Es : rest = ((page ++ [r]) ++ skipn (Z.to_nat L) rest)%list)
      by (rewrite <- Ep; symmetry; apply firstn_skipn).
    assert (El : partition channelId table
                 = ((pre ++ page) ++ r :: skipn (Z.to_nat L) rest)%list).
    { rewrite E. rewrite Es at 1. rewrite <- !app_assoc. reflexivity. }
    assert (Wr : wellformed (row_message_id r)).
    { apply (proj1 (Forall_forall _ _) W).
      assert (I : In r (partition channelId table))
        by (rewrite El; apply in_or_app; right; left; reflexivity).
      apply (Permutation_in _ (partition_perm channelId table)) in I.
      exact I. }
    destruct (IH ((pre ++ page) ++ [r])%list (skipn (Z.to_nat L) rest)
                (Some (TimeUuid_toString (row_message_id r)))
                (Before (row_message_id r)) db1 A1) as (pages & db2 & Gn & C & M2).
    + congruence.
    + rewrite El, <- (app_assoc (pre ++ page) [r]). reflexivity.
    + constructor. exact Wr.
    + rewrite <- (app_assoc (pre ++ page) [r]). cbn [app].
      apply filter_before.
      rewrite <- El. apply partition_descending, K.
    + rewrite length_skipn.
      assert (0 < List.length rest)%nat by (rewrite Er; cbn; lia). lia.
    + rewrite Gn. exists (map item (page ++ [r]) :: pages), db2.
      split; [reflexivity|]. split; [|exact M2].
      cbn [List.concat]. rewrite C, <- map_app, <- Es. reflexivity.
Qed.

Lemma message_id_item r :
  get "message_id" (item r) = JStr (TimeUuid_toString (row_message_id r)).
Proof. reflexivity. Qed.

(** Rows with distinct well-formed identifiers are rendered with distinct
    [message_id] strings. *)
Lemma items_NoDup l :
  Forall (fun r => wellformed (row_message_id r)) l ->
  NoDup (map row_message_id l) ->
  NoDup (map (get "message_id") (map item l)).
Proof.
  intros W N. rewrite map_map.
  rewrite (map_ext _ (fun r => JStr (TimeUuid_toString (row_message_id r)))
             message_id_item).
  rewrite <- (map_map row_message_id (fun x => JStr (TimeUuid_toString x))).
  apply ListFacts.NoDup_map_in; [|exact N].
  intros x y Ix Iy E. injection E as E.
  apply in_map_iff in Ix as (rx & <- & Ix), Iy as (ry & <- & Iy).
  destruct (proj1 (Forall_forall _ _) W rx Ix) as [Fx _].
  destruct (proj1 (Forall_forall _ _) W ry Iy) as [Fy _].
  rewrite E in Fx. congruence.
Qed.

(** ** Pagination *)

(** Paging with any limit that [parseInt] reads as a number from 1 to 100. *)
Lemma paginate_covers env channelId limit L db fuel :
  available db ->
  primary_key (messages db) ->
  Forall (fun r => wellformed (row_message_id r))
         (filter (in_channel channelId) (messages db)) ->
  1 <= Js.length channelId <= 100 ->
  Js.parseInt limit = Some L -> 1 <= L <= 100 ->
  (List.length (filter (in_channel channelId) (messages db)) < fuel)%nat ->
  exists pages db',
    paginate fuel env channelId (Some limit) None db = (Some pages, db')
    /\ List.concat pages = map item (partition channelId (messages db))
    /\ NoDup (map (get "message_id") (List.concat pages))
    /\ messages db' = messages db.
Proof.
  intros A K W Lc P R Lf.
  pose proof (partition_perm channelId (messages db)) as Pm.
  pose proof (partition_descending channelId (messages db) K) as D.
  destruct (paginate_from env channelId limit L (messages db) K Lc P R W
              fuel [] (partition channelId (messages db)) None Unbounded db
              A eq_refl eq_refl cursor_first)
    as (pages & db' & G & C & M).
  - apply ListFacts.filter_all, Forall_forall. reflexivity.
  - rewrite (Permutation_length Pm). exact Lf.
  - exists pages, db'. split; [exact G|]. split; [exact C|].
    split; [|exact M].
    rewrite C. apply items_NoDup; [|apply descending_NoDup, D].
    apply Forall_forall. intros r I. apply (Permutation_in _ Pm) in I.
    exact (proj1 (Forall_forall _ _) W r I).
Qed.

(** C2. On a store that is available and holds a fixed table, a client that
    asks for pages of [L] items, [L] from 1 to 100, passing each
    [next_before] as the next [before] until it is [null], gets through,
    with one request more than the channel has messages at most. The
    pages, put end to end, are the messages of the channel, each once, by
    strictly descending identifier; no [message_id] occurs twice, and no
    two pages share an item. The table is left as it was. *)
Theorem pagination_covers_channel env channelId L db fuel :
  available db ->
  primary_key (messages db) ->
  Forall (fun r => wellformed (row_message_id r))
         (filter (in_channel channelId) (messages db)) ->
  1 <= Js.length channelId <= 100 ->
  1 <= L <= 100 ->
  (List.length (filter (in_channel channelId) (messages db)) < fuel)%nat ->
  exists pages db',
    paginate fuel env channelId (Some (Js.toString L)) None db
    = (Some pages, db')
    /\ List.concat pages = map item (partition channelId (messages db))
    /\ Permutation (partition channelId (messages db))
                   (filter (in_channel channelId) (messages db))
    /\ List.length (List.concat pages)
       = List.length (filter (in_channel channelId) (messages db))
    /\ descending (partition channelId (messages db))
    /\ NoDup (map (get "message_id") (List.concat pages))
    /\ ForallOrdPairs (fun p q => forall x, In x p -> In x q -> False) pages
    /\ messages db' = messages db.
Proof.
  intros A K W Lc R Lf.
  destruct (paginate_covers env channelId (Js.toString L) L db fuel A K W Lc
              (JsFacts.parseInt_toString L) R Lf)
    as (pages & db' & G & C & N & M).
  pose proof (partition_perm channelId (messages db)) as Pm.
  exists pages, db'. split; [exact G|]. split; [exact C|].
  split; [exact Pm|].
  split; [rewrite C, length_map; exact (Permutation_length Pm)|].
  split; [exact (partition_descending channelId (messages db) K)|].
  split; [exact N|]. split; [|exact M].
  apply ListFacts.NoDup_concat_disjoint. exact (NoDup_map_inv _ _ N).
Qed.

End Order.


End Properties.

(** * Further behaviour of the validators, the store and the handlers *)

Module JsMore.

Lemma upper_upper_char (c : ascii) :
  Js.upper_char (Js.upper_char c) = Js.upper_char c.
Proof. destruct c as [[] [] [] [] [] [] [] []]; reflexivity. Qed.

Lemma upper_lower_char (c : ascii) :
  Js.upper_char (Js.lower_char c) = Js.upper_char c.
Proof. destruct c as [[] [] [] [] [] [] [] []]; reflexivity. Qed.

Lemma toUpperCase_idempotent (s : string) :
  Js.toUpperCase (Js.toUpperCase s) = Js.toUpperCase s.
Proof.
  induction s as [|c s IH]; [reflexivity|].
  change (String (Js.upper_char (Js.upper_char c))
            (Js.toUpperCase (Js.toUpperCase s))
          = String (Js.upper_char c) (Js.toUpperCase s)).
  rewrite upper_upper_char, IH. reflexivity.
Qed.

Lemma toUpperCase_toLowerCase (s : string) :
  Js.toUpperCase (Js.toLowerCase s) = Js.toUpperCase s.
Proof.
  induction s as [|c s IH]; [reflexivity|].
  change (String (Js.upper_char (Js.lower_char c))
            (Js.toUpperCase (Js.toLowerCase s))
          = String (Js.upper_char c) (Js.toUpperCase s)).
  rewrite upper_lower_char, IH. reflexivity.
Qed.

Lemma lower_lower_char (c : ascii) :
  Js.lower_char (Js.lower_char c) = Js.lower_char c.
Proof. destruct c as [[] [] [] [] [] [] [] []]; reflexivity. Qed.

Lemma toLowerCase_idempotent (s : string) :
  Js.toLowerCase (Js.toLowerCase s) = Js.toLowerCase s.
Proof.
  induction s as [|c s IH]; [reflexivity|].
  change (String (Js.lower_char (Js.lower_char c))
            (Js.toLowerCase (Js.toLowerCase s))
          = String (Js.lower_char c) (Js.toLowerCase s)).
  rewrite lower_lower_char, IH. reflexivity.
Qed.

Lemma truthy_toUpperCase (s : string) :
  Js.truthy (Some (Js.toUpperCase s)) = Js.truthy (Some s).
Proof. destruct s; reflexivity. Qed.

Lemma truthy_toLowerCase (s : string) :
  Js.truthy (Some (Js.toLowerCase s)) = Js.truthy (Some s).
Proof. destruct s; reflexivity. Qed.

Lemma length_trimStart (s : string) :
  (String.length (Js.trimStart s) <= String.length s)%nat.
Proof.
  induction s as [|c s IH]; cbn; [lia|].
  destruct (Js.isWhiteSpace c); cbn; lia.
Qed.

Lemma length_append_char (s : string) (c : ascii) :
  String.length (Js.append_char s c) = S (String.length s).
Proof. induction s as [|d s IH]; cbn; [reflexivity|]. rewrite IH. reflexivity. Qed.

Lemma length_reverse (s : string) :
  String.length (Js.reverse s) = String.length s.
Proof.
  induction s as [|c s IH]; cbn; [reflexivity|].
  rewrite length_append_char, IH. reflexivity.
Qed.

(** Trimming does not lengthen. *)
Lemma length_trim (s : string) : Js.length (Js.trim s) <= Js.length s.
Proof.
  unfold Js.length, Js.trim, Js.trimEnd. apply Nat2Z.inj_le.
  rewrite length_reverse.
  etransitivity; [apply length_trimStart|].
  rewrite length_reverse. apply length_trimStart.
Qed.

End JsMore.

Section Behaviour.
Context `{Cassandra}.

(** ** The Consistency Resolver and the case of the letters *)

Lemma recognized_toUpperCase (c : string) :
  recognized (Js.toUpperCase c) = recognized c.
Proof. unfold recognized. rewrite JsMore.toUpperCase_idempotent. reflexivity. Qed.

Lemma recognized_toLowerCase (c : string) :
  recognized (Js.toLowerCase c) = recognized c.
Proof. unfold recognized. rewrite JsMore.toUpperCase_toLowerCase. reflexivity. Qed.

(** X1. For any table of levels, the level that the resolver returns for a
    token does not depend on the case of its letters, and neither does
    whether it warns. *)
Theorem validateConsistency_any_case (env : Env) (c : string) :
  value (validateConsistency env (Some (Js.toUpperCase c)))
  = value (validateConsistency env (Some c))
  /\ value (validateConsistency env (Some (Js.toLowerCase c)))
     = value (validateConsistency env (Some c))
  /\ (warning (validateConsistency env (Some (Js.toUpperCase c))) = None
      <-> warning (validateConsistency env (Some c)) = None)
  /\ (warning (validateConsistency env (Some (Js.toLowerCase c))) = None
      <-> warning (validateConsistency env (Some c)) = None).
Proof.
  destruct (Js.truthy (Some c)) eqn:T.
  - destruct (recognized c) eqn:R.
    + rewrite !validateConsistency_recognized
        by (rewrite ?recognized_toUpperCase, ?recognized_toLowerCase;
            exact R).
      cbn [value warning].
      rewrite JsFacts.toLowerCase_toUpperCase,
        JsMore.toLowerCase_idempotent.
      repeat split; reflexivity.
    + rewrite !validateConsistency_unrecognized
        by (rewrite ?recognized_toUpperCase, ?recognized_toLowerCase,
              ?JsMore.truthy_toUpperCase, ?JsMore.truthy_toLowerCase;
            assumption).
      cbn [value warning]. repeat split; discriminate.
  - rewrite !validateConsistency_absent
      by (rewrite ?JsMore.truthy_toUpperCase, ?JsMore.truthy_toLowerCase;
          exact T).
    repeat split; reflexivity.
Qed.

(** ** validatePostMessage: what is turned down, what is handed on *)

Lemma validatePostMessage_unfold (body : PostBody) :
  validatePostMessage body
  = if (Z.of_nat (List.length (post_errors body)) >? 0)
    then inr (Invalid (post_errors body))
    else
      match optional_trim "body.consistency" (body_consistency body) with
      | inl e => inl e
      | inr consistency =>
          match optional_trim "body.client_msg_id"
                  (body_client_msg_id body) with
          | inl e => inl e
          | inr client_msg_id =>
              inr (Valid
                     {| data_channel_id :=
                          Js.trim (string_of (body_channel_id body));
                        data_user_id :=
                          Js.trim (string_of (body_user_id body));
                        data_content :=
                          Js.trim (string_of (body_content body));
                        data_consistency := consistency;
                        data_client_msg_id := client_msg_id |})
          end
      end.
Proof. reflexivity. Qed.

Lemma some_error {A} (errors : list A) (m : A) :
  In m errors -> (Z.of_nat (List.length errors) >? 0) = true.
Proof. destruct errors; [intros [] | intros _; reflexivity]. Qed.

Lemma no_error {A} (errors : list A) :
  (Z.of_nat (List.length errors) >? 0) = false -> errors = [].
Proof. destruct errors; [reflexivity | discriminate]. Qed.

Lemma validatePostMessage_invalid (body : PostBody) (m : string) :
  In m (post_errors body) ->
  validatePostMessage body = inr (Invalid (post_errors body)).
Proof.
  intros I. rewrite validatePostMessage_unfold, (some_error _ _ I).
  reflexivity.
Qed.

Lemma check_required_missing name max bound v :
  missing v ->
  check_required name max bound v
  = [name ++ " is required and must be a string"].
Proof.
  unfold missing, check_required. intros [-> | ->]; [reflexivity|].
  rewrite orb_true_r. reflexivity.
Qed.

Lemma check_required_too_long name max bound v :
  1 <= max -> too_long max v ->
  check_required name max bound v
  = [name ++ " must be between 1 and " ++ bound ++ " characters"].
Proof.
  intros M (s & -> & L). unfold check_required.
  rewrite JsFacts.length_pos_truthy by lia. cbn [negb orb is_string str_length].
  destruct (Z.gtb_spec (Js.length s) max); [|lia].
  rewrite orb_true_r. reflexivity.
Qed.

Lemma check_required_nil name max bound v :
  check_required name max bound v = [] ->
  exists s, v = JStr s /\ 1 <= Js.length s <= max.
Proof.
  unfold check_required.
  destruct (negb (truthy v) || negb (is_string v)) eqn:E; [discriminate|].
  apply orb_false_iff in E as [_ E]. apply negb_false_iff in E.
  destruct v; try discriminate E. cbn [str_length].
  destruct (Z.ltb_spec (Js.length s) 1); [discriminate|].
  destruct (Z.gtb_spec (Js.length s) max); [discriminate|].
  intros _. exists s. split; [reflexivity | lia].
Qed.

(** X2. What the validator lets through: the three required fields are
    strings within their bounds, the data are these strings trimmed, and
    no field of the data is longer than its bound, the client key
    included. *)
Theorem validatePostMessage_valid (body : PostBody) (data : PostData) :
  validatePostMessage body = inr (Valid data) ->
  exists channel_id user_id content,
    body_channel_id body = JStr channel_id
    /\ body_user_id body = JStr user_id
    /\ body_content body = JStr content
    /\ 1 <= Js.length channel_id <= 100
    /\ 1 <= Js.length user_id <= 100
    /\ 1 <= Js.length content <= 2000
    /\ data_channel_id data = Js.trim channel_id
    /\ data_user_id data = Js.trim user_id
    /\ data_content data = Js.trim content
    /\ Js.length (data_channel_id data) <= 100
    /\ Js.length (data_user_id data) <= 100
    /\ Js.length (data_content data) <= 2000
    /\ (forall k, data_client_msg_id data = Some k -> Js.length k <= 100).
Proof.
  rewrite validatePostMessage_unfold.
  destruct (Z.of_nat (List.length (post_errors body)) >? 0) eqn:E;
    [discriminate|].
  apply no_error in E. unfold post_errors in E.
  apply app_eq_nil in E as [E1 E]. apply app_eq_nil in E as [E2 E].
  apply app_eq_nil in E as [E3 E4].
  destruct (check_required_nil _ _ _ _ E1) as (ch & Bc & Lc).
  destruct (check_required_nil _ _ _ _ E2) as (u & Bu & Lu).
  destruct (check_required_nil _ _ _ _ E3) as (c & Bm & Lm).
  rewrite Bc, Bu, Bm. cbn [string_of].
  destruct (optional_trim "body.consistency" (body_consistency body))
    as [e|consistency]; [discriminate|].
  destruct (optional_trim "body.client_msg_id" (body_client_msg_id body))
    as [e|client_msg_id] eqn:Ek; [discriminate|].
  intros V. injection V as <-. cbn [data_channel_id data_user_id data_content
                                    data_client_msg_id].
  exists ch, u, c. repeat (split; [first [reflexivity | lia]|]).
  pose proof (JsMore.length_trim ch). pose proof (JsMore.length_trim u).
  pose proof (JsMore.length_trim c).
  repeat (split; [lia|]).
  intros k ->. destruct (body_client_msg_id body) as [| | | |s| |];
    try discriminate Ek.
  injection Ek as <-. pose proof (JsMore.length_trim s) as Ls.
  cbn [truthy is_string negb orb str_length] in E4.
  destruct (String.eqb s "") eqn:Es.
  - apply String.eqb_eq in Es. subst s. unfold Js.length in *. cbn in *. lia.
  - cbn [negb andb] in E4.
    destruct (Z.ltb_spec (Js.length s) 1); [discriminate E4|].
    destruct (Z.gtb_spec (Js.length s) 100); [discriminate E4|]. lia.
Qed.

Lemma check_required_outside name max bound v :
  ~ within_bounds max v -> check_required name max bound v <> [].
Proof.
  intros N E. apply N. destruct (check_required_nil _ _ _ _ E) as (s & V & L).
  exists s. split; assumption.
Qed.

Lemma check_key_outside (v : JsValue) :
  truthy v = true -> ~ within_bounds 100 v ->
  truthy v
  && (negb (is_string v) || (str_length v <? 1) || (str_length v >? 100))
  = true.
Proof.
  intros T N. rewrite T. cbn [andb].
  destruct v; try reflexivity; try discriminate T.
  cbn [is_string negb orb str_length].
  destruct (Z.ltb_spec (Js.length s) 1); [reflexivity|].
  destruct (Z.gtb_spec (Js.length s) 100); [reflexivity|].
  exfalso. apply N. exists s. split; [reflexivity | lia].
Qed.

Lemma out_of_bounds_error (body : PostBody) :
  out_of_bounds body -> exists m, In m (post_errors body).
Proof.
  assert (some : forall l : list string, l <> [] -> exists m, In m l).
  { intros [|m l] N; [contradiction | exists m; left; reflexivity]. }
  unfold post_errors. intros [O | [O | [O | [T O]]]].
  - destruct (some _ (check_required_outside "channel_id" 100 "100" _ O))
      as (m & I). exists m. apply in_or_app. left. exact I.
  - destruct (some _ (check_required_outside "user_id" 100 "100" _ O))
      as (m & I). exists m. apply in_or_app. right.
    apply in_or_app. left. exact I.
  - destruct (some _ (check_required_outside "content" 2000 "2000" _ O))
      as (m & I). exists m. do 2 (apply in_or_app; right).
    apply in_or_app. left. exact I.
  - eexists. do 3 (apply in_or_app; right).
    rewrite (check_key_outside _ T O). left. reflexivity.
Qed.

(** C9. The bounds are checked on the fields as sent and the fields are
    trimmed only afterwards. A body whose strings have lengths within
    the bounds is valid whatever white space they hold, the data handed
    on are the trimmed strings, and content made of white space only is
    handed on as the empty string, which the handler stores. A body with
    a field that is not within its bound as sent is turned down, also
    when the field trimmed would be within it, and the handler answers
    400 without touching the store. Whatever is accepted was within the
    bounds as sent, and the data are the fields trimmed. *)
Theorem validatePostMessage_checks_then_trims :
  (forall (channel_id user_id content : string)
          (consistency client_msg_id : option string),
      1 <= Js.length channel_id <= 100 ->
      1 <= Js.length user_id <= 100 ->
      1 <= Js.length content <= 2000 ->
      (forall k, client_msg_id = Some k -> 1 <= Js.length k <= 100) ->
      let req :=
        {| body_channel_id := JStr channel_id; body_user_id := JStr user_id;
           body_content := JStr content;
           body_consistency := field consistency;
           body_client_msg_id := field client_msg_id |} in
      let data :=
        {| data_channel_id := Js.trim channel_id;
           data_user_id := Js.trim user_id;
           data_content := Js.trim content;
           data_consistency := option_map Js.trim consistency;
           data_client_msg_id := option_map Js.trim client_msg_id |} in
      validatePostMessage req = inr (Valid data)
      /\ (Js.every Js.isWhiteSpace content = true -> Js.trim content = "")
      /\ (forall env nowId db,
            available db -> fresh_key data db ->
            exists resp db',
              post_messages env nowId req db = (Return resp, db')
              /\ In {| row_channel_id := Js.trim channel_id;
                       row_message_id := nowId;
                       row_user_id := Js.trim user_id;
                       row_content := Js.trim content;
                       row_created_at := toTimestamp nowId |}
                    (messages db')))
  /\ (forall req,
        out_of_bounds req ->
        exists errors,
          errors <> []
          /\ validatePostMessage req = inr (Invalid errors)
          /\ forall env nowId db,
               post_messages env nowId req db
               = (Return (bad_request env errors), db))
  /\ (forall req data,
        validatePostMessage req = inr (Valid data) ->
        ~ out_of_bounds req
        /\ data_channel_id data = Js.trim (string_of (body_channel_id req))
        /\ data_user_id data = Js.trim (string_of (body_user_id req))
        /\ data_content data = Js.trim (string_of (body_content req))).
Proof.
  split; [|split].
  - intros channel_id user_id content consistency client_msg_id
      Lc Lu Lm Lk.
    exact (validatePostMessage_accepts channel_id user_id content
             consistency client_msg_id Lc Lu Lm Lk).
  - intros req O. destruct (out_of_bounds_error req O) as (m & I).
    exists (post_errors req). split; [|split].
    + intros E. rewrite E in I. destruct I.
    + exact (validatePostMessage_invalid req m I).
    + intros env nowId db. unfold post_messages, catch, bind, lift.
      rewrite (validatePostMessage_invalid req m I). reflexivity.
  - intros req data V.
    assert (N : ~ out_of_bounds req).
    { intros O. destruct (out_of_bounds_error req O) as (m & I).
      rewrite (validatePostMessage_invalid req m I) in V. discriminate V. }
    split; [exact N|].
    rewrite validatePostMessage_unfold in V.
    destruct (Z.of_nat (List.length (post_errors req)) >? 0);
      [discriminate|].
    destruct (optional_trim "body.consistency" (body_consistency req));
      [discriminate|].
    destruct (optional_trim "body.client_msg_id" (body_client_msg_id req));
      [discriminate|].
    injection V as <-. repeat split.
Qed.

(** X3. A body with a required field that is missing or too long is
    answered with status 400 (200 under soft errors), the message of the
    validator for that field among [details.errors], and the database
    state untouched; the faults of the other fields are reported in the
    same response. *)
Theorem post_messages_bad_request (env : Env) (nowId : TimeUuid)
    (body : PostBody) (db : Db) :
  (forall m, In m (post_errors body) ->
     post_messages env nowId body db
     = (Return (bad_request env (post_errors body)), db))
  /\ (missing (body_channel_id body) ->
      In "channel_id is required and must be a string" (post_errors body))
  /\ (missing (body_user_id body) ->
      In "user_id is required and must be a string" (post_errors body))
  /\ (missing (body_content body) ->
      In "content is required and must be a string" (post_errors body))
  /\ (too_long 100 (body_channel_id body) ->
      In "channel_id must be between 1 and 100 characters"
         (post_errors body))
  /\ (too_long 100 (body_user_id body) ->
      In "user_id must be between 1 and 100 characters" (post_errors body))
  /\ (too_long 2000 (body_content body) ->
      In "content must be between 1 and 2000 characters" (post_errors body))
  /\ (too_long 100 (body_client_msg_id body) ->
      In "client_msg_id must be a string between 1 and 100 characters"
         (post_errors body)).
Proof.
  split.
  { intros m I. unfold post_messages, catch, bind, lift.
    rewrite (validatePostMessage_invalid body m I). reflexivity. }
  unfold post_errors.
  repeat split; intros F.
  - rewrite (check_required_missing _ _ _ _ F). left. reflexivity.
  - apply in_or_app. right.
    rewrite (check_required_missing _ _ _ _ F). left. reflexivity.
  - do 2 (apply in_or_app; right).
    rewrite (check_required_missing _ _ _ _ F). left. reflexivity.
  - rewrite (check_required_too_long _ 100 _ _ ltac:(lia) F). left. reflexivity.
  - apply in_or_app. right.
    rewrite (check_required_too_long _ 100 _ _ ltac:(lia) F). left. reflexivity.
  - do 2 (apply in_or_app; right).
    rewrite (check_required_too_long _ 2000 _ _ ltac:(lia) F). left.
    reflexivity.
  - do 3 (apply in_or_app; right). destruct F as (s & -> & L).
    rewrite JsFacts.length_pos_truthy by lia.
    cbn [is_string negb orb str_length andb].
    destruct (Z.gtb_spec (Js.length s) 100); [|lia].
    rewrite orb_true_r. left. reflexivity.
Qed.

Lemma optional_trim_untrimmable (name : string) (v : JsValue) :
  untrimmable v ->
  optional_trim name v = inl (TypeError (name ++ "?.trim is not a function")).
Proof.
  intros (U & N & S).
  destruct v; try reflexivity; try discriminate S; contradiction.
Qed.

(** X4. A body on which the validator collects no error, but whose
    [consistency] is neither absent nor a string, or whose
    [client_msg_id] is neither absent nor a string and falsy ([false] or
    0), makes [?.trim()] throw inside the validator: the handler answers
    with [fail 500] and code INTERNAL, not with 400, and the database
    state is untouched. A [client_msg_id] that is not a string and is
    truthy, such as 5, is not such a body: the validator reports it, and
    the handler answers with [fail 400] and the message for
    [client_msg_id]. *)
Theorem post_messages_type_error (env : Env) (nowId : TimeUuid)
    (body : PostBody) (db : Db) :
  (post_errors body = [] ->
   untrimmable (body_consistency body)
   \/ untrimmable (body_client_msg_id body) ->
   (exists e, validatePostMessage body = inl (TypeError e))
   /\ post_messages env nowId body db = (Return (post_failed env), db))
  /\ (post_errors body = [] -> untrimmable (body_client_msg_id body) ->
      truthy (body_client_msg_id body) = false)
  /\ (untrimmable (body_client_msg_id body) ->
      truthy (body_client_msg_id body) = true ->
      In "client_msg_id must be a string between 1 and 100 characters"
         (post_errors body)
      /\ validatePostMessage body = inr (Invalid (post_errors body))
      /\ post_messages env nowId body db
         = (Return (bad_request env (post_errors body)), db)).
Proof.
  assert (K : untrimmable (body_client_msg_id body) ->
              truthy (body_client_msg_id body) = true ->
              In "client_msg_id must be a string between 1 and 100 characters"
                 (post_errors body)).
  { intros (_ & _ & S) T. unfold post_errors.
    do 3 (apply in_or_app; right). rewrite T, S. left. reflexivity. }
  split; [|split].
  - intros E U. unfold post_messages, catch, bind, lift.
    rewrite validatePostMessage_unfold, E.
    cbn [List.length Z.of_nat Z.gtb Z.compare].
    destruct U as [U | U].
    + rewrite (optional_trim_untrimmable _ _ U).
      split; [eauto | reflexivity].
    + rewrite (optional_trim_untrimmable "body.client_msg_id" _ U).
      destruct (body_consistency body); cbn [optional_trim]; split; eauto.
  - intros E U. destruct (truthy (body_client_msg_id body)) eqn:T;
      [|reflexivity].
    pose proof (K U eq_refl) as I. rewrite E in I. destruct I.
  - intros U T. pose proof (K U T) as I. split; [exact I|].
    split; [exact (validatePostMessage_invalid body _ I)|].
    unfold post_messages, catch, bind, lift.
    rewrite (validatePostMessage_invalid body _ I). reflexivity.
Qed.

Lemma channel_guard (channelId : string) :
  1 <= Js.length channelId <= 100 ->
  negb (Js.truthy (Some channelId)) || (Js.length channelId <? 1)
  || (Js.length channelId >? 100) = false.
Proof.
  intros L. destruct channelId as [|c s].
  - unfold Js.length in L. cbn in L. lia.
  - cbn [Js.truthy negb orb].
    destruct (Z.ltb_spec (Js.length (String c s)) 1); [lia|].
    destruct (Z.gtb_spec (Js.length (String c s)) 100); [lia|]. reflexivity.
Qed.

(** X5. While the module variable [client] is unset, a message that
    passes validation and a listing that passes validation are both
    answered with status 500 and code INTERNAL; no statement is executed
    and the state is left as it was. *)
Theorem handlers_before_initialization (env : Env) (db : Db) :
  client db = false ->
  (forall nowId body data,
      validatePostMessage body = inr (Valid data) ->
      post_messages env nowId body db = (Return (post_failed env), db))
  /\ (forall channelId query data,
        1 <= Js.length channelId <= 100 ->
        validateGetMessages query = Valid data ->
        get_channel_messages env channelId query db
        = (Return (get_failed env), db)).
Proof.
  intros C. split.
  - intros nowId body data V.
    unfold post_messages, catch, bind, lift. rewrite V.
    unfold ret at 1. cbv beta iota.
    destruct (Js.given (data_client_msg_id data));
      unfold checkDedupe, insertMessage, bind, getClient; rewrite C;
      reflexivity.
  - intros channelId query data L V.
    unfold get_channel_messages, catch. rewrite (channel_guard _ L), V.
    unfold getMessages, bind, getClient. rewrite C. reflexivity.
Qed.

(** ** The statements of a request, one by one *)

Lemma checkDedupe_cases (channelId clientMsgId : string) (level : option Z)
    (db : Db) :
  checkDedupe channelId clientMsgId level db
  = let stmt := INSERT_message_dedupe_IF_NOT_EXISTS channelId clientMsgId in
    if client db then
      if serves db stmt level then
        if has_dedupe channelId clientMsgId (message_dedupe db)
        then (Return false, log stmt level db)
        else (Return true,
              {| client := client db; serves := serves db;
                 messages := messages db;
                 message_dedupe :=
                   (channelId, clientMsgId) :: message_dedupe db;
                 executed := (executed db ++ [(stmt, level)])%list |})
      else (Throw StorageError, log stmt level db)
    else (Throw (Error "Database not initialized"), db).
Proof.
  unfold checkDedupe, bind, getClient. cbv zeta.
  destruct (client db) eqn:C; [|reflexivity].
  unfold execute. cbv zeta. cbn [log serves message_dedupe].
  destruct (serves db _ level); cbn [negb]; [|reflexivity].
  destruct (has_dedupe channelId clientMsgId (message_dedupe db));
    [reflexivity|].
  unfold ret. cbn [log client messages executed applied]. rewrite C.
  reflexivity.
Qed.

Lemma insertMessage_cases (channelId : string) (messageId : TimeUuid)
    (userId content : string) (createdAt : Z) (level : option Z) (db : Db) :
  insertMessage channelId messageId userId content createdAt level db
  = let stmt :=
      INSERT_messages {| row_channel_id := channelId;
                         row_message_id := messageId;
                         row_user_id := userId; row_content := content;
                         row_created_at := createdAt |} in
    if client db then
      if serves db stmt level then
        (Return tt,
         {| client := client db; serves := serves db;
            messages :=
              upsert {| row_channel_id := channelId;
                        row_message_id := messageId;
                        row_user_id := userId; row_content := content;
                        row_created_at := createdAt |} (messages db);
            message_dedupe := message_dedupe db;
            executed := (executed db ++ [(stmt, level)])%list |})
      else (Throw StorageError, log stmt level db)
    else (Throw (Error "Database not initialized"), db).
Proof.
  unfold insertMessage, bind, getClient. cbv zeta.
  destruct (client db) eqn:C; [|reflexivity].
  unfold execute. cbv zeta. cbn [log serves].
  destruct (serves db _ level); [|reflexivity].
  unfold ret. cbn [negb log client messages executed message_dedupe].
  rewrite C. reflexivity.
Qed.

Lemma post_messages_valid_cases (env : Env) (nowId : TimeUuid)
    (body : PostBody) (data : PostData) (db : Db) :
  validatePostMessage body = inr (Valid data) ->
  post_messages env nowId body db
  = let level := value (validateConsistency env (data_consistency data)) in
    let accept db :=
      match insertMessage (data_channel_id data) nowId (data_user_id data)
              (data_content data) (toTimestamp nowId) level db with
      | (Return _, db') => (Return (accepted_response env nowId data), db')
      | (Throw _, db') => (Return (post_failed env), db')
      end in
    match Js.given (data_client_msg_id data) with
    | Some client_msg_id =>
        match checkDedupe (data_channel_id data) client_msg_id level db with
        | (Return false, db') => (Return deduplicated, db')
        | (Return true, db') => accept db'
        | (Throw _, db') => (Return (post_failed env), db')
        end
    | None => accept db
    end.
Proof.
  intros V. unfold post_messages, catch, bind, lift. rewrite V.
  unfold ret. cbv beta iota zeta.
  destruct (Js.given (data_client_msg_id data)) as [k|].
  - destruct (checkDedupe (data_channel_id data) k _ db) as [[[]|] db1];
      try reflexivity.
    cbn [negb].
    destruct (insertMessage _ _ _ _ _ _ db1) as [[[]|] db2]; reflexivity.
  - destruct (insertMessage _ _ _ _ _ _ db) as [[[]|] db2]; reflexivity.
Qed.

Lemma has_dedupe_cons (channelId clientMsgId : string)
    (table : list (string * string)) :
  has_dedupe channelId clientMsgId ((channelId, clientMsgId) :: table) = true.
Proof.
  unfold has_dedupe. cbn [existsb fst snd]. rewrite !String.eqb_refl.
  reflexivity.
Qed.

(** X6. When the key of a message is recorded but the insert of the
    message itself fails, the client is told 500 and no row is stored,
    yet the key stays: a retry of the request is then answered as a
    duplicate, and the message is never stored. *)
Theorem post_messages_failed_insert_keeps_key (env : Env)
    (nowId nowId' : TimeUuid) (body : PostBody) (data : PostData)
    (k : string) (db : Db) :
  validatePostMessage body = inr (Valid data) ->
  Js.given (data_client_msg_id data) = Some k ->
  client db = true ->
  has_dedupe (data_channel_id data) k (message_dedupe db) = false ->
  serves db (INSERT_message_dedupe_IF_NOT_EXISTS (data_channel_id data) k)
    (value (validateConsistency env (data_consistency data))) = true ->
  serves db (INSERT_messages (stored_row nowId data))
    (value (validateConsistency env (data_consistency data))) = false ->
  exists db1 db2,
    post_messages env nowId body db = (Return (post_failed env), db1)
    /\ messages db1 = messages db
    /\ has_dedupe (data_channel_id data) k (message_dedupe db1) = true
    /\ post_messages env nowId' body db1 = (Return deduplicated, db2)
    /\ messages db2 = messages db.
Proof.
  intros V G C F S1 S2.
  rewrite !(post_messages_valid_cases _ _ _ _ _ V), G. cbv zeta.
  rewrite checkDedupe_cases. cbv zeta. rewrite C, S1, F.
  rewrite insertMessage_cases. cbv zeta. cbn [client serves].
  unfold stored_row in S2. rewrite S2.
  do 2 eexists. split; [reflexivity|].
  split; [reflexivity|]. split; [apply has_dedupe_cons|].
  rewrite (post_messages_valid_cases _ _ _ _ _ V), G. cbv zeta.
  rewrite checkDedupe_cases. cbv zeta.
  cbn [log client serves message_dedupe]. rewrite S1, has_dedupe_cons.
  split; reflexivity.
Qed.

(** X7. A message with a client key that is accepted is stored once: a
    later request for the same channel with the same key, whatever its
    user and content, is answered as a duplicate and leaves the table of
    messages as the first request left it. *)
Theorem post_messages_retry_stores_once (env : Env) (nowId nowId' : TimeUuid)
    (body body' : PostBody) (data data' : PostData) (k : string) (db : Db) :
  validatePostMessage body = inr (Valid data) ->
  validatePostMessage body' = inr (Valid data') ->
  Js.given (data_client_msg_id data) = Some k ->
  Js.given (data_client_msg_id data') = Some k ->
  data_channel_id data' = data_channel_id data ->
  available db ->
  has_dedupe (data_channel_id data) k (message_dedupe db) = false ->
  exists db1 db2,
    post_messages env nowId body db
    = (Return (accepted_response env nowId data), db1)
    /\ messages db1 = upsert (stored_row nowId data) (messages db)
    /\ post_messages env nowId' body' db1 = (Return deduplicated, db2)
    /\ messages db2 = messages db1.
Proof.
  intros V V' G G' E [C S] F.
  rewrite (post_messages_valid_cases _ _ _ _ _ V), G. cbv zeta.
  rewrite checkDedupe_cases. cbv zeta. rewrite C, S, F.
  rewrite insertMessage_cases. cbv zeta. cbn [client serves].
  rewrite S.
  do 2 eexists. split; [reflexivity|]. split; [reflexivity|].
  rewrite (post_messages_valid_cases _ _ _ _ _ V'), G', E. cbv zeta.
  rewrite checkDedupe_cases. cbv zeta.
  cbn [client serves message_dedupe]. rewrite S, has_dedupe_cons.
  split; reflexivity.
Qed.

Lemma getMessages_cases (channelId : string) (limit : Z)
    (before after : option string) (level : option Z) (db : Db) :
  getMessages channelId limit before after level db
  = let level := match level with
                 | None => consistencies "one"
                 | Some _ => level
                 end in
    if client db then
      match bound_of before after with
      | Some bound =>
          let stmt := SELECT_messages channelId bound limit in
          if serves db stmt level && negb (limit <=? 0)
          then (Return (select channelId bound limit (messages db)),
                log stmt level db)
          else (Throw StorageError, log stmt level db)
      | None =>
          (Throw (Error "Invalid string representation of TimeUuid"), db)
      end
    else (Throw (Error "Database not initialized"), db).
Proof.
  unfold getMessages, bound_of, bind, getClient, fromString. cbv zeta.
  destruct (client db); [|reflexivity].
  assert (run : forall bound level,
             match execute (SELECT_messages channelId bound limit) level db
             with
             | (Return a, s') => ret (rows a) s'
             | (Throw e, s') => (Throw e, s')
             end
             = if serves db (SELECT_messages channelId bound limit) level
                  && negb (limit <=? 0)
               then (Return (select channelId bound limit (messages db)),
                     log (SELECT_messages channelId bound limit) level db)
               else (Throw StorageError,
                     log (SELECT_messages channelId bound limit) level db)).
  { intros bound lv. unfold execute. cbv zeta. cbn [log serves messages].
    destruct (serves db _ lv); cbn [negb andb]; [|reflexivity].
    destruct (limit <=? 0); reflexivity. }
  destruct (Js.given before) as [b|].
  - destruct (TimeUuid_fromString b); cbn [option_map]; [|reflexivity].
    unfold ret at 1 2. apply run.
  - destruct (Js.given after) as [a|].
    + destruct (TimeUuid_fromString a); cbn [option_map]; [|reflexivity].
      unfold ret at 1 2. apply run.
    + unfold ret at 1 2. apply run.
Qed.

Lemma get_channel_messages_cases (env : Env) (channelId : string)
    (query : GetMessagesQuery) (db : Db) :
  get_channel_messages env channelId query db
  = if negb (Js.truthy (Some channelId)) || (Js.length channelId <? 1)
       || (Js.length channelId >? 100)
    then (Return (bad_channel env), db)
    else
      match validateGetMessages query with
      | Invalid errors => (Return (bad_query env errors), db)
      | Valid data =>
          match getMessages channelId (get_limit data) (get_before data)
                  (get_after data) (value (read_level env data)) db with
          | (Return rows, db') =>
              (Return (listing rows (read_level env data)), db')
          | (Throw _, db') => (Return (get_failed env), db')
          end
      end.
Proof.
  unfold get_channel_messages, catch, bind.
  destruct (negb (Js.truthy (Some channelId)) || (Js.length channelId <? 1)
            || (Js.length channelId >? 100)); [reflexivity|].
  destruct (validateGetMessages query) as [errors|data]; [reflexivity|].
  cbv zeta. fold (read_level env data).
  destruct (getMessages _ _ _ _ _ db) as [[rows|e] db']; reflexivity.
Qed.

Lemma filter_upsert_other (channelId : string) (r : Row) (table : list Row) :
  row_channel_id r <> channelId ->
  filter (in_channel channelId) (upsert r table)
  = filter (in_channel channelId) table.
Proof.
  intros N. unfold upsert. cbn [filter]. unfold in_channel at 1.
  destruct (String.eqb_spec (row_channel_id r) channelId); [contradiction|].
  induction table as [|x table IH]; [reflexivity|]. cbn [filter].
  unfold same_key at 1.
  destruct (String.eqb_spec (row_channel_id r) (row_channel_id x)) as [E|E];
    cbn [andb negb].
  - assert (X : in_channel channelId x = false).
    { unfold in_channel. apply String.eqb_neq. congruence. }
    rewrite X.
    destruct (timeuuid_eqb (row_message_id r) (row_message_id x));
      cbn [negb filter]; rewrite ?X; exact IH.
  - cbn [filter]. rewrite IH. reflexivity.
Qed.

Lemma select_same_channel (channelId : string) (bound : Bound) (limit : Z)
    (t1 t2 : list Row) :
  filter (in_channel channelId) t1 = filter (in_channel channelId) t2 ->
  select channelId bound limit t1 = select channelId bound limit t2.
Proof. intros E. unfold select, partition. rewrite E. reflexivity. Qed.

Lemma get_channel_messages_same (env : Env) (channelId : string)
    (query : GetMessagesQuery) (db1 db2 : Db) :
  client db1 = client db2 -> serves db1 = serves db2 ->
  filter (in_channel channelId) (messages db1)
  = filter (in_channel channelId) (messages db2) ->
  fst (get_channel_messages env channelId query db1)
  = fst (get_channel_messages env channelId query db2).
Proof.
  intros C S E. rewrite !get_channel_messages_cases.
  destruct (negb (Js.truthy (Some channelId)) || (Js.length channelId <? 1)
            || (Js.length channelId >? 100)); [reflexivity|].
  destruct (validateGetMessages query) as [errors|data]; [reflexivity|].
  rewrite !getMessages_cases. cbv zeta. rewrite C, S.
  destruct (client db2); [|reflexivity].
  destruct (bound_of (get_before data) (get_after data)) as [bound|];
    [|reflexivity].
  rewrite (select_same_channel _ _ _ _ _ E).
  destruct (serves db2 _ _ && negb (get_limit data <=? 0)); reflexivity.
Qed.

(** What a message request does to the state, whatever the request. *)
Lemma post_messages_effect (env : Env) (nowId : TimeUuid) (body : PostBody)
    (db : Db) :
  exists resp db',
    post_messages env nowId body db = (Return resp, db')
    /\ client db' = client db /\ serves db' = serves db
    /\ (messages db' = messages db
        \/ exists data,
             validatePostMessage body = inr (Valid data)
             /\ resp = accepted_response env nowId data
             /\ messages db' = upsert (stored_row nowId data) (messages db))
    /\ (message_dedupe db' = message_dedupe db
        \/ exists data k,
             validatePostMessage body = inr (Valid data)
             /\ Js.given (data_client_msg_id data) = Some k
             /\ has_dedupe (data_channel_id data) k (message_dedupe db)
                = false
             /\ message_dedupe db'
                = (data_channel_id data, k) :: message_dedupe db)
    /\ exists l,
         executed db' = (executed db ++ l)%list
         /\ (List.length l <= 2)%nat
         /\ forallb (fun s => is_insert (fst s)) l = true.
Proof.
  assert (stay : forall resp,
             exists resp' db',
               (Return resp, db) = (Return resp', db')
               /\ client db' = client db /\ serves db' = serves db
               /\ (messages db' = messages db
                   \/ exists data,
                        validatePostMessage body = inr (Valid data)
                        /\ resp' = accepted_response env nowId data
                        /\ messages db'
                           = upsert (stored_row nowId data) (messages db))
               /\ (message_dedupe db' = message_dedupe db
                   \/ exists data k,
                        validatePostMessage body = inr (Valid data)
                        /\ Js.given (data_client_msg_id data) = Some k
                        /\ has_dedupe (data_channel_id data) k
                             (message_dedupe db) = false
                        /\ message_dedupe db'
                           = (data_channel_id data, k) :: message_dedupe db)
               /\ exists l,
                    executed db' = (executed db ++ l)%list
                    /\ (List.length l <= 2)%nat
                    /\ forallb (fun s => is_insert (fst s)) l = true).
  { intros resp. exists resp, db. repeat split; auto.
    exists []. rewrite app_nil_r. repeat split; auto. }
  destruct (validatePostMessage body) as [e|[errors|data]] eqn:V.
  - unfold post_messages, catch, bind, lift. rewrite V. apply stay.
  - unfold post_messages, catch, bind, lift. rewrite V. apply stay.
  - rewrite (post_messages_valid_cases _ _ _ _ _ V). cbv zeta.
    destruct (Js.given (data_client_msg_id data)) as [k|] eqn:G.
    + rewrite checkDedupe_cases. cbv zeta.
      destruct (client db) eqn:C; [|apply stay].
      destruct (serves db _ _) eqn:S1.
      * destruct (has_dedupe _ k (message_dedupe db)) eqn:F.
        -- do 2 eexists. split; [reflexivity|]. cbn [log client serves
             messages message_dedupe executed]. repeat split; auto.
           eexists [_]. repeat split; auto.
        -- rewrite insertMessage_cases. cbv zeta. cbn [client serves].
           destruct (serves db (INSERT_messages _) _) eqn:S2.
           ++ do 2 eexists. split; [reflexivity|]. cbn [log client serves
                messages message_dedupe executed]. repeat split; auto.
              ** right. exists data. repeat split; auto.
              ** right. exists data, k. repeat split; auto.
              ** eexists [_; _]. rewrite <- app_assoc. repeat split; auto.
           ++ do 2 eexists. split; [reflexivity|]. cbn [log client serves
                messages message_dedupe executed]. repeat split; auto.
              ** right. exists data, k. repeat split; auto.
              ** eexists [_; _]. rewrite <- app_assoc. repeat split; auto.
      * do 2 eexists. split; [reflexivity|]. cbn [log client serves
          messages message_dedupe executed]. repeat split; auto.
        eexists [_]. repeat split; auto.
    + rewrite insertMessage_cases. cbv zeta.
      destruct (client db) eqn:C; [|apply stay].
      destruct (serves db _ _) eqn:S2.
      * do 2 eexists. split; [reflexivity|]. cbn [log client serves
          messages message_dedupe executed]. repeat split; auto.
        -- right. exists data. repeat split; auto.
        -- eexists [_]. repeat split; auto.
      * do 2 eexists. split; [reflexivity|]. cbn [log client serves
          messages message_dedupe executed]. repeat split; auto.
        eexists [_]. repeat split; auto.
Qed.

(** What a listing does to the state, whatever the request. *)
Lemma get_channel_messages_effect (env : Env) (channelId : string)
    (query : GetMessagesQuery) (db : Db) :
  exists resp db',
    get_channel_messages env channelId query db = (Return resp, db')
    /\ client db' = client db /\ serves db' = serves db
    /\ messages db' = messages db
    /\ message_dedupe db' = message_dedupe db
    /\ (executed db' = executed db
        \/ exists bound limit level,
             executed db'
             = (executed db
                ++ [(SELECT_messages channelId bound limit, level)])%list).
Proof.
  rewrite get_channel_messages_cases.
  destruct (negb (Js.truthy (Some channelId)) || (Js.length channelId <? 1)
            || (Js.length channelId >? 100));
    [do 2 eexists; repeat split; auto|].
  destruct (validateGetMessages query) as [errors|data];
    [do 2 eexists; repeat split; auto|].
  rewrite getMessages_cases. cbv zeta.
  destruct (client db) eqn:C; [|do 2 eexists; repeat split; auto].
  destruct (bound_of (get_before data) (get_after data)) as [bound|];
    [|do 2 eexists; repeat split; auto].
  destruct (serves db _ _ && negb (get_limit data <=? 0));
    do 2 eexists; (split; [reflexivity|]); cbn [log client serves messages
      message_dedupe executed]; repeat split; eauto.
Qed.

(** X8. A message posted to one channel changes nothing for another
    channel: every [SELECT] on the other channel returns the rows it
    returned before, and every listing of the other channel is answered
    as it would have been answered before. *)
Theorem post_messages_other_channels (env : Env) (nowId : TimeUuid)
    (body : PostBody) (db : Db) (channelId : string) :
  (forall data, validatePostMessage body = inr (Valid data) ->
                data_channel_id data <> channelId) ->
  exists resp db',
    post_messages env nowId body db = (Return resp, db')
    /\ (forall bound limit,
          select channelId bound limit (messages db')
          = select channelId bound limit (messages db))
    /\ (forall env' query,
          fst (get_channel_messages env' channelId query db')
          = fst (get_channel_messages env' channelId query db)).
Proof.
  intros N.
  destruct (post_messages_effect env nowId body db)
    as (resp & db' & E & C & S & Ms & _).
  assert (F : filter (in_channel channelId) (messages db')
              = filter (in_channel channelId) (messages db)).
  { destruct Ms as [-> | (data & V & _ & ->)]; [reflexivity|].
    apply filter_upsert_other. exact (N data V). }
  exists resp, db'. split; [exact E|]. split.
  - intros bound limit. apply select_same_channel, F.
  - intros env' query. apply get_channel_messages_same; assumption.
Qed.

(** X9. A listing never writes: whatever the channel, the query and the
    state, the handler answers without throwing, leaves both tables and
    the connection as they were, and executes at most one statement, a
    [SELECT] on the channel of the request. *)
Theorem get_channel_messages_reads_only (env : Env) (channelId : string)
    (query : GetMessagesQuery) (db : Db) :
  exists resp db',
    get_channel_messages env channelId query db = (Return resp, db')
    /\ client db' = client db /\ serves db' = serves db
    /\ messages db' = messages db
    /\ message_dedupe db' = message_dedupe db
    /\ (executed db' = executed db
        \/ exists bound limit level,
             executed db'
             = (executed db
                ++ [(SELECT_messages channelId bound limit, level)])%list).
Proof. apply get_channel_messages_effect. Qed.

Lemma has_dedupe_cons_other (c k c' k' : string)
    (table : list (string * string)) :
  has_dedupe c k table = true -> has_dedupe c k ((c', k') :: table) = true.
Proof.
  unfold has_dedupe. cbn [existsb]. intros ->. apply orb_true_r.
Qed.

Lemma handle_effect (env : Env) (request : Request) (db : Db) :
  client (snd (handle env request db)) = client db
  /\ serves (snd (handle env request db)) = serves db
  /\ forall c k, has_dedupe c k (message_dedupe db) = true ->
                 has_dedupe c k
                   (message_dedupe (snd (handle env request db))) = true.
Proof.
  destruct request as [nowId body | channelId query]; cbn [handle].
  - destruct (post_messages_effect env nowId body db)
      as (resp & db' & -> & C & S & _ & D & _). cbn [snd].
    repeat split; auto. intros c k Hk.
    destruct D as [-> | (data & k' & _ & _ & _ & ->)]; [exact Hk|].
    apply has_dedupe_cons_other, Hk.
  - destruct (get_channel_messages_effect env channelId query db)
      as (resp & db' & -> & C & S & _ & D & _). cbn [snd].
    rewrite D. repeat split; auto.
Qed.

Lemma serve_effect (env : Env) (requests : list Request) (db : Db) :
  client (serve env requests db) = client db
  /\ serves (serve env requests db) = serves db
  /\ forall c k, has_dedupe c k (message_dedupe db) = true ->
                 has_dedupe c k (message_dedupe (serve env requests db))
                 = true.
Proof.
  revert db. induction requests as [|request requests IH]; intros db;
    cbn [serve]; [auto|].
  destruct (handle_effect env request db) as (C & S & D).
  destruct (IH (snd (handle env request db))) as (C' & S' & D').
  rewrite C', S'. auto.
Qed.

(** X10. A client key is never released: once a key is recorded for a
    channel, then after any sequence of further requests to the two
    endpoints a message for this channel with this key is answered as a
    duplicate, whatever its content, and is not stored. *)
Theorem post_messages_key_stays (env : Env) (requests : list Request)
    (nowId : TimeUuid) (body : PostBody) (data : PostData) (k : string)
    (db : Db) :
  available db ->
  has_dedupe (data_channel_id data) k (message_dedupe db) = true ->
  validatePostMessage body = inr (Valid data) ->
  Js.given (data_client_msg_id data) = Some k ->
  exists db',
    post_messages env nowId body (serve env requests db)
    = (Return deduplicated, db')
    /\ messages db' = messages (serve env requests db)
    /\ message_dedupe db' = message_dedupe (serve env requests db).
Proof.
  intros [C S] F V G.
  destruct (serve_effect env requests db) as (C' & S' & D').
  rewrite (post_messages_valid_cases _ _ _ _ _ V), G. cbv zeta.
  rewrite checkDedupe_cases. cbv zeta.
  rewrite C', C, S', S, (D' _ _ F).
  eexists. split; [reflexivity|]. split; reflexivity.
Qed.

(** X11. A message request never reads and never forgets: whatever the
    body and the state, the handler answers without throwing, executes
    at most two statements, none of them a [SELECT], keeps every client
    key that was recorded, and changes the table of messages, if at all,
    by writing the one row of an accepted message. *)
Theorem post_messages_writes_only (env : Env) (nowId : TimeUuid)
    (body : PostBody) (db : Db) :
  exists resp db',
    post_messages env nowId body db = (Return resp, db')
    /\ (messages db' = messages db
        \/ exists data,
             validatePostMessage body = inr (Valid data)
             /\ resp = accepted_response env nowId data
             /\ messages db' = upsert (stored_row nowId data) (messages db))
    /\ (forall c k, has_dedupe c k (message_dedupe db) = true ->
                    has_dedupe c k (message_dedupe db') = true)
    /\ exists l,
         executed db' = (executed db ++ l)%list
         /\ (List.length l <= 2)%nat
         /\ forallb (fun s => is_insert (fst s)) l = true.
Proof.
  destruct (post_messages_effect env nowId body db)
    as (resp & db' & E & _ & _ & Ms & D & L).
  exists resp, db'. repeat split; auto.
  intros c k Hk. destruct D as [-> | (data & k' & _ & _ & _ & ->)];
    [exact Hk|]. apply has_dedupe_cons_other, Hk.
Qed.

(** ** validateGetMessages: what is handed on *)

(** X12. What the validator of a listing lets through: the limit is the
    number that [parseInt] reads in [limit], or 20 when [limit] is absent
    or empty, and lies between 1 and 100; at most one cursor is given,
    and a cursor that is given has the form of a UUID; cursors and
    consistency are handed on as they came. *)
Theorem validateGetMessages_valid (query : GetMessagesQuery)
    (data : GetData) :
  validateGetMessages query = Valid data ->
  limit_of query = Some (get_limit data)
  /\ 1 <= get_limit data <= 100
  /\ (Js.truthy (query_limit query) = false -> get_limit data = 20)
  /\ get_before data = query_before query
  /\ get_after data = query_after query
  /\ get_consistency data = query_consistency query
  /\ (Js.truthy (query_before query) = false
      \/ Js.truthy (query_after query) = false)
  /\ (forall b, Js.given (query_before query) = Some b ->
                test uuidRegex b = true)
  /\ (forall a, Js.given (query_after query) = Some a ->
                test uuidRegex a = true).
Proof.
  unfold validateGetMessages. cbv zeta.
  match goal with
  | |- (if ?c then _ else _) = _ -> _ => destruct c eqn:E
  end; [discriminate|].
  apply no_error in E.
  apply app_eq_nil in E as [E1 E]. apply app_eq_nil in E as [E2 E].
  apply app_eq_nil in E as [E3 E4].
  intros V. injection V as <-.
  cbn [get_limit get_before get_after get_consistency].
  destruct (limit_of query) as [n|] eqn:L; [|discriminate E1].
  destruct (Z.ltb_spec n 1); [discriminate E1|].
  destruct (Z.gtb_spec n 100); [discriminate E1|].
  split; [reflexivity|]. split; [lia|]. split.
  { intros T. unfold limit_of, Js.given in L. rewrite T in L. congruence. }
  do 3 (split; [reflexivity|]). split.
  { destruct (Js.truthy (query_before query)); [|auto].
    destruct (Js.truthy (query_after query)); [discriminate E2 | auto]. }
  split.
  - intros b G. rewrite G in E3.
    destruct (test uuidRegex b); [reflexivity | discriminate E3].
  - intros a G. rewrite G in E4.
    destruct (test uuidRegex a); [reflexivity | discriminate E4].
Qed.

Lemma get_listing (rows : list Row) (r : ConsistencyResult) :
  get "ok" (body (listing rows r)) = JBool true
  /\ get "items" (body (listing rows r)) = JArr (map item rows)
  /\ get "next_before" (get "page" (body (listing rows r)))
     = next_before (map item rows).
Proof.
  unfold listing, json, with_warning. cbn [body].
  destruct (warning r) as [w|]; [destruct (Js.truthy (Some w))|];
    repeat split; reflexivity.
Qed.

Lemma next_before_rows (rows : list Row) :
  next_before (map item rows)
  = match rev rows with
    | [] => JNull
    | r :: _ => JStr (TimeUuid_toString (row_message_id r))
    end.
Proof.
  destruct (rev rows) as [|r l] eqn:E.
  - apply (f_equal (@rev Row)) in E. rewrite rev_involutive in E.
    subst rows. reflexivity.
  - apply (f_equal (@rev Row)) in E. rewrite rev_involutive in E.
    subst rows. cbn [rev]. apply next_before_last.
Qed.

(** ** The rows of a page, and the primary key *)

Section Listing.
Hypothesis order : timeuuid_order.

Lemma select_newest (channelId : string) (bound : Bound) (limit : Z)
    (table : list Row) :
  primary_key table -> 1 <= limit ->
  Z.of_nat (List.length (select channelId bound limit table)) <= limit
  /\ Forall (fun r => In r table /\ row_channel_id r = channelId
                      /\ in_bound bound r = true)
            (select channelId bound limit table)
  /\ descending (select channelId bound limit table)
  /\ forall r r',
       In r table -> row_channel_id r = channelId ->
       in_bound bound r = true ->
       ~ In r (select channelId bound limit table) ->
       In r' (select channelId bound limit table) ->
       newer r' r.
Proof.
  intros K L. unfold select.
  set (candidates := filter (in_bound bound) (partition channelId table)).
  assert (D : descending candidates)
    by (apply descending_filter, partition_descending; assumption).
  split; [|split; [|split]].
  - rewrite length_firstn. lia.
  - apply Forall_forall. intros r I. apply ListFacts.In_firstn in I.
    apply filter_In in I as [I B].
    apply (Permutation_in _ (partition_perm channelId table)) in I.
    apply filter_In in I as [I E]. repeat split; auto.
    apply String.eqb_eq. exact E.
  - apply descending_firstn, D.
  - intros r r' Ir Cr Br Nr Ir'.
    assert (Ia : In r candidates).
    { apply filter_In. split; [|exact Br].
      apply (Permutation_in _ (Permutation_sym
                                 (partition_perm channelId table))).
      apply filter_In. split; [exact Ir|]. apply String.eqb_eq. exact Cr. }
    rewrite <- (firstn_skipn (Z.to_nat limit) candidates) in Ia, D.
    apply in_app_or in Ia as [Ia|Ia]; [contradiction|].
    exact (proj2 (proj2 (descending_app_inv _ _ D)) r' r Ir' Ia).
Qed.

Lemma handle_primary_key (env : Env) (request : Request) (db : Db) :
  primary_key (messages db) ->
  primary_key (messages (snd (handle env request db))).
Proof.
  intros K. destruct request as [nowId body | channelId query];
    cbn [handle].
  - destruct (post_messages_effect env nowId body db)
      as (resp & db' & -> & _ & _ & Ms & _). cbn [snd].
    destruct Ms as [-> | (data & _ & _ & ->)]; [exact K|].
    apply upsert_primary_key; assumption.
  - destruct (get_channel_messages_effect env channelId query db)
      as (resp & db' & -> & _ & _ & Ms & _). cbn [snd]. rewrite Ms. exact K.
Qed.

(** X14. The primary key of [messages] is an invariant of the service:
    if no two rows share channel and identifier, then the same holds
    after any sequence of requests to the two endpoints, whatever the
    identifiers that the driver hands out. *)
Theorem serve_primary_key (env : Env) (requests : list Request) (db : Db) :
  primary_key (messages db) ->
  primary_key (messages (serve env requests db)).
Proof.
  revert db. induction requests as [|request requests IH]; intros db K;
    cbn [serve]; [exact K|].
  apply IH, handle_primary_key, K.
Qed.

End Listing.

(** ** Statuses *)

Lemma post_messages_responses (env : Env) (nowId : TimeUuid)
    (req : PostBody) (db : Db) :
  exists resp db',
    post_messages env nowId req db = (Return resp, db')
    /\ (resp = bad_request env (post_errors req) \/ resp = post_failed env
        \/ resp = deduplicated
        \/ exists data, resp = accepted_response env nowId data).
Proof.
  destruct (validatePostMessage req) as [e|[errors|data]] eqn:V.
  - unfold post_messages, catch, bind, lift. rewrite V.
    do 2 eexists. split; [reflexivity|]. right. left. reflexivity.
  - unfold post_messages, catch, bind, lift. rewrite V.
    do 2 eexists. split; [reflexivity|]. left.
    rewrite validatePostMessage_unfold in V.
    destruct (Z.of_nat (List.length (post_errors req)) >? 0).
    + injection V as <-. reflexivity.
    + destruct (optional_trim "body.consistency" (body_consistency req));
        [discriminate|].
      destruct (optional_trim "body.client_msg_id"
                  (body_client_msg_id req)); discriminate.
  - rewrite (post_messages_valid_cases _ _ _ _ _ V). cbv zeta.
    destruct (Js.given (data_client_msg_id data)) as [k|].
    + destruct (checkDedupe _ k _ db) as [[[]|] db1].
      * destruct (insertMessage _ _ _ _ _ _ db1) as [[[]|] db2];
          do 2 eexists; (split; [reflexivity|]); eauto 6.
      * do 2 eexists. split; [reflexivity|]. auto.
      * do 2 eexists. split; [reflexivity|]. auto.
    + destruct (insertMessage _ _ _ _ _ _ db) as [[[]|] db2];
        do 2 eexists; (split; [reflexivity|]); eauto 6.
Qed.

Lemma get_channel_messages_responses (env : Env) (channelId : string)
    (query : GetMessagesQuery) (db : Db) :
  exists resp db',
    get_channel_messages env channelId query db = (Return resp, db')
    /\ (resp = bad_channel env \/ (exists errors, resp = bad_query env errors)
        \/ resp = get_failed env
        \/ exists rows r, resp = listing rows r).
Proof.
  rewrite get_channel_messages_cases.
  destruct (negb (Js.truthy (Some channelId)) || (Js.length channelId <? 1)
            || (Js.length channelId >? 100));
    [do 2 eexists; split; [reflexivity | auto]|].
  destruct (validateGetMessages query) as [errors|data];
    [do 2 eexists; split; [reflexivity | eauto]|].
  destruct (getMessages _ _ _ _ _ db) as [[rows|e] db'];
    do 2 eexists; (split; [reflexivity|]); eauto 7.
Qed.

Lemma fail_status (env : Env) (code : Z) (error : JsValue) :
  status (fail env code error) = if soft_errors env then 200 else code.
Proof. reflexivity. Qed.

Lemma accepted_ok (env : Env) (nowId : TimeUuid) (data : PostData) :
  get "ok" (body (accepted_response env nowId data)) = JBool true.
Proof.
  unfold accepted_response, with_warning. cbn [body].
  destruct (warning _) as [w|]; [destruct (Js.truthy (Some w))|];
    reflexivity.
Qed.

(** X17. Status and [ok] of the two endpoints, whatever the request and
    the state: the handler answers without throwing; [ok] is [true] or
    [false]; a response with [ok: true] has status 200; a response with
    [ok: false] has status 400 or 500, or 200 when USE_SOFT_ERRORS is
    'true', so that then every response has status 200. *)
Theorem handle_status (env : Env) (request : Request) (db : Db) :
  exists resp db',
    handle env request db = (Return resp, db')
    /\ ((get "ok" (body resp) = JBool true /\ status resp = 200)
        \/ (get "ok" (body resp) = JBool false
            /\ has "error" (body resp) = true
            /\ (status resp = if soft_errors env then 200 else 400)
            /\ get "code" (get "error" (body resp)) = JStr "BAD_REQUEST")
        \/ (get "ok" (body resp) = JBool false
            /\ has "error" (body resp) = true
            /\ (status resp = if soft_errors env then 200 else 500)
            /\ get "code" (get "error" (body resp)) = JStr "INTERNAL"))
    /\ (soft_errors env = true -> status resp = 200).
Proof.
  destruct request as [nowId req | channelId query]; cbn [handle].
  - destruct (post_messages_responses env nowId req db)
      as (resp & db' & E & [-> | [-> | [-> | (data & ->)]]]);
      eexists; exists db'; (split; [exact E|]).
    + split; [right; left; repeat split|].
      intros S. unfold bad_request. rewrite fail_status, S. reflexivity.
    + split; [right; right; repeat split|].
      intros S. unfold post_failed. rewrite fail_status, S. reflexivity.
    + split; [left; split; reflexivity | reflexivity].
    + split; [left; split; [apply accepted_ok | reflexivity]
             | reflexivity].
  - destruct (get_channel_messages_responses env channelId query db)
      as (resp & db' & E & [-> | [(errors & ->) | [-> | (rows & r & ->)]]]);
      eexists; exists db'; (split; [exact E|]).
    + split; [right; left; repeat split|].
      intros S. unfold bad_channel. rewrite fail_status, S. reflexivity.
    + split; [right; left; repeat split|].
      intros S. unfold bad_query. rewrite fail_status, S. reflexivity.
    + split; [right; right; repeat split|].
      intros S. unfold get_failed. rewrite fail_status, S. reflexivity.
    + split; [left; split; [apply get_listing | reflexivity]
             | reflexivity].
Qed.

(** ** The token of a write is trimmed, that of a read is not *)

Lemma trim_truthy (s : string) :
  Js.truthy (Some (Js.trim s)) = true -> Js.truthy (Some s) = true.
Proof. destruct s; [intros T; exact T | reflexivity]. Qed.

(** X19. A consistency token with white space around it is treated
    differently by the two endpoints: the message endpoint trims it and
    writes at the level of the token without a warning, while the
    listing endpoint takes it as it came, does not recognize it, warns
    and reads at the write default. *)
Theorem consistency_trimmed_on_write_only (env : Env) (s : string) :
  recognized (Js.trim s) = true -> recognized s = false ->
  (forall req data,
      validatePostMessage req = inr (Valid data) ->
      body_consistency req = JStr s ->
      validateConsistency env (data_consistency data)
      = {| value := consistencies (Js.toLowerCase (Js.trim s));
           warning := None |})
  /\ (forall query data,
        validateGetMessages query = Valid data ->
        query_consistency query = Some s ->
        read_level env data
        = {| value := consistencies (Js.toLowerCase (default_write env));
             warning := Some ("Invalid consistency level '" ++ s
                              ++ "', using default '" ++ default_write env
                              ++ "'") |}).
Proof.
  intros R N. split.
  - intros req data V B. rewrite validatePostMessage_unfold in V.
    destruct (Z.of_nat (List.length (post_errors req)) >? 0);
      [discriminate|].
    rewrite B in V. cbn [optional_trim] in V.
    destruct (optional_trim "body.client_msg_id" (body_client_msg_id req));
      [discriminate|].
    injection V as <-. cbn [data_consistency].
    apply validateConsistency_recognized, R.
  - intros query data V Q. unfold validateGetMessages in V. cbv zeta in V.
    match type of V with
    | (if ?c then _ else _) = _ => destruct c
    end; [discriminate|]. injection V as <-.
    unfold read_level. cbn [get_consistency]. rewrite Q.
    apply list_token_unrecognized; [|exact N].
    apply trim_truthy, recognized_truthy, R.
Qed.

(** ** Messages without a client key *)

(** X21. Without a client key nothing is deduplicated: a message whose
    [client_msg_id] is absent, empty or white space only is stored by a
    single [INSERT] with no statement on [message_dedupe], and the same
    body posted again is stored again, under the identifier that the
    second request is given. *)
Theorem post_messages_without_key (env : Env) (nowId nowId' : TimeUuid)
    (req : PostBody) (data : PostData) (db : Db) :
  validatePostMessage req = inr (Valid data) ->
  available db ->
  timeuuid_eqb nowId' nowId = false ->
  (body_client_msg_id req = JUndefined
   \/ exists s, body_client_msg_id req = JStr s
                /\ Js.every Js.isWhiteSpace s = true) ->
  exists db1 db2,
    post_messages env nowId req db
    = (Return (accepted_response env nowId data), db1)
    /\ post_messages env nowId' req db1
       = (Return (accepted_response env nowId' data), db2)
    /\ In (stored_row nowId data) (messages db2)
    /\ In (stored_row nowId' data) (messages db2)
    /\ message_dedupe db2 = message_dedupe db
    /\ executed db2
       = (executed db
          ++ [ (INSERT_messages (stored_row nowId data),
                value (validateConsistency env (data_consistency data)));
               (INSERT_messages (stored_row nowId' data),
                value (validateConsistency env (data_consistency data))) ]
         )%list.
Proof.
  intros V [C S] N K.
  assert (G : Js.given (data_client_msg_id data) = None).
  { pose proof V as V'. rewrite validatePostMessage_unfold in V'.
    destruct (Z.of_nat (List.length (post_errors req)) >? 0);
      [discriminate|].
    destruct (optional_trim "body.consistency" (body_consistency req));
      [discriminate|].
    destruct K as [K | (s & K & W)]; rewrite K in V';
      cbn [optional_trim] in V'; injection V' as <-;
      cbn [data_client_msg_id]; [reflexivity|].
    rewrite (JsFacts.trim_blank s W). reflexivity. }
  rewrite (post_messages_valid_cases _ _ _ _ _ V), G. cbv beta zeta.
  rewrite insertMessage_cases. cbv zeta. rewrite C, S.
  do 2 eexists. split; [reflexivity|].
  rewrite (post_messages_valid_cases _ _ _ _ _ V), G. cbv beta zeta.
  rewrite insertMessage_cases. cbv zeta. cbn [client serves]. rewrite S.
  split; [reflexivity|]. cbn [messages message_dedupe executed].
  split; [|split; [left; reflexivity|split; [reflexivity|]]].
  - right. unfold upsert at 1. apply filter_In. split; [left; reflexivity|].
    unfold same_key, stored_row. cbn [row_message_id row_channel_id].
    rewrite N, andb_false_r. reflexivity.
  - rewrite <- app_assoc. reflexivity.
Qed.

(** ** The limit is read by [parseInt] *)

Lemma isDigit_digit (c : ascii) :
  Js.isDigit c = true -> exists v, Js.digit 10 c = Some v.
Proof.
  unfold Js.isDigit, Js.digit. cbv zeta. intros D. rewrite D.
  apply andb_true_iff in D as [D1 D2].
  apply Z.leb_le in D1. apply Z.leb_le in D2.
  destruct (Z.ltb_spec (Js.code c - 48) 10); [eauto | lia].
Qed.

Lemma digits_append (s tail : string) (acc : option Z) :
  Js.every Js.isDigit s = true ->
  (tail = "" \/ exists c t, tail = String c t /\ Js.digit 10 c = None) ->
  Js.digits 10 acc (s ++ tail) = Js.digits 10 acc s.
Proof.
  intros E T. revert acc. induction s as [|c s IH]; intros acc.
  - cbn [String.append Js.digits].
    destruct T as [-> | (c & t & -> & N)]; [reflexivity|].
    cbn [Js.digits]. rewrite N. reflexivity.
  - cbn [Js.every] in E. apply andb_true_iff in E as [Ec Es].
    destruct (isDigit_digit c Ec) as (v & Dv).
    cbn [String.append Js.digits]. rewrite Dv. apply IH, Es.
Qed.

Lemma digit_char_nonzero (m : Z) :
  1 <= m < 10 -> Ascii.eqb (Js.digit_char m) "0" = false.
Proof.
  intros B.
  assert (D : m = 1 \/ m = 2 \/ m = 3 \/ m = 4 \/ m = 5 \/ m = 6
              \/ m = 7 \/ m = 8 \/ m = 9) by lia.
  repeat (destruct D as [->|D]); [..|subst m]; reflexivity.
Qed.

Lemma to_digits_leading (fuel : nat) (n : Z) (acc : string) :
  1 <= n < 10 ^ Z.of_nat (S fuel) ->
  exists d rest,
    Js.to_digits (S fuel) n acc = String d rest
    /\ Ascii.eqb d "0" = false.
Proof.
  revert n acc. induction fuel as [|fuel IH]; intros n acc B;
    cbn [Js.to_digits].
  - destruct (Z.ltb_spec n 10) as [L|L].
    + do 2 eexists. split; [reflexivity|].
      rewrite Z.mod_small by lia. apply digit_char_nonzero. lia.
    + change (10 ^ Z.of_nat 1) with 10 in B. lia.
  - destruct (Z.ltb_spec n 10) as [L|L].
    + do 2 eexists. split; [reflexivity|].
      rewrite Z.mod_small by lia. apply digit_char_nonzero. lia.
    + change (if n / 10 <? 10
              then String (Js.digit_char (n / 10 mod 10))
                     (String (Js.digit_char (n mod 10)) acc)
              else Js.to_digits fuel (n / 10 / 10)
                     (String (Js.digit_char (n / 10 mod 10))
                        (String (Js.digit_char (n mod 10)) acc)))
        with (Js.to_digits (Datatypes.S fuel) (n / 10)
                (String (Js.digit_char (n mod 10)) acc)).
      apply IH. split.
      * apply Z.div_le_lower_bound; lia.
      * apply Z.div_lt_upper_bound; [lia|].
        replace (Z.of_nat (Datatypes.S (Datatypes.S fuel)))
          with (Z.succ (Z.of_nat (Datatypes.S fuel))) in B by lia.
        rewrite Z.pow_succ_r in B by lia. lia.
Qed.

Lemma parseInt_toString_append (n : Z) (tail : string) :
  1 <= n ->
  (tail = "" \/ exists c t, tail = String c t /\ Js.digit 10 c = None) ->
  Js.parseInt (Js.toString n ++ tail) = Some n.
Proof.
  intros P T. unfold Js.toString.
  destruct (Z.ltb_spec n 0) as [N|N]; [lia|].
  set (k := Z.to_nat (Z.log2 n)).
  pose proof (JsFacts.digits_bound n N) as B. fold k in B.
  destruct (to_digits_leading k n "" ltac:(lia)) as (d & rest & E & NZ).
  pose proof (JsFacts.to_digits_every (Datatypes.S k) n "" eq_refl) as D.
  pose proof (JsFacts.digits_to_digits k n "" B) as R.
  pose proof (digits_append _ tail None D T) as A.
  rewrite E in D, R, A |- *. cbn [String.append] in A |- *.
  assert (Dd : Js.isDigit d = true).
  { cbn [Js.every] in D. apply andb_true_iff in D as [Dd _]. exact Dd. }
  destruct (JsFacts.isDigit_plain d Dd) as (W & M & Pl & _).
  unfold Js.parseInt, Js.strip_sign. cbn [Js.trimStart].
  rewrite W, M, Pl.
  assert (X : Js.strip_radix (String d (rest ++ tail))
              = (10, String d (rest ++ tail))).
  { unfold Js.strip_radix. destruct (rest ++ tail); [reflexivity|].
    rewrite NZ. reflexivity. }
  rewrite X, A, R. cbn [Js.digits option_map]. f_equal. lia.
Qed.

(** X22. The limit of a listing is what [parseInt] reads at its head:
    a decimal number from 1 to 100 followed by anything that does not
    start with a digit, as in '10abc' or '5.5', passes validation as
    that number, and the rest is ignored. *)
Theorem validateGetMessages_limit_prefix (n : Z) (tail : string)
    (consistency : option string) :
  1 <= n <= 100 ->
  (tail = "" \/ exists c t, tail = String c t /\ Js.digit 10 c = None) ->
  validateGetMessages
    {| query_limit := Some (Js.toString n ++ tail); query_before := None;
       query_after := None; query_consistency := consistency |}
  = Valid {| get_limit := n; get_before := None; get_after := None;
             get_consistency := consistency |}.
Proof.
  intros B T.
  pose proof (parseInt_toString_append n tail ltac:(lia) T) as P.
  unfold validateGetMessages, limit_of, Js.given. cbv zeta.
  cbn [query_limit query_before query_after query_consistency].
  rewrite (JsFacts.parseInt_truthy _ _ P), P.
  destruct (Z.ltb_spec n 1); [lia|]. destruct (Z.gtb_spec n 100); [lia|].
  reflexivity.
Qed.

(** ** The listing on the query that Express hands over *)

Lemma raw_validateGetMessages (query : GetMessagesQuery) :
  Raw.validateGetMessages (raw_query query)
  = inr (match validateGetMessages query with
         | Invalid errors => Invalid errors
         | Valid data => Valid (raw_data data)
         end).
Proof.
  destruct query as [l b a c].
  destruct l as [[|? ?]|]; destruct b as [[|? ?]|]; destruct a as [[|? ?]|];
    unfold Raw.validateGetMessages, validateGetMessages, Raw.limit_of,
      limit_of, Raw.check_cursor, raw_query;
    cbn [Raw.query_limit Raw.query_before Raw.query_after
         Raw.query_consistency query_limit query_before query_after
         query_consistency option_map Raw.given Raw.truthy Js.given
         Js.truthy Raw.ToString andb];
    cbv zeta;
    repeat match goal with
           | |- context [if ?c then _ else _] => destruct c
           end; reflexivity.
Qed.

Lemma raw_validateConsistency (env : Env) (c d : option string) :
  Raw.validateConsistency env (Raw.or_else (option_map QString c) d)
  = inr (validateConsistency env (Js.or_else c d)).
Proof.
  destruct c as [[|? ?]|]; destruct d as [[|? ?]|]; reflexivity.
Qed.

Lemma raw_getMessages (channelId : string) (limit : Z)
    (before after : option string) (level : option Z) :
  Raw.getMessages channelId limit (option_map QString before)
    (option_map QString after) level
  = getMessages channelId limit before after level.
Proof.
  destruct before as [[|? ?]|]; destruct after as [[|? ?]|]; reflexivity.
Qed.

(** On a query of strings the listing of [Raw] is the listing above. *)
Lemma raw_get_channel_messages (env : Env) (channelId : string)
    (query : GetMessagesQuery) (db : Db) :
  Raw.get_channel_messages env channelId (raw_query query) db
  = get_channel_messages env channelId query db.
Proof.
  unfold Raw.get_channel_messages, get_channel_messages, catch.
  destruct (negb (Js.truthy (Some channelId)) || (Js.length channelId <? 1)
            || (Js.length channelId >? 100)); [reflexivity|].
  unfold bind at 1. rewrite raw_validateGetMessages. unfold lift, ret at 1.
  destruct (validateGetMessages query) as [errors|data]; [reflexivity|].
  unfold bind at 1. unfold raw_data at 1. cbn [Raw.get_consistency].
  rewrite raw_validateConsistency. unfold ret at 1. cbv beta iota zeta.
  unfold raw_data. cbn [Raw.get_limit Raw.get_before Raw.get_after].
  rewrite raw_getMessages. reflexivity.
Qed.

Lemma raw_getMessages_bound (channelId : string) (limit : Z)
    (before after : option QueryValue) (bound : Bound) (level : option Z)
    (db : Db) :
  client db = true -> raw_bound_of before after = Some bound ->
  Raw.getMessages channelId limit before after level db
  = let level := match level with
                 | None => consistencies "one"
                 | Some _ => level
                 end in
    let stmt := SELECT_messages channelId bound limit in
    if serves db stmt level && negb (limit <=? 0)
    then (Return (select channelId bound limit (messages db)),
          log stmt level db)
    else (Throw StorageError, log stmt level db).
Proof.
  intros C. unfold Raw.getMessages, raw_bound_of, bind, getClient,
    Raw.fromString, fromString. cbv zeta. rewrite C.
  assert (run : forall bound level,
             match execute (SELECT_messages channelId bound limit) level db
             with
             | (Return a, s') => ret (rows a) s'
             | (Throw e, s') => (Throw e, s')
             end
             = if serves db (SELECT_messages channelId bound limit) level
                  && negb (limit <=? 0)
               then (Return (select channelId bound limit (messages db)),
                     log (SELECT_messages channelId bound limit) level db)
               else (Throw StorageError,
                     log (SELECT_messages channelId bound limit) level db)).
  { intros bd lv. unfold execute. cbv zeta. cbn [log serves messages].
    destruct (serves db _ lv); cbn [negb andb]; [|reflexivity].
    destruct (limit <=? 0); reflexivity. }
  destruct (Raw.given before) as [[b|items|fields]|]; try discriminate.
  - destruct (TimeUuid_fromString b); cbn [option_map]; [|discriminate].
    intros B. injection B as <-. unfold ret at 1 2. apply run.
  - destruct (Raw.given after) as [[a|items|fields]|]; try discriminate.
    + destruct (TimeUuid_fromString a); cbn [option_map]; [|discriminate].
      intros B. injection B as <-. unfold ret at 1 2. apply run.
    + intros B. injection B as <-. unfold ret at 1 2. apply run.
Qed.

Lemma raw_getMessages_no_bound (channelId : string) (limit : Z)
    (before after : option QueryValue) (level : option Z) (db : Db) :
  raw_bound_of before after = None ->
  exists e,
    Raw.getMessages channelId limit before after level db = (Throw e, db).
Proof.
  unfold Raw.getMessages, raw_bound_of, bind, getClient, Raw.fromString,
    fromString. cbv zeta.
  destruct (client db); [|intros _; eexists; reflexivity].
  destruct (Raw.given before) as [[b|items|fields]|].
  - destruct (TimeUuid_fromString b); cbn [option_map]; [discriminate|].
    intros _. eexists. reflexivity.
  - intros _. eexists. reflexivity.
  - intros _. eexists. reflexivity.
  - destruct (Raw.given after) as [[a|items|fields]|]; try discriminate.
    + destruct (TimeUuid_fromString a); cbn [option_map]; [discriminate|].
      intros _. eexists. reflexivity.
    + intros _. eexists. reflexivity.
    + intros _. eexists. reflexivity.
Qed.

Lemma raw_get_channel_messages_cases (env : Env) (channelId : string)
    (query : Raw.Query) (db : Db) :
  Raw.get_channel_messages env channelId query db
  = if negb (Js.truthy (Some channelId)) || (Js.length channelId <? 1)
       || (Js.length channelId >? 100)
    then (Return (bad_channel env), db)
    else
      match Raw.validateGetMessages query with
      | inl _ => (Return (get_failed env), db)
      | inr (Invalid errors) => (Return (bad_query env errors), db)
      | inr (Valid data) =>
          match raw_read_level env data with
          | inl _ => (Return (get_failed env), db)
          | inr r =>
              match Raw.getMessages channelId (Raw.get_limit data)
                      (Raw.get_before data) (Raw.get_after data)
                      (value r) db with
              | (Return rows, db') => (Return (listing rows r), db')
              | (Throw _, db') => (Return (get_failed env), db')
              end
          end
      end.
Proof.
  unfold Raw.get_channel_messages, catch.
  destruct (negb (Js.truthy (Some channelId)) || (Js.length channelId <? 1)
            || (Js.length channelId >? 100)); [reflexivity|].
  unfold bind at 1.
  destruct (Raw.validateGetMessages query) as [e|[errors|data]];
    [reflexivity | reflexivity |].
  unfold lift at 1, ret at 1. cbv beta iota. unfold bind at 1.
  fold (raw_read_level env data).
  destruct (raw_read_level env data) as [e|r]; [reflexivity|].
  unfold lift, ret at 1. cbv beta iota zeta. unfold bind.
  destruct (Raw.getMessages _ _ _ _ _ db) as [[rows|e] db']; reflexivity.
Qed.

Lemma raw_validateGetMessages_limit (query : Raw.Query) (data : Raw.Data) :
  Raw.validateGetMessages query = inr (Valid data) ->
  1 <= Raw.get_limit data <= 100.
Proof.
  unfold Raw.validateGetMessages.
  destruct (Raw.limit_of query) as [e|limit]; [discriminate|].
  destruct (Raw.check_cursor (Raw.query_before query) _) as [e|eb];
    [discriminate|].
  destruct (Raw.check_cursor (Raw.query_after query) _) as [e|ea];
    [discriminate|].
  cbv zeta.
  match goal with
  | |- inr (if ?c then _ else _) = _ -> _ => destruct c eqn:E
  end; [discriminate|].
  apply no_error in E. apply app_eq_nil in E as [E1 _].
  intros V. injection V as <-. cbn [Raw.get_limit].
  destruct limit as [n|]; [|discriminate E1].
  destruct (Z.ltb_spec n 1); [discriminate E1|].
  destruct (Z.gtb_spec n 100); [discriminate E1|]. lia.
Qed.

Lemma select_in_channel (channelId : string) (bound : Bound) (limit : Z)
    (table : list Row) :
  Forall (fun r => row_channel_id r = channelId)
         (select channelId bound limit table).
Proof.
  apply Forall_forall. intros r I. unfold select in I.
  apply ListFacts.In_firstn in I. apply filter_In in I as [I _].
  apply (Permutation_in _ (partition_perm channelId table)) in I.
  apply filter_In in I as [_ E]. apply String.eqb_eq. exact E.
Qed.

Lemma raw_read_level_string (env : Env) (data : Raw.Data) :
  (Raw.get_consistency data = None
   \/ exists s, Raw.get_consistency data = Some (QString s)) ->
  exists r, raw_read_level env data = inr r.
Proof.
  unfold raw_read_level, Raw.or_else.
  intros [-> | (s & ->)].
  - cbn [Raw.truthy]. destruct (DEFAULT_READ_CONSISTENCY env);
      cbn [option_map Raw.validateConsistency]; eauto.
  - cbn [Raw.truthy]. destruct (Js.truthy (Some s)).
    + cbn [Raw.validateConsistency]. eauto.
    + destruct (DEFAULT_READ_CONSISTENCY env);
        cbn [option_map Raw.validateConsistency]; eauto.
Qed.

Lemma raw_read_level_other (env : Env) (data : Raw.Data) (v : QueryValue) :
  Raw.get_consistency data = Some v -> (forall s, v <> QString s) ->
  raw_read_level env data
  = inl (TypeError "consistency.toUpperCase is not a function").
Proof.
  unfold raw_read_level, Raw.or_else. intros -> N.
  destruct v as [s|items|fields]; [destruct (N s eq_refl) | |];
    reflexivity.
Qed.

Lemma raw_get_channel_messages_runs (env : Env) (channelId : string)
    (query : Raw.Query) (data : Raw.Data) (r : ConsistencyResult)
    (bound : Bound) (db : Db) :
  available db -> 1 <= Js.length channelId <= 100 ->
  Raw.validateGetMessages query = inr (Valid data) ->
  raw_read_level env data = inr r ->
  raw_bound_of (Raw.get_before data) (Raw.get_after data) = Some bound ->
  Raw.get_channel_messages env channelId query db
  = (Return (listing (select channelId bound (Raw.get_limit data)
                        (messages db)) r),
     log (SELECT_messages channelId bound (Raw.get_limit data))
       match value r with
       | None => consistencies "one"
       | Some level => Some level
       end db).
Proof.
  intros [C S] L V R B.
  pose proof (raw_validateGetMessages_limit _ _ V) as Rg.
  rewrite raw_get_channel_messages_cases, (channel_guard _ L), V, R.
  rewrite (raw_getMessages_bound _ _ _ _ _ _ _ C B). cbv zeta. rewrite S.
  destruct (Z.leb_spec (Raw.get_limit data) 0); [lia|]. cbn [andb negb].
  destruct (value r); reflexivity.
Qed.

Lemma raw_get_channel_messages_throws (env : Env) (channelId : string)
    (query : Raw.Query) (data : Raw.Data) (db : Db) :
  1 <= Js.length channelId <= 100 ->
  Raw.validateGetMessages query = inr (Valid data) ->
  (exists e, raw_read_level env data = inl e)
  \/ raw_bound_of (Raw.get_before data) (Raw.get_after data) = None ->
  Raw.get_channel_messages env channelId query db
  = (Return (get_failed env), db).
Proof.
  intros L V F.
  rewrite raw_get_channel_messages_cases, (channel_guard _ L), V.
  destruct F as [(e & ->) | B]; [reflexivity|].
  destruct (raw_read_level env data) as [e|r]; [reflexivity|].
  destruct (raw_getMessages_no_bound channelId (Raw.get_limit data) _ _
              (value r) db B) as (e & ->).
  reflexivity.
Qed.

Section RawListing.
Hypothesis order : timeuuid_order.

(** X13. A listing that passes validation, on a store that serves it,
    for any query that Express can hand over. When the consistency of
    the request is a string or absent, so that the resolver returns a
    level, and the cursor in force is a string that the driver reads:
    the response has status 200 and is a page of at most [limit] rows of
    the channel within the bound of the cursor, newest first; every row
    of the channel within the bound that the page leaves out is older
    than every row of the page, so that with [before] the page holds the
    rows nearest to the cursor; [next_before] is the identifier of the
    last row of the page, and [null] when the page is empty. When the
    consistency is an array or an object (a repeated or bracketed key),
    or the cursor in force is not a string or is not read by the driver,
    the handler answers with [fail 500] and code INTERNAL and executes
    no statement. *)
Theorem get_channel_messages_listing (env : Env) (channelId : string)
    (query : Raw.Query) (data : Raw.Data) (db : Db) :
  available db -> primary_key (messages db) ->
  1 <= Js.length channelId <= 100 ->
  Raw.validateGetMessages query = inr (Valid data) ->
  (forall r bound,
      raw_read_level env data = inr r ->
      raw_bound_of (Raw.get_before data) (Raw.get_after data) = Some bound ->
      exists rows db',
        Raw.get_channel_messages env channelId query db
        = (Return (listing rows r), db')
        /\ status (listing rows r) = 200
        /\ get "items" (body (listing rows r)) = JArr (map item rows)
        /\ get "next_before" (get "page" (body (listing rows r)))
           = match rev rows with
             | [] => JNull
             | last :: _ => JStr (TimeUuid_toString (row_message_id last))
             end
        /\ Z.of_nat (List.length rows) <= Raw.get_limit data
        /\ Forall (fun row => In row (messages db)
                              /\ row_channel_id row = channelId
                              /\ in_bound bound row = true) rows
        /\ descending rows
        /\ (forall row row',
              In row (messages db) -> row_channel_id row = channelId ->
              in_bound bound row = true -> ~ In row rows -> In row' rows ->
              newer row' row)
        /\ messages db' = messages db)
  /\ ((Raw.get_consistency data = None
       \/ exists s, Raw.get_consistency data = Some (QString s)) ->
      exists r, raw_read_level env data = inr r)
  /\ (forall v,
        Raw.get_consistency data = Some v -> (forall s, v <> QString s) ->
        exists e, raw_read_level env data = inl e)
  /\ ((exists e, raw_read_level env data = inl e)
      \/ raw_bound_of (Raw.get_before data) (Raw.get_after data) = None ->
      Raw.get_channel_messages env channelId query db
      = (Return (get_failed env), db)).
Proof.
  intros A K L V. split; [|split; [|split]].
  - intros r bound R B.
    rewrite (raw_get_channel_messages_runs env channelId query data r bound
               db A L V R B).
    pose proof (raw_validateGetMessages_limit _ _ V) as Rg.
    destruct (select_newest order channelId bound (Raw.get_limit data)
                (messages db) K ltac:(lia)) as (S1 & S2 & S3 & S4).
    destruct (get_listing (select channelId bound (Raw.get_limit data)
                             (messages db)) r) as (_ & G1 & G2).
    do 2 eexists. split; [reflexivity|]. split; [reflexivity|].
    split; [exact G1|]. split; [rewrite G2; apply next_before_rows|].
    auto.
  - apply raw_read_level_string.
  - intros v E N. rewrite (raw_read_level_other env data v E N). eauto.
  - apply raw_get_channel_messages_throws; assumption.
Qed.

End RawListing.

(** ** The level at which the statements run *)

(** X23. The level of the statements. An accepted message with a client
    key runs its two statements, the conditional insert of the key first,
    at the level that the resolver returned for the request, even when
    that level is undefined. A listing whose consistency is a string or
    absent, so that the resolver returns a level, and whose cursor in
    force the driver reads, runs one [SELECT], at the level that the
    resolver returned, except that an undefined level is replaced by
    [types.consistencies.one], the default value of the parameter of
    [getMessages]. *)
Theorem statements_run_at_resolved_level (env : Env) :
  (forall nowId req data k db,
      validatePostMessage req = inr (Valid data) ->
      Js.given (data_client_msg_id data) = Some k ->
      available db ->
      has_dedupe (data_channel_id data) k (message_dedupe db) = false ->
      exists db',
        post_messages env nowId req db
        = (Return (accepted_response env nowId data), db')
        /\ executed db'
           = (executed db
              ++ [ (INSERT_message_dedupe_IF_NOT_EXISTS
                      (data_channel_id data) k,
                    value (validateConsistency env (data_consistency data)));
                   (INSERT_messages (stored_row nowId data),
                    value (validateConsistency env (data_consistency data)))
                 ])%list)
  /\ (forall channelId query data r bound db,
        available db -> 1 <= Js.length channelId <= 100 ->
        Raw.validateGetMessages query = inr (Valid data) ->
        raw_read_level env data = inr r ->
        raw_bound_of (Raw.get_before data) (Raw.get_after data)
        = Some bound ->
        exists rows db',
          Raw.get_channel_messages env channelId query db
          = (Return (listing rows r), db')
          /\ executed db'
             = (executed db
                ++ [ (SELECT_messages channelId bound (Raw.get_limit data),
                      match value r with
                      | None => consistencies "one"
                      | Some level => Some level
                      end) ])%list).
Proof.
  split.
  - intros nowId req data k db V G [C S] F.
    rewrite (post_messages_valid_cases _ _ _ _ _ V), G. cbv beta zeta.
    rewrite checkDedupe_cases. cbv zeta. rewrite C, S, F.
    rewrite insertMessage_cases. cbv zeta. cbn [client serves]. rewrite S.
    eexists. split; [reflexivity|]. cbn [executed].
    rewrite <- app_assoc. reflexivity.
  - intros channelId query data r bound db A L V R B.
    rewrite (raw_get_channel_messages_runs env channelId query data r bound
               db A L V R B).
    do 2 eexists. split; reflexivity.
Qed.

(** ** A channel of white space *)

(** X16. A message whose [channel_id] consists of white space only
    passes the length check and is not turned down: the channel of the
    validated data is the empty string, and with a client the handler
    goes to the store with a statement on the empty channel. The listing
    shows rows of the channel of its route only, which Express never
    leaves empty: whatever the query and the state, the rows of a page
    for a channel that is not empty are rows of that channel, none of
    the empty one. *)
Theorem post_messages_blank_channel (env : Env) (nowId : TimeUuid)
    (req : PostBody) (data : PostData) (channel_id : string) (db : Db) :
  validatePostMessage req = inr (Valid data) ->
  body_channel_id req = JStr channel_id ->
  Js.every Js.isWhiteSpace channel_id = true ->
  data_channel_id data = ""
  /\ (client db = true ->
      exists resp db' stmt level l,
        post_messages env nowId req db = (Return resp, db')
        /\ executed db' = (executed db ++ (stmt, level) :: l)%list
        /\ statement_channel stmt = data_channel_id data)
  /\ forall env' channelId query db'',
       channelId <> "" ->
       exists resp db3,
         Raw.get_channel_messages env' channelId query db''
         = (Return resp, db3)
         /\ (get "ok" (body resp) = JBool false
             \/ exists rows r,
                  resp = listing rows r
                  /\ Forall (fun row => row_channel_id row <> "") rows).
Proof.
  intros V B W. split; [|split].
  - rewrite validatePostMessage_unfold in V.
    destruct (Z.of_nat (List.length (post_errors req)) >? 0);
      [discriminate|].
    destruct (optional_trim "body.consistency" (body_consistency req));
      [discriminate|].
    destruct (optional_trim "body.client_msg_id" (body_client_msg_id req));
      [discriminate|].
    injection V as <-. cbn [data_channel_id]. rewrite B. cbn [string_of].
    apply JsFacts.trim_blank, W.
  - intros C. rewrite (post_messages_valid_cases _ _ _ _ _ V).
    cbv beta zeta.
    destruct (Js.given (data_client_msg_id data)) as [k|].
    + rewrite checkDedupe_cases. cbv zeta. rewrite C.
      destruct (serves db _ _).
      * destruct (has_dedupe _ k (message_dedupe db)).
        -- do 4 eexists. exists []. split; [reflexivity|].
           split; reflexivity.
        -- rewrite insertMessage_cases. cbv zeta. cbn [client serves].
           destruct (serves db (INSERT_messages _) _);
             do 5 eexists; (split; [reflexivity|]);
             cbn [log executed]; rewrite <- app_assoc;
             split; reflexivity.
      * do 4 eexists. exists []. split; [reflexivity|]. split; reflexivity.
    + rewrite insertMessage_cases. cbv zeta. rewrite C.
      destruct (serves db _ _); do 4 eexists; exists [];
        (split; [reflexivity|]); split; reflexivity.
  - intros env' channelId query db'' N.
    rewrite raw_get_channel_messages_cases.
    destruct (negb (Js.truthy (Some channelId)) || (Js.length channelId <? 1)
              || (Js.length channelId >? 100));
      [do 2 eexists; split; [reflexivity | left; reflexivity]|].
    destruct (Raw.validateGetMessages query) as [e|[errors|gdata]];
      [do 2 eexists; split; [reflexivity | left; reflexivity]..|].
    destruct (raw_read_level env' gdata) as [e|r];
      [do 2 eexists; split; [reflexivity | left; reflexivity]|].
    destruct (raw_bound_of (Raw.get_before gdata) (Raw.get_after gdata))
      as [bound|] eqn:Bd.
    + destruct (client db'') eqn:C.
      * rewrite (raw_getMessages_bound _ _ _ _ _ _ _ C Bd). cbv zeta.
        destruct (serves db'' _ _ && negb (Raw.get_limit gdata <=? 0));
          [|do 2 eexists; split; [reflexivity | left; reflexivity]].
        do 2 eexists. split; [reflexivity|]. right. do 2 eexists.
        split; [reflexivity|].
        eapply Forall_impl; [|apply select_in_channel].
        intros row E. cbv beta in E. rewrite E. exact N.
      * unfold Raw.getMessages, bind, getClient. rewrite C.
        do 2 eexists. split; [reflexivity | left; reflexivity].
    + destruct (raw_getMessages_no_bound channelId (Raw.get_limit gdata) _ _
                  (value r) db'' Bd) as (e & ->).
      do 2 eexists. split; [reflexivity | left; reflexivity].
Qed.

End Behaviour.

(** * Start-up and the health endpoint *)

Section StartUp.
Context `{Cassandra}.

Lemma split_nonempty (sep : ascii) (s : string) : split sep s <> [].
Proof.
  induction s as [|c s IH]; cbn [split]; [discriminate|].
  destruct (Ascii.eqb c sep); [discriminate|].
  destruct (split sep s); discriminate.
Qed.

Lemma or_default_unset (v : option string) (d : string) :
  Js.truthy v = false -> or_default v d = d.
Proof.
  unfold or_default, Js.or_else. intros ->. destruct d; reflexivity.
Qed.

(** X20. Start-up and health: before [start] has run the health endpoint
    answers 503, whatever USE_SOFT_ERRORS says; when the cluster can be
    reached, [start] leaves a store on which [getClient] no longer
    throws and the tables untouched, and the health endpoint then
    reports the data centre and the keyspace that the client was given,
    which are 'datacenter1' and 'chat' when the variables are unset or
    empty; the client is always given at least one contact point. *)
Theorem start_then_health (env : ScyllaEnv)
    (connect : ClientOptions -> bool) (db : Db) :
  status (health None) = 503
  /\ contactPoints (client_options env) <> []
  /\ (Js.truthy (SCYLLA_DATACENTER env) = false ->
      localDataCenter (client_options env) = "datacenter1")
  /\ (Js.truthy (SCYLLA_KEYSPACE env) = false ->
      options_keyspace (client_options env) = "chat")
  /\ (connect (client_options env) = true ->
      exists info db',
        start env connect db = (Some info, db')
        /\ getClient db' = (Return tt, db')
        /\ serves db' = serves db
        /\ messages db' = messages db
        /\ message_dedupe db' = message_dedupe db
        /\ health (Some info)
           = json (JObj [ ("ok", JBool true);
                          ("dc",
                           JStr (localDataCenter (client_options env)));
                          ("keyspace",
                           JStr (options_keyspace (client_options env))) ]))
  /\ (connect (client_options env) = false ->
      exists db', start env connect db = (None, db') /\ client db' = true).
Proof.
  split; [reflexivity|]. split; [apply split_nonempty|].
  split; [intros T; apply or_default_unset, T|].
  split; [intros T; apply or_default_unset, T|].
  unfold start, initializeDatabase, prepareStatements, bind, ret.
  cbv zeta. split; intros ->.
  - do 2 eexists. split; [reflexivity|]. repeat split.
  - eexists. split; reflexivity.
Qed.

End StartUp.

(** * The handlers on the reference instance *)

#[local] Existing Instance Reference.cassandra.

Lemma reference_order : timeuuid_order.
Proof.
  split; [|split]; cbn.
  - intros a. apply Z.ltb_irrefl.
  - intros a b c A B. apply Z.ltb_lt in A, B. apply Z.ltb_lt. lia.
  - intros a b A B. apply Z.ltb_ge in A, B. lia.
Qed.

Lemma reference_primary_key : primary_key Reference.table.
Proof.
  unfold primary_key.
  repeat (constructor; [cbn; intuition discriminate|]). constructor.
Qed.


(** The six tokens whose lower-case form is a property of the driver's
    table resolve to their level, whatever the case of the letters. *)
Lemma validateConsistency_mapped env (c : string) (level : Z) :
  In (Js.toUpperCase c, level)
     [ ("ANY", 0); ("ONE", 1); ("TWO", 2); ("THREE", 3); ("QUORUM", 4);
       ("ALL", 5) ] ->
  validateConsistency env (Some c)
  = {| value := Some level; warning := None |}.
Proof.
  intros I. cbn [In] in I.
  repeat (destruct I as [I|I]); try contradiction; injection I as U <-;
    (rewrite validateConsistency_recognized
      by (unfold recognized; rewrite <- U; reflexivity));
    cbn [consistencies Reference.cassandra];
    rewrite <- JsFacts.toLowerCase_toUpperCase, <- U; reflexivity.
Qed.

(** The two local tokens are let through, and are not found in the table. *)
Lemma validateConsistency_local env (c : string) :
  In (Js.toUpperCase c) ["LOCAL_ONE"; "LOCAL_QUORUM"] ->
  validateConsistency env (Some c) = {| value := None; warning := None |}.
Proof.
  intros I. cbn [In] in I.
  repeat (destruct I as [I|I]); try contradiction;
    (rewrite validateConsistency_recognized
      by (unfold recognized; rewrite <- I; reflexivity));
    cbn [consistencies Reference.cassandra];
    rewrite <- JsFacts.toLowerCase_toUpperCase, <- I; reflexivity.
Qed.

Example validateConsistency_quorum env :
  validateConsistency env (Some "quorum")
  = validateConsistency env (Some "QUORUM")
  /\ validateConsistency env (Some "QUORUM")
     = {| value := Some 4; warning := None |}.
Proof. split; reflexivity. Qed.

(** C1 (defect of the code). [LOCAL_ONE] and [LOCAL_QUORUM] pass the test
    of the allowed names, and are then looked up as [local_one] and
    [local_quorum] in a table whose properties are [localOne] and
    [localQuorum]: the level is [undefined], and there is no warning. *)
Theorem validateConsistency_local_levels_undefined env :
  validateConsistency env (Some "LOCAL_QUORUM")
  = {| value := None; warning := None |}
  /\ validateConsistency env (Some "LOCAL_ONE")
     = {| value := None; warning := None |}
  /\ validateConsistency env (Some "local_quorum")
     = {| value := None; warning := None |}.
Proof. repeat split; reflexivity. Qed.

(** A listing without a token resolves the read default of the process. *)
Example list_absent_token :
  validateConsistency Reference.env
    (Js.or_else None (DEFAULT_READ_CONSISTENCY Reference.env))
  = {| value := Some 1; warning := None |}.
Proof. reflexivity. Qed.

(** C6 (defect of the code). With write default [QUORUM] and read default
    [ONE], a listing with the token [bogus] is read at level 4, [QUORUM],
    and the warning names [QUORUM]: the token is replaced by the write
    default, where a listing without a token is read at the read default. *)
Theorem list_unrecognized_token_takes_write_default :
  exists resp db',
    get_channel_messages Reference.env "c2"
      (Reference.listing (Some "2") None None (Some "bogus"))
      (Reference.store Reference.table [])
    = (Return resp, db')
    /\ get "warning" (body resp)
       = JStr "Invalid consistency level 'bogus', using default 'QUORUM'"
    /\ executed db' = [(SELECT_messages "c2" Unbounded 2, Some 4)]
    /\ consistencies "quorum" = Some 4
    /\ value (validateConsistency Reference.env
                (Js.or_else None (DEFAULT_READ_CONSISTENCY Reference.env)))
       = Some 1.
Proof.
  eexists _, _. split; [reflexivity|]. repeat split.
Qed.

(** A retry with a token that is not recognized: the response says
    [deduped] and has no warning. *)
Example deduplicated_without_warning :
  fst (post_messages Reference.env 60
         (Reference.post "c1" "hi" (JStr "BOGUS") (JStr "k1"))
         (Reference.store Reference.table [("c1", "k1")]))
  = Return (json (JObj [("ok", JBool true); ("deduped", JBool true)])).
Proof. reflexivity. Qed.

(** C5, as stated, fails: the response to an accepted message has a
    [message_id] and no [created_at]. *)
Lemma accepted_response_without_created_at :
  exists resp db',
    post_messages Reference.env 60
      (Reference.post "c1" "hi" JUndefined JUndefined)
      (Reference.store Reference.table [])
    = (Return resp, db')
    /\ In (Reference.message "c1" 60 "hi") (messages db')
    /\ has "message_id" (body resp) = true
    /\ has "created_at" (body resp) = false.
Proof.
  eexists _, _. split; [reflexivity|].
  split; [left; reflexivity|]. split; reflexivity.
Qed.

(** C4, as stated, fails: of the four entries of [c2] above 10, the read
    with limit 2 returns 50 and 40, the newest, where the nearest to the
    cursor are 30 and 20. *)
Lemma read_after_returns_newest_not_nearest :
  exists db',
    getMessages "c2" 2 None (Some (Reference.toString 10)) None
      (Reference.store Reference.table [])
    = (Return [ Reference.message "c2" 50 "fifth";
                Reference.message "c2" 40 "fourth" ], db')
    /\ spec_read_after "c2" 2 10 Reference.table
       = [ Reference.message "c2" 30 "third";
           Reference.message "c2" 20 "second" ].
Proof. eexists. split; reflexivity. Qed.

(** ** A limit that is not an integer *)


(** ** The theorems at work *)

Lemma post_messages_deduplicated_witness :
  post_messages Reference.env 60
    (Reference.post "c1" "hi" JUndefined (JStr "k1"))
    (Reference.store Reference.table [("c1", "k1")])
  = (Return (json (JObj [("ok", JBool true); ("deduped", JBool true)])),
     log (INSERT_message_dedupe_IF_NOT_EXISTS "c1" "k1") (Some 4)
       (Reference.store Reference.table [("c1", "k1")]))
  /\ messages (log (INSERT_message_dedupe_IF_NOT_EXISTS "c1" "k1") (Some 4)
                 (Reference.store Reference.table [("c1", "k1")]))
     = Reference.table.
Proof.
  destruct (post_messages_deduplicated (H := Reference.cassandra)
              Reference.env 60
              (Reference.post "c1" "hi" JUndefined (JStr "k1"))
              {| data_channel_id := "c1"; data_user_id := "u1";
                 data_content := "hi"; data_consistency := None;
                 data_client_msg_id := Some "k1" |}
              "k1"
              (Reference.store Reference.table [("c1", "k1")])
              (log (INSERT_message_dedupe_IF_NOT_EXISTS "c1" "k1") (Some 4)
                 (Reference.store Reference.table [("c1", "k1")])))
    as (E & M & _); [reflexivity | reflexivity | reflexivity |].
  split; [exact E | exact M].
Defined.

Lemma post_messages_accepted_witness :
  exists db',
    post_messages Reference.env 60
      (Reference.post "c1" " hi " (JStr "BOGUS") (JStr "k1"))
      (Reference.store Reference.table [])
    = (Return
         {| status := 200;
            body := JObj
                      [ ("ok", JBool true);
                        ("message_id",
                         JStr "0000003c-0000-1000-8000-000000000000");
                        ("warning",
                         JStr "Invalid consistency level 'BOGUS', using default 'QUORUM'") ] |},
       db')
    /\ messages db' = (Reference.message "c1" 60 "hi" :: Reference.table)%list.
Proof.
  destruct (post_messages_accepted (H := Reference.cassandra)
              Reference.env 60
              (Reference.post "c1" " hi " (JStr "BOGUS") (JStr "k1"))
              {| data_channel_id := "c1"; data_user_id := "u1";
                 data_content := "hi"; data_consistency := Some "BOGUS";
                 data_client_msg_id := Some "k1" |}
              (Reference.store Reference.table []))
    as (db' & E & _ & _ & _ & _ & _ & _ & M & _).
  - reflexivity.
  - split; [reflexivity | intros stmt level; reflexivity].
  - intros k _. reflexivity.
  - exists db'. split; [exact E | exact M].
Defined.

Lemma getMessages_after_newest_witness :
  exists db',
    getMessages "c2" 2 None (Some "0000000a-0000-1000-8000-000000000000") None
      (Reference.store Reference.table [])
    = (Return [ Reference.message "c2" 50 "fifth";
                Reference.message "c2" 40 "fourth" ], db').
Proof.
  destruct (getMessages_after_newest (H := Reference.cassandra)
              reference_order "c2" 2
              "0000000a-0000-1000-8000-000000000000" 10 None
              (Reference.store Reference.table []))
    as (rows & db' & E & R & _).
  - exact reference_primary_key.
  - split; [reflexivity | intros stmt level; reflexivity].
  - lia.
  - reflexivity.
  - reflexivity.
  - exists db'. rewrite E, R. reflexivity.
Defined.

Lemma pagination_covers_channel_witness :
  exists pages db',
    paginate 6 Reference.env "c2" (Some "2") None
      (Reference.store Reference.table [])
    = (Some pages, db')
    /\ List.concat pages
       = map item [ Reference.message "c2" 50 "fifth";
                    Reference.message "c2" 40 "fourth";
                    Reference.message "c2" 30 "third";
                    Reference.message "c2" 20 "second";
                    Reference.message "c2" 10 "first" ]
    /\ NoDup (map (get "message_id") (List.concat pages)).
Proof.
  destruct (pagination_covers_channel (H := Reference.cassandra)
              reference_order Reference.env "c2" 2
              (Reference.store Reference.table []) 6)
    as (pages & db' & E & C & _ & _ & _ & N & _).
  - split; [reflexivity | intros stmt level; reflexivity].
  - exact reference_primary_key.
  - repeat constructor.
  - unfold Js.length. simpl. lia.
  - lia.
  - simpl. lia.
  - exists pages, db'. split; [exact E|]. split; [exact C | exact N].
Defined.


Lemma validatePostMessage_checks_then_trims_witness :
  validatePostMessage (Reference.post " c1 " "   " JUndefined JUndefined)
  = inr (Valid {| data_channel_id := "c1"; data_user_id := "u1";
                  data_content := ""; data_consistency := None;
                  data_client_msg_id := None |})
  /\ (exists resp db',
        post_messages Reference.env 60
          (Reference.post " c1 " "   " JUndefined JUndefined)
          (Reference.store Reference.table [])
        = (Return resp, db')
        /\ In (Reference.message "c1" 60 "") (messages db'))
  /\ exists errors,
       errors <> []
       /\ validatePostMessage
            (Reference.post ("c1" ++ Reference.blanks 99) "hi" JUndefined
               JUndefined)
          = inr (Invalid errors).
Proof.
  destruct (validatePostMessage_checks_then_trims (H := Reference.cassandra))
    as (A & R & _).
  destruct (A " c1 " "u1" "   " None None) as (E & _ & S).
  - unfold Js.length. simpl. lia.
  - unfold Js.length. simpl. lia.
  - unfold Js.length. simpl. lia.
  - intros k K. discriminate K.
  - split; [exact E|]. split.
    + apply (S Reference.env 60 (Reference.store Reference.table [])).
      * split; [reflexivity | intros stmt level; reflexivity].
      * intros k K. discriminate K.
    + destruct (R (Reference.post ("c1" ++ Reference.blanks 99) "hi"
                     JUndefined JUndefined)) as (errors & N & V & _).
      * left. intros (s & B & L). injection B as <-.
        unfold Js.length in L. simpl in L. lia.
      * exists errors. split; [exact N | exact V].
Defined.

(** ** The further properties at work *)

Lemma validatePostMessage_valid_witness :
  Js.length (data_channel_id (Reference.data "c1" "hi" (Some "k1"))) <= 100
  /\ Js.length (data_content (Reference.data "c1" "hi" (Some "k1"))) <= 2000.
Proof.
  destruct (validatePostMessage_valid
              (Reference.post " c1 " " hi " JUndefined (JStr " k1 "))
              (Reference.data "c1" "hi" (Some "k1")) eq_refl)
    as (ch & u & c & _ & _ & _ & _ & _ & _ & _ & _ & _ & L1 & _ & L3 & _).
  split; [exact L1 | exact L3].
Defined.

Lemma post_messages_bad_request_witness :
  post_messages Reference.env 60
    (Reference.post "" "hi" JUndefined JUndefined)
    (Reference.store Reference.table [])
  = (Return (bad_request Reference.env
               ["channel_id is required and must be a string"]),
     Reference.store Reference.table []).
Proof.
  apply (proj1 (post_messages_bad_request (H := Reference.cassandra) Reference.env 60
                  (Reference.post "" "hi" JUndefined JUndefined)
                  (Reference.store Reference.table []))
           "channel_id is required and must be a string").
  left. reflexivity.
Defined.

Lemma post_messages_type_error_witness :
  post_messages Reference.env 60
    (Reference.post "c1" "hi" (JNum 1) JUndefined)
    (Reference.store Reference.table [])
  = (Return (post_failed Reference.env), Reference.store Reference.table [])
  /\ post_messages Reference.env 60
       (Reference.post "c1" "hi" JUndefined (JBool false))
       (Reference.store Reference.table [])
     = (Return (post_failed Reference.env),
        Reference.store Reference.table [])
  /\ post_messages Reference.env 60
       (Reference.post "c1" "hi" JUndefined (JNum 5))
       (Reference.store Reference.table [])
     = (Return
          (bad_request Reference.env
             ["client_msg_id must be a string between 1 and 100 characters"]),
        Reference.store Reference.table []).
Proof.
  split; [|split].
  - apply (proj1 (post_messages_type_error (H := Reference.cassandra)
                    Reference.env 60
                    (Reference.post "c1" "hi" (JNum 1) JUndefined)
                    (Reference.store Reference.table []))).
    + reflexivity.
    + left. repeat split; discriminate.
  - apply (proj1 (post_messages_type_error (H := Reference.cassandra)
                    Reference.env 60
                    (Reference.post "c1" "hi" JUndefined (JBool false))
                    (Reference.store Reference.table []))).
    + reflexivity.
    + right. repeat split; discriminate.
  - apply (proj2 (proj2 (post_messages_type_error (H := Reference.cassandra)
                           Reference.env 60
                           (Reference.post "c1" "hi" JUndefined (JNum 5))
                           (Reference.store Reference.table [])))).
    + repeat split; discriminate.
    + reflexivity.
Defined.

Lemma handlers_before_initialization_witness :
  post_messages Reference.env 60
    (Reference.post "c1" "hi" JUndefined JUndefined) Reference.unconnected
  = (Return (post_failed Reference.env), Reference.unconnected)
  /\ get_channel_messages Reference.env "c2"
       (Reference.listing None None None None) Reference.unconnected
     = (Return (get_failed Reference.env), Reference.unconnected).
Proof.
  destruct (handlers_before_initialization (H := Reference.cassandra) Reference.env
              Reference.unconnected eq_refl) as [P G].
  split.
  - apply (P 60 _ (Reference.data "c1" "hi" None)). reflexivity.
  - apply (G "c2" _ {| get_limit := 20; get_before := None;
                       get_after := None; get_consistency := None |}).
    + unfold Js.length. simpl. lia.
    + reflexivity.
Defined.

Lemma post_messages_failed_insert_keeps_key_witness :
  exists db1 db2,
    post_messages Reference.env 60
      (Reference.post "c1" "hi" JUndefined (JStr "k1"))
      Reference.store_refusing_messages
    = (Return (post_failed Reference.env), db1)
    /\ post_messages Reference.env 61
         (Reference.post "c1" "hi" JUndefined (JStr "k1")) db1
       = (Return deduplicated, db2)
    /\ messages db2 = Reference.table.
Proof.
  destruct (post_messages_failed_insert_keeps_key (H := Reference.cassandra) Reference.env 60 61
              (Reference.post "c1" "hi" JUndefined (JStr "k1"))
              (Reference.data "c1" "hi" (Some "k1")) "k1"
              Reference.store_refusing_messages
              eq_refl eq_refl eq_refl eq_refl eq_refl eq_refl)
    as (db1 & db2 & E1 & _ & _ & E2 & M).
  exists db1, db2. split; [exact E1|]. split; [exact E2 | exact M].
Defined.

Lemma post_messages_retry_stores_once_witness :
  exists db1 db2,
    post_messages Reference.env 60
      (Reference.post "c1" "hi" JUndefined (JStr "k1"))
      (Reference.store Reference.table [])
    = (Return (accepted_response Reference.env 60
                 (Reference.data "c1" "hi" (Some "k1"))), db1)
    /\ post_messages Reference.env 61
         (Reference.post "c1" "something else" JUndefined (JStr "k1")) db1
       = (Return deduplicated, db2)
    /\ messages db2 = messages db1.
Proof.
  destruct (post_messages_retry_stores_once (H := Reference.cassandra) Reference.env 60 61
              (Reference.post "c1" "hi" JUndefined (JStr "k1"))
              (Reference.post "c1" "something else" JUndefined (JStr "k1"))
              (Reference.data "c1" "hi" (Some "k1"))
              (Reference.data "c1" "something else" (Some "k1")) "k1"
              (Reference.store Reference.table []))
    as (db1 & db2 & E1 & _ & E2 & M); try reflexivity.
  - split; [reflexivity | intros stmt level; reflexivity].
  - exists db1, db2. split; [exact E1|]. split; [exact E2 | exact M].
Defined.

Lemma post_messages_other_channels_witness :
  exists resp db',
    post_messages Reference.env 60
      (Reference.post "c1" "hi" JUndefined JUndefined)
      (Reference.store Reference.table [])
    = (Return resp, db')
    /\ select "c2" Unbounded 2 (messages db')
       = [Reference.message "c2" 50 "fifth";
          Reference.message "c2" 40 "fourth"].
Proof.
  destruct (post_messages_other_channels (H := Reference.cassandra) Reference.env 60
              (Reference.post "c1" "hi" JUndefined JUndefined)
              (Reference.store Reference.table []) "c2")
    as (resp & db' & E & S & _).
  - intros data V. injection V as <-. discriminate.
  - exists resp, db'. split; [exact E|]. rewrite S. reflexivity.
Defined.

Lemma post_messages_key_stays_witness :
  exists db',
    post_messages Reference.env 80
      (Reference.post "c1" "again" JUndefined (JStr "k1"))
      (serve Reference.env Scenario.requests
         (Reference.store Reference.table [("c1", "k1")]))
    = (Return deduplicated, db').
Proof.
  destruct (post_messages_key_stays (H := Reference.cassandra) Reference.env
              Scenario.requests
              80 (Reference.post "c1" "again" JUndefined (JStr "k1"))
              (Reference.data "c1" "again" (Some "k1")) "k1"
              (Reference.store Reference.table [("c1", "k1")]))
    as (db' & E & _); try reflexivity.
  - split; [reflexivity | intros stmt level; reflexivity].
  - exists db'. exact E.
Defined.

Lemma post_messages_writes_only_witness :
  exists resp db',
    post_messages Reference.env 60
      (Reference.post "c2" "hi" JUndefined (JStr "k2"))
      (Reference.store Reference.table [("c1", "k1")])
    = (Return resp, db')
    /\ has_dedupe "c1" "k1" (message_dedupe db') = true.
Proof.
  destruct (post_messages_writes_only (H := Reference.cassandra) Reference.env 60
              (Reference.post "c2" "hi" JUndefined (JStr "k2"))
              (Reference.store Reference.table [("c1", "k1")]))
    as (resp & db' & E & _ & K & _).
  exists resp, db'. split; [exact E|]. apply K. reflexivity.
Defined.

Lemma validateGetMessages_valid_witness :
  get_limit {| get_limit := 20; get_before := None; get_after := None;
               get_consistency := Some "ONE" |} = 20
  /\ 1 <= get_limit {| get_limit := 20; get_before := None;
                       get_after := None; get_consistency := Some "ONE" |}
     <= 100.
Proof.
  destruct (validateGetMessages_valid
              (Reference.listing (Some "") None None (Some "ONE"))
              {| get_limit := 20; get_before := None; get_after := None;
                 get_consistency := Some "ONE" |} eq_refl)
    as (_ & B & D & _).
  split; [exact (D eq_refl) | exact B].
Defined.

Lemma serve_primary_key_witness :
  primary_key
    (messages (serve Reference.env Scenario.requests
                 (Reference.store Reference.table []))).
Proof.
  apply (serve_primary_key (H := Reference.cassandra) reference_order).
  exact reference_primary_key.
Defined.

Lemma handle_status_witness :
  exists resp db',
    handle Reference.soft_env
      (GET_messages "c2" (Reference.listing (Some "0") None None None))
      (Reference.store Reference.table [])
    = (Return resp, db')
    /\ status resp = 200.
Proof.
  destruct (handle_status (H := Reference.cassandra) Reference.soft_env
              (GET_messages "c2"
                 (Reference.listing (Some "0") None None None))
              (Reference.store Reference.table []))
    as (resp & db' & E & _ & S).
  exists resp, db'. split; [exact E | exact (S eq_refl)].
Defined.

Lemma consistency_trimmed_on_write_only_witness :
  validateConsistency Reference.env (Some "quorum")
  = {| value := consistencies "quorum"; warning := None |}
  /\ read_level Reference.env
       {| get_limit := 20; get_before := None; get_after := None;
          get_consistency := Some " quorum " |}
     = {| value := consistencies "quorum";
          warning :=
            Some "Invalid consistency level ' quorum ', using default 'QUORUM'"
       |}.
Proof.
  destruct (consistency_trimmed_on_write_only (H := Reference.cassandra)
              Reference.env " quorum " eq_refl eq_refl) as [W R].
  split.
  - apply (W (Reference.post "c1" "hi" (JStr " quorum ") JUndefined)
             {| data_channel_id := "c1"; data_user_id := "u1";
                data_content := "hi"; data_consistency := Some "quorum";
                data_client_msg_id := None |}); reflexivity.
  - apply (R (Reference.listing None None None (Some " quorum "))
             {| get_limit := 20; get_before := None; get_after := None;
                get_consistency := Some " quorum " |}); reflexivity.
Defined.

Lemma start_then_health_witness :
  exists info db',
    start Reference.scylla_env (fun _ => true) Reference.unconnected
    = (Some info, db')
    /\ getClient db' = (Return tt, db')
    /\ health (Some info)
       = json (JObj [ ("ok", JBool true); ("dc", JStr "datacenter1");
                      ("keyspace", JStr "chat") ]).
Proof.
  destruct (proj1 (proj2 (proj2 (proj2 (proj2
              (start_then_health (H := Reference.cassandra)
                 Reference.scylla_env (fun _ => true)
                 Reference.unconnected))))) eq_refl)
    as (info & db' & E & G & _ & _ & _ & Hh).
  exists info, db'. split; [exact E|]. split; [exact G | exact Hh].
Defined.

Lemma post_messages_without_key_witness :
  exists db1 db2,
    post_messages Reference.env 60
      (Reference.post "c1" "hi" JUndefined (JStr "  "))
      (Reference.store Reference.table [])
    = (Return (accepted_response Reference.env 60
                 (Reference.data "c1" "hi" (Some ""))), db1)
    /\ post_messages Reference.env 61
         (Reference.post "c1" "hi" JUndefined (JStr "  ")) db1
       = (Return (accepted_response Reference.env 61
                    (Reference.data "c1" "hi" (Some ""))), db2)
    /\ In (Reference.message "c1" 60 "hi") (messages db2)
    /\ In (Reference.message "c1" 61 "hi") (messages db2)
    /\ message_dedupe db2 = [].
Proof.
  destruct (post_messages_without_key (H := Reference.cassandra)
              Reference.env 60 61
              (Reference.post "c1" "hi" JUndefined (JStr "  "))
              (Reference.data "c1" "hi" (Some ""))
              (Reference.store Reference.table []))
    as (db1 & db2 & E1 & E2 & I1 & I2 & D & _).
  - reflexivity.
  - split; [reflexivity | intros stmt level; reflexivity].
  - reflexivity.
  - right. exists "  ". split; reflexivity.
  - exists db1, db2. repeat split; assumption.
Defined.

Lemma validateGetMessages_limit_prefix_witness :
  validateGetMessages (Reference.listing (Some "10abc") None None None)
  = Valid {| get_limit := 10; get_before := None; get_after := None;
             get_consistency := None |}.
Proof.
  apply (validateGetMessages_limit_prefix 10 "abc" None).
  - lia.
  - right. exists "a"%char, "bc". split; reflexivity.
Defined.


Lemma get_channel_messages_listing_witness :
  (exists rows db',
     Raw.get_channel_messages Reference.env "c2"
       {| Raw.query_limit := Some (QString "2");
          Raw.query_before :=
            Some (QString "0000001e-0000-1000-8000-000000000000");
          Raw.query_after := None; Raw.query_consistency := None |}
       (Reference.store Reference.table [])
     = (Return
          (listing rows
             {| value := consistencies "one"; warning := None |}), db')
     /\ Z.of_nat (List.length rows) <= 2
     /\ descending rows
     /\ Forall (fun row => row_channel_id row = "c2"
                           /\ (row_message_id row <? 30) = true) rows)
  /\ Raw.get_channel_messages Reference.env "c2"
       {| Raw.query_limit := None; Raw.query_before := None;
          Raw.query_after := None;
          Raw.query_consistency :=
            Some (QArray [QString "ONE"; QString "TWO"]) |}
       (Reference.store Reference.table [])
     = (Return (get_failed Reference.env),
        Reference.store Reference.table []).
Proof.
  split.
  - destruct (get_channel_messages_listing (H := Reference.cassandra)
                reference_order Reference.env "c2"
                {| Raw.query_limit := Some (QString "2");
                   Raw.query_before :=
                     Some (QString "0000001e-0000-1000-8000-000000000000");
                   Raw.query_after := None;
                   Raw.query_consistency := None |}
                {| Raw.get_limit := 2;
                   Raw.get_before :=
                     Some (QString "0000001e-0000-1000-8000-000000000000");
                   Raw.get_after := None; Raw.get_consistency := None |}
                (Reference.store Reference.table []))
      as (P & _).
    + split; [reflexivity | intros stmt level; reflexivity].
    + exact reference_primary_key.
    + unfold Js.length. simpl. lia.
    + reflexivity.
    + destruct (P {| value := consistencies "one"; warning := None |}
                  (Before (H := Reference.cassandra) 30)
                  eq_refl eq_refl)
        as (rows & db' & E & _ & _ & _ & L & F & D & _).
      exists rows, db'. split; [exact E|]. split; [exact L|].
      split; [exact D|].
      apply (Forall_impl _
               (P := fun row => In row Reference.table
                                /\ row_channel_id row = "c2"
                                /\ in_bound
                                     (Before (H := Reference.cassandra) 30)
                                     row = true));
        [|exact F].
      intros row (_ & C & B). split; [exact C | exact B].
  - destruct (get_channel_messages_listing (H := Reference.cassandra)
                reference_order Reference.env "c2"
                {| Raw.query_limit := None; Raw.query_before := None;
                   Raw.query_after := None;
                   Raw.query_consistency :=
                     Some (QArray [QString "ONE"; QString "TWO"]) |}
                {| Raw.get_limit := 20; Raw.get_before := None;
                   Raw.get_after := None;
                   Raw.get_consistency :=
                     Some (QArray [QString "ONE"; QString "TWO"]) |}
                (Reference.store Reference.table []))
      as (_ & _ & T & F).
    + split; [reflexivity | intros stmt level; reflexivity].
    + exact reference_primary_key.
    + unfold Js.length. simpl. lia.
    + reflexivity.
    + apply F. left.
      apply (T (QArray [QString "ONE"; QString "TWO"]) eq_refl).
      intros s N. discriminate N.
Defined.

Lemma post_messages_blank_channel_witness :
  data_channel_id (Reference.data "" "hi" None) = ""
  /\ exists resp db',
       Raw.get_channel_messages Reference.env "c2"
         {| Raw.query_limit := None; Raw.query_before := None;
            Raw.query_after := None; Raw.query_consistency := None |}
         (Reference.store (Reference.message "" 60 "hi" :: Reference.table)
            [])
       = (Return resp, db')
       /\ (get "ok" (body resp) = JBool false
           \/ exists rows r,
                resp = listing rows r
                /\ Forall (fun row => row_channel_id row <> "") rows).
Proof.
  destruct (post_messages_blank_channel (H := Reference.cassandra)
              Reference.env 60
              (Reference.post "  " "hi" JUndefined JUndefined)
              (Reference.data "" "hi" None) "  "
              (Reference.store Reference.table [])
              eq_refl eq_refl eq_refl) as (E & _ & G).
  split; [exact E|]. apply G. discriminate.
Defined.

Lemma statements_run_at_resolved_level_witness :
  exists rows db',
    Raw.get_channel_messages Reference.env "c2"
      {| Raw.query_limit := None; Raw.query_before := None;
         Raw.query_after := None;
         Raw.query_consistency := Some (QString "LOCAL_QUORUM") |}
      (Reference.store Reference.table [])
    = (Return (listing rows {| value := None; warning := None |}), db')
    /\ executed db'
       = [(SELECT_messages "c2" Unbounded 20, consistencies "one")].
Proof.
  destruct (proj2 (statements_run_at_resolved_level
                     (H := Reference.cassandra) Reference.env)
              "c2"
              {| Raw.query_limit := None; Raw.query_before := None;
                 Raw.query_after := None;
                 Raw.query_consistency := Some (QString "LOCAL_QUORUM") |}
              {| Raw.get_limit := 20; Raw.get_before := None;
                 Raw.get_after := None;
                 Raw.get_consistency := Some (QString "LOCAL_QUORUM") |}
              {| value := None; warning := None |}
              Unbounded (Reference.store Reference.table []))
    as (rows & db' & E & X).
  - split; [reflexivity | intros stmt level; reflexivity].
  - unfold Js.length. simpl. lia.
  - reflexivity.
  - reflexivity.
  - reflexivity.
  - exists rows, db'. split; [exact E|]. rewrite X. reflexivity.
Defined.
